(** * Ship-tracking ETL: validation and star-schema load

    A shallow embedding of [etl_ship_data_with_schema.py] and the properties
    of its validation-and-load pipeline.

    Conventions of the embedding.
    - Python exceptions are values of [exn]; a computation that may raise
      returns a [Result].  Only subclasses of [Exception] are modelled: none
      of the modelled operations raises anything else.
    - A Python [float] is [pyfloat]: nan, an infinity, or an exact rational.
      Binary representation error is abstracted away, so [round(x, n)] is
      round-half-to-even on the exact decimal expansion.
    - The [psycopg2] connection is a record [Conn]: the tables as the open
      transaction sees them, the tables as last committed, the
      aborted-transaction flag and a schedule of injected faults.
    - Library functions whose grammar is not this repository's
      ([ast.literal_eval], [float] of a string, [pd.to_datetime],
      [pd.read_excel]) and what the file system answers are section
      variables.
    - [get_excel_files] tells apart subclasses of OSError that the rest of
      the pipeline never looks at; it has its own exception classes
      [fs_exn] and outcome type [FsResult]. *)

From Stdlib Require Import ZArith QArith Qround Lqa String Ascii List Lia.
From stdpp Require Import gmap strings list sorting.

Local Open Scope string_scope.
Local Open Scope list_scope.

(** ** Exceptions and results *)

Inductive exn : Type :=
| ValueError
| JSONDecodeError          (* subclass of ValueError *)
| TypeError
| KeyError
| OverflowError
| SyntaxError
| RecursionError
| MemoryError
| OSError
| RuntimeError (records_loaded : nat)
| IntegrityError           (* psycopg2.IntegrityError *)
| OperationalError         (* psycopg2.OperationalError *)
| InFailedSqlTransaction   (* psycopg2.errors.InFailedSqlTransaction *)
| ProgrammingError.        (* psycopg2.ProgrammingError *)

Inductive Result (A : Type) : Type :=
| Ok (a : A)
| Raise (e : exn).
Arguments Ok {A} a.
Arguments Raise {A} e.

Definition is_ValueError (e : exn) : bool :=
  match e with ValueError | JSONDecodeError => true | _ => false end.

Definition is_TypeError (e : exn) : bool :=
  match e with TypeError => true | _ => false end.

Definition is_JSONDecodeError (e : exn) : bool :=
  match e with JSONDecodeError => true | _ => false end.

Definition is_IntegrityError (e : exn) : bool :=
  match e with IntegrityError => true | _ => false end.

#[global] Instance Result_ret : MRet Result := fun _ a => Ok a.

#[global] Instance Result_bind : MBind Result := fun _ _ k r =>
  match r with
  | Ok a => k a
  | Raise e => Raise e
  end.

(** ** Python values *)

Inductive pyfloat : Type :=
| FNan
| FInf (negative : bool)
| FFin (q : Q).

(** A value stored under a key of the decoded record. [VOther] stands for
    the values [float()] rejects with [TypeError] (lists, tuples, dicts,
    sets, complex numbers). *)
Inductive PyVal : Type :=
| VNone
| VBool (b : bool)
| VInt (z : Z)
| VFloat (f : pyfloat)
| VStr (s : string)
| VOther.

(** What [ast.literal_eval] can return, seen through the two operations
    the validator applies to it: [key in obj] and [obj[key]] for a string
    key.  [OSeq] covers str, list, tuple and set (membership is defined,
    subscripting by a string raises [TypeError]); [OAtom] covers numbers,
    booleans, [None] and bytes (membership itself raises [TypeError]). *)
Inductive PyObj : Type :=
| ODict (d : gmap string PyVal)
| OSeq (has : string -> bool)
| OAtom.

Definition py_contains (k : string) (o : PyObj) : Result bool :=
  match o with
  | ODict d => Ok (bool_decide (is_Some (d !! k)))
  | OSeq has => Ok (has k)
  | OAtom => Raise TypeError
  end.

Definition py_getitem (k : string) (o : PyObj) : Result PyVal :=
  match o with
  | ODict d => match d !! k with Some v => Ok v | None => Raise KeyError end
  | OSeq _ => Raise TypeError
  | OAtom => Raise TypeError
  end.

(** ** Numbers *)

(** The least integer magnitude that [float()] cannot represent: it rounds
    to 2^1024. *)
Definition float_overflow_bound : Z := 2 ^ 1024 - 2 ^ 970.

(** Round half to even, to an integer. *)
Definition round_half_even (y : Q) : Z :=
  let f := Qfloor y in
  match (y - inject_Z f ?= 1 # 2)%Q with
  | Lt => f
  | Gt => (f + 1)%Z
  | Eq => if Z.even f then f else (f + 1)%Z
  end.

Definition pow10 (n : Z) : positive := Z.to_pos (10 ^ n).

(** [round(x, ndigits)] on a finite float. *)
Definition py_round_Q (x : Q) (ndigits : Z) : Q :=
  if (0 <=? ndigits)%Z
  then Qmake (round_half_even (x * inject_Z (Zpos (pow10 ndigits)))) (pow10 ndigits)
  else inject_Z (round_half_even (x / inject_Z (Zpos (pow10 (- ndigits))))
                 * Zpos (pow10 (- ndigits))).

Definition py_round (x : pyfloat) (ndigits : Z) : pyfloat :=
  match x with
  | FFin q => FFin (py_round_Q q ndigits)
  | other => other
  end.

(** [min_val <= numeric_value <= max_val]; every comparison with nan is
    false. *)
Definition in_range (min_val max_val : Q) (x : pyfloat) : bool :=
  match x with
  | FNan => false
  | FInf _ => false
  | FFin q => Qle_bool min_val q && Qle_bool q max_val
  end.

(** [value is None or (isinstance(value, float) and pd.isna(value))] *)
Definition is_none_or_nan (v : PyVal) : bool :=
  match v with
  | VNone => true
  | VFloat FNan => true
  | _ => false
  end.

(** ** Field Validator *)

Definition Rule : Type := (string * (string * Q * Q * Z))%type.

Definition validation_rules : list Rule :=
  [ ("LAT", ("latitude", -(90), 90, 6%Z));
    ("LON", ("longitude", -(180), 180, 6%Z));
    ("WINDIR", ("wind_direction", 0, 360, 2%Z));
    ("WINSPE", ("wind_speed", 0, 200, 2%Z));
    ("AIR_TEMP_AUT", ("air_temperature", -(50), 60, 2%Z));
    ("CTNK0_LIQ_VOL", ("tank0_liquid_volume", 0, 99999999 # 100, 2%Z));
    ("CTNK0_MAX_VOL", ("tank0_max_volume", 0, 99999999 # 100, 2%Z));
    ("CTNK0_MAX_PERC", ("tank0_percentage", 0, 100, 2%Z));
    ("CTNK1_LIQ_VOL", ("tank1_liquid_volume", 0, 99999999 # 100, 2%Z));
    ("CTNK1_MAX_VOL", ("tank1_max_volume", 0, 99999999 # 100, 2%Z));
    ("CTNK1_PERC", ("tank1_percentage", 0, 100, 2%Z));
    ("CTNK2_LIQ_VOL", ("tank2_liquid_volume", 0, 99999999 # 100, 2%Z));
    ("CTNK2_MAX_VOL", ("tank2_max_volume", 0, 99999999 # 100, 2%Z));
    ("CTNK2_PERC", ("tank2_percentage", 0, 100, 2%Z));
    ("CTNK3_LIQ_VOL", ("tank3_liquid_volume", 0, 99999999 # 100, 2%Z));
    ("CTNK3_MAX_VOL", ("tank3_max_volume", 0, 99999999 # 100, 2%Z));
    ("CTNK3_PERC", ("tank3_percentage", 0, 100, 2%Z));
    ("CTNK4_LIQ_VOL", ("tank4_liquid_volume", 0, 99999999 # 100, 2%Z));
    ("CTNK4_MAX_VOL", ("tank4_max_volume", 0, 99999999 # 100, 2%Z));
    ("CTNK4_PERC", ("tank4_percentage", 0, 100, 2%Z));
    ("CTNK0_VAP_PRES", ("tank0_vapor_pressure", 0, 999999 # 100, 2%Z));
    ("CTNK0_VAP_TEMP", ("tank0_vapor_temperature", -(200), 200, 2%Z));
    ("CTNK1_VAP_PRES", ("tank1_vapor_pressure", 0, 999999 # 100, 2%Z));
    ("CTNK1_VAP_TEMP", ("tank1_vapor_temperature", -(200), 200, 2%Z));
    ("CTNK2_VAP_PRES", ("tank2_vapor_pressure", 0, 999999 # 100, 2%Z));
    ("CTNK2_VAP_TEMP", ("tank2_vapor_temperature", -(200), 200, 2%Z));
    ("CTNK3_VAP_PRES", ("tank3_vapor_pressure", 0, 999999 # 100, 2%Z));
    ("CTNK3_VAP_TEMP", ("tank3_vapor_temperature", -(200), 200, 2%Z));
    ("CTNK4_VAP_PRES", ("tank4_vapor_pressure", 0, 999999 # 100, 2%Z));
    ("CTNK4_VAP_TEMP", ("tank4_vapor_temperature", -(200), 200, 2%Z)) ]%Q.

Section Model.

(** [float(s)] for a string [s]; [None] is [ValueError]. *)
Variable float_of_str : string -> option pyfloat.

(** [float(value)] *)
Definition py_float (v : PyVal) : Result pyfloat :=
  match v with
  | VNone => Raise TypeError
  | VBool b => Ok (FFin (if b then 1 else 0))
  | VInt z =>
      if (float_overflow_bound <=? Z.abs z)%Z then Raise OverflowError
      else Ok (FFin (inject_Z z))
  | VFloat f => Ok f
  | VStr s =>
      match float_of_str s with
      | Some f => Ok f
      | None => Raise ValueError
      end
  | VOther => Raise TypeError
  end.

(** The loop state is [(validated_data, validation_errors)]. *)
Definition ValidatorState : Type := (gmap string pyfloat * nat)%type.

(** The body of the [try] block for one rule. *)
Definition validate_try (data_dict : PyObj) (rule : Rule) (st : ValidatorState)
  : Result ValidatorState :=
  let '(source_key, (target_field, min_val, max_val, precision)) := rule in
  let '(validated_data, validation_errors) := st in
  value ← py_getitem source_key data_dict;
  if is_none_or_nan value then Ok st
  else
    numeric_value ← py_float value;
    if negb (in_range min_val max_val numeric_value)
    then Ok (validated_data, S validation_errors)
    else
      let rounded_value := py_round numeric_value precision in
      Ok (<[source_key := rounded_value]> validated_data, validation_errors).

(** One iteration of the loop over [validation_rules.items()]. *)
Definition validate_rule (data_dict : PyObj) (st : ValidatorState) (rule : Rule)
  : Result ValidatorState :=
  in_dict ← py_contains (fst rule) data_dict;
  if in_dict : bool then
    match validate_try data_dict rule st with
    | Ok st' => Ok st'
    | Raise e =>
        if is_ValueError e || is_TypeError e
        then Ok (fst st, S (snd st))
        else Raise e
    end
  else Ok st.

Fixpoint validate_loop (data_dict : PyObj) (rules : list Rule) (st : ValidatorState)
  : Result ValidatorState :=
  match rules with
  | [] => Ok st
  | rule :: rest =>
      st' ← validate_rule data_dict st rule;
      validate_loop data_dict rest st'
  end.

Definition validate_sensor_data (data_dict : PyObj) : Result (gmap string pyfloat) :=
  st ← validate_loop data_dict validation_rules (∅, 0%nat);
  Ok (fst st).


(** ** Record Parser *)

Definition quote_char : ascii := "034"%char.

Definition is_quote (c : ascii) : bool := Ascii.eqb c quote_char.

Fixpoint lstrip_chars (p : ascii -> bool) (s : string) : string :=
  match s with
  | EmptyString => EmptyString
  | String c r => if p c then lstrip_chars p r else s
  end.

Fixpoint rstrip_chars (p : ascii -> bool) (s : string) : string :=
  match s with
  | EmptyString => EmptyString
  | String c r =>
      match rstrip_chars p r with
      | EmptyString => if p c then EmptyString else String c EmptyString
      | r' => String c r'
      end
  end.

(** [s.strip(chars)] *)
Definition strip_chars (p : ascii -> bool) (s : string) : string :=
  rstrip_chars p (lstrip_chars p s).

(** Replace every doubled quote by a single one, scanning left to right. *)
Fixpoint replace_doubled_quotes (s : string) : string :=
  match s with
  | EmptyString => EmptyString
  | String c r =>
      match r with
      | EmptyString => String c EmptyString
      | String c' r' =>
          if is_quote c && is_quote c'
          then String quote_char (replace_doubled_quotes r')
          else String c (replace_doubled_quotes r)
      end
  end.

(** The argument of [parse_data_column]: a str, a dict, or anything else. *)
Inductive DataArg : Type :=
| AStr (s : string)
| ADict (d : gmap string PyVal)
| AOtherType.

(** [ast.literal_eval] *)
Variable literal_eval : string -> Result PyObj.

(** The body of the [try] block of [parse_data_column]. *)
Definition parse_try (data_str : DataArg) : Result (gmap string pyfloat) :=
  let validate parsed_data :=
    validated_data ← validate_sensor_data parsed_data;
    if Nat.eqb (size validated_data) 0 then Ok ∅ else Ok validated_data in
  match data_str with
  | AStr s =>
      let data_str := replace_doubled_quotes (strip_chars is_quote s) in
      parsed_data ← literal_eval data_str;
      validate parsed_data
  | ADict d => validate (ODict d)
  | AOtherType => Ok ∅
  end.

Definition parse_data_column (data_str : DataArg) : Result (gmap string pyfloat) :=
  match parse_try data_str with
  | Ok validated_data => Ok validated_data
  | Raise e =>
      if is_JSONDecodeError e then Ok ∅
      else if is_ValueError e then Ok ∅
      else Ok ∅
  end.

(** ** File Processor *)

(** A spreadsheet cell: null (None, NaN, NaT), or a value given by its
    [str()] rendering. *)
Inductive Cell : Type :=
| CNa
| CVal (text : string).

(** [row[col]] on a pandas Series *)
Definition series_getitem (col : string) (row : gmap string Cell) : Result Cell :=
  match row !! col with
  | Some c => Ok c
  | None => Raise KeyError
  end.

(** ASCII characters for which [str.isspace] holds. *)
Definition is_space (c : ascii) : bool :=
  let n := nat_of_ascii c in
  ((9 <=? n) && (n <=? 13) || (28 <=? n) && (n <=? 32))%nat.

Definition required_columns : list string := ["id_ship"; "datetime"; "data"].

Definition validate_input_data (row_data : gmap string Cell) (required : list string) : bool :=
  match filter (fun col => row_data !! col = None) required with
  | [] => true
  | _ => false
  end.

(** Destination field and the raw key it is read from, in the order of the
    [processed_row] literal. *)
Definition field_mapping : list (string * string) :=
  [ ("latitude", "LAT");
    ("longitude", "LON");
    ("wind_direction", "WINDIR");
    ("wind_speed", "WINSPE");
    ("air_temperature", "AIR_TEMP_AUT");
    ("tank0_liquid_volume", "CTNK0_LIQ_VOL");
    ("tank0_max_volume", "CTNK0_MAX_VOL");
    ("tank0_percentage", "CTNK0_MAX_PERC");
    ("tank1_liquid_volume", "CTNK1_LIQ_VOL");
    ("tank1_max_volume", "CTNK1_MAX_VOL");
    ("tank1_percentage", "CTNK1_PERC");
    ("tank2_liquid_volume", "CTNK2_LIQ_VOL");
    ("tank2_max_volume", "CTNK2_MAX_VOL");
    ("tank2_percentage", "CTNK2_PERC");
    ("tank3_liquid_volume", "CTNK3_LIQ_VOL");
    ("tank3_max_volume", "CTNK3_MAX_VOL");
    ("tank3_percentage", "CTNK3_PERC");
    ("tank4_liquid_volume", "CTNK4_LIQ_VOL");
    ("tank4_max_volume", "CTNK4_MAX_VOL");
    ("tank4_percentage", "CTNK4_PERC");
    ("tank0_vapor_pressure", "CTNK0_VAP_PRES");
    ("tank0_vapor_temperature", "CTNK0_VAP_TEMP");
    ("tank1_vapor_pressure", "CTNK1_VAP_PRES");
    ("tank1_vapor_temperature", "CTNK1_VAP_TEMP");
    ("tank2_vapor_pressure", "CTNK2_VAP_PRES");
    ("tank2_vapor_temperature", "CTNK2_VAP_TEMP");
    ("tank3_vapor_pressure", "CTNK3_VAP_PRES");
    ("tank3_vapor_temperature", "CTNK3_VAP_TEMP");
    ("tank4_vapor_pressure", "CTNK4_VAP_PRES");
    ("tank4_vapor_temperature", "CTNK4_VAP_TEMP") ].

(** One element of [processed_rows]: the dict literal with its fixed keys.
    [sensors] holds the thirty numeric entries under their destination
    names; [None] is Python's [None]. *)
Record ProcessedRow : Type := {
  id_ship : string;
  datetime_str : string;
  datetime_created : option string;
  sensors : gmap string (option pyfloat);
  data_source : string
}.

Record Path : Type := {
  parent : string;
  name : string
}.

(** [str(cell).strip() if pd.notna(cell) else None], and the same without
    [strip()] for the data column. *)
Definition sanitize (strip : bool) (c : Cell) : option string :=
  match c with
  | CNa => None
  | CVal text => Some (if strip then strip_chars is_space text else text)
  end.

(** The truth value [all] takes of a sanitized field: [None] and the empty
    string are false. *)
Definition truthy (o : option string) : bool :=
  match o with
  | None => false
  | Some EmptyString => false
  | Some _ => true
  end.

(** The [processed_row] literal: every destination field is read with
    [data_dict.get] from the raw key [field_mapping] pairs it with. *)
Definition processed_row (ship_id datetime_str : string) (created : option string)
  (data_dict : gmap string pyfloat) (excel_file_path : Path) : ProcessedRow :=
  {| id_ship := ship_id;
     datetime_str := datetime_str;
     datetime_created := created;
     sensors := list_to_map
       ((fun '(dst, src) => (dst, data_dict !! src)) <$> field_mapping);
     data_source := name excel_file_path |}.

(** The body of the per-row [try] block; [Ok None] is a row rejected with
    a validation error. *)
Definition process_row (excel_file_path : Path) (row : gmap string Cell)
  : Result (option ProcessedRow) :=
  if negb (validate_input_data row required_columns) then Ok None
  else
    id_cell ← series_getitem "id_ship" row;
    let ship_id := sanitize true id_cell in
    dt_cell ← series_getitem "datetime" row;
    let datetime_str := sanitize true dt_cell in
    data_cell ← series_getitem "data" row;
    let data_str := sanitize false data_cell in
    if negb (truthy ship_id && truthy datetime_str && truthy data_str) then Ok None
    else
      data_dict ← parse_data_column (AStr (default "" data_str));
      if Nat.eqb (size data_dict) 0 then Ok None
      else
        created_cell ← series_getitem "datetime_created" row;
        Ok (Some (processed_row (default "" ship_id) (default "" datetime_str)
                    (sanitize true created_cell) data_dict excel_file_path)).

(** The loop over [df.iterrows()]; the state is
    [(processed_rows, validation_errors, processing_errors)]. *)
Fixpoint process_rows (excel_file_path : Path) (rows : list (gmap string Cell))
  (st : list ProcessedRow * nat * nat) : list ProcessedRow * nat * nat :=
  match rows with
  | [] => st
  | row :: rest =>
      let '(processed_rows, validation_errors, processing_errors) := st in
      process_rows excel_file_path rest
        match process_row excel_file_path row with
        | Ok (Some new_row) =>
            ((processed_rows ++ [new_row]), validation_errors, processing_errors)
        | Ok None => (processed_rows, S validation_errors, processing_errors)
        | Raise _ => (processed_rows, validation_errors, S processing_errors)
        end
  end.

(** The statistics block written to the log after the loop. *)
Record FileStats : Type := {
  total_rows : nat;
  processed_count : nat;
  stat_validation_errors : nat;
  stat_processing_errors : nat;
  success_rate : Q
}.

(** [excel_file_path.stat().st_size] *)
Variable stat_size : Path -> Result Z.

(** [pd.read_excel(excel_file_path, sheet_name='DATA')] *)
Variable read_excel : Path -> Result (list (gmap string Cell)).

(** Returns the DataFrame and the logged statistics; the statistics are
    absent when the file-level handler returned the empty DataFrame. *)
Definition process_xlsx_file (excel_file_path : Path)
  : Result (list ProcessedRow * option FileStats) :=
  _ ← stat_size excel_file_path;
  match read_excel excel_file_path with
  | Raise _ => Ok ([], None)
  | Ok df =>
      let '(processed_rows, validation_errors, processing_errors) :=
        process_rows excel_file_path df ([], 0%nat, 0%nat) in
      let total_rows := length df in
      let processed_count := length processed_rows in
      let success_rate :=
        if (0 <? total_rows)%nat
        then (inject_Z (Z.of_nat processed_count) / inject_Z (Z.of_nat total_rows) * 100)%Q
        else 0%Q in
      Ok (processed_rows,
          Some {| total_rows := total_rows;
                  processed_count := processed_count;
                  stat_validation_errors := validation_errors;
                  stat_processing_errors := processing_errors;
                  success_rate := success_rate |})
  end.

(** ** Timestamps *)

Record datetime : Type := {
  year : Z;
  month : Z;
  day : Z;
  hour : Z;
  minute : Z;
  second : Z;
  microsecond : Z
}.

#[global] Instance datetime_eq_dec : EqDecision datetime.
Proof. solve_decision. Defined.

Definition is_leap (y : Z) : bool :=
  ((y mod 4 =? 0) && (negb (y mod 100 =? 0) || (y mod 400 =? 0)))%Z.

Definition days_before_year (y : Z) : Z :=
  let y := (y - 1)%Z in
  (y * 365 + y / 4 - y / 100 + y / 400)%Z.

Definition DAYS_BEFORE_MONTH : list Z :=
  [-1; 0; 31; 59; 90; 120; 151; 181; 212; 243; 273; 304; 334]%Z.

Definition days_before_month (y m : Z) : Z :=
  (nth (Z.to_nat m) DAYS_BEFORE_MONTH 0 + if (2 <? m) && is_leap y then 1 else 0)%Z.

Definition ymd2ord (y m d : Z) : Z :=
  (days_before_year y + days_before_month y m + d)%Z.

Definition toordinal (t : datetime) : Z := ymd2ord (year t) (month t) (day t).

(** [timestamp.weekday()]: Monday is 0. *)
Definition weekday (t : datetime) : Z := ((toordinal t + 6) mod 7)%Z.

Definition isoweek1monday (y : Z) : Z :=
  let firstday := ymd2ord y 1 1 in
  let firstweekday := ((firstday + 6) mod 7)%Z in
  let week1monday := (firstday - firstweekday)%Z in
  if (3 <? firstweekday)%Z then (week1monday + 7)%Z else week1monday.

(** [timestamp.isocalendar()[1]] *)
Definition iso_week (t : datetime) : Z :=
  let y := year t in
  let today := toordinal t in
  let week := ((today - isoweek1monday y) / 7)%Z in
  if (week <? 0)%Z then ((today - isoweek1monday (y - 1)) / 7 + 1)%Z
  else if (52 <=? week)%Z && (isoweek1monday (y + 1) <=? today)%Z then 1%Z
  else (week + 1)%Z.

Definition same_minute (a b : datetime) : Prop :=
  year a = year b ∧ month a = month b ∧ day a = day b
  ∧ hour a = hour b ∧ minute a = minute b.

(** The timestamp truncated to the minute, as the specification words the
    calendar key. *)
Definition truncate_to_minute (t : datetime) : datetime :=
  {| year := year t; month := month t; day := day t;
     hour := hour t; minute := minute t; second := 0; microsecond := 0 |}.

(** ** Storage *)

Record CalendarRow : Type := {
  datetime_id : datetime;
  cal_date : Z * Z * Z;
  cal_year : Z;
  cal_month : Z;
  cal_day : Z;
  cal_hour : Z;
  cal_minute : Z;
  quarter : Z;
  week_of_year : Z;
  day_of_week : Z;
  is_weekend : bool
}.

Record FactRow : Type := {
  f_ship_id : string;
  f_datetime_id : datetime;
  f_measures : list (option pyfloat);
  f_data_source : string;
  f_original_datetime : string
}.

Record Tables : Type := {
  d_ship : list string;
  d_calendar : list CalendarRow;
  f_data : list FactRow
}.

(** The connection: [tables] is what the open transaction sees, [durable]
    what was last committed; [aborted] is set by a failed statement until
    the next rollback or commit; every call on the connection consumes one
    entry of [faults] and fails when that entry is [true]. *)
Record Conn : Type := {
  tables : Tables;
  durable : Tables;
  aborted : bool;
  faults : list bool
}.

Definition DB (A : Type) : Type := Conn -> Result A * Conn.

#[global] Instance DB_ret : MRet DB := fun _ a c => (Ok a, c).

#[global] Instance DB_bind : MBind DB := fun _ _ k m c =>
  match m c with
  | (Ok a, c') => k a c'
  | (Raise e, c') => (Raise e, c')
  end.

Definition consume_fault (c : Conn) : bool * Conn :=
  match faults c with
  | [] => (false, c)
  | b :: rest =>
      (b, {| tables := tables c; durable := durable c;
             aborted := aborted c; faults := rest |})
  end.

(** [conn.cursor()] *)
Definition conn_cursor : DB unit := fun c =>
  let '(fault, c) := consume_fault c in
  if fault then (Raise OperationalError, c) else (Ok tt, c).

(** [cursor.execute(stmt)] for a statement given by its effect on the
    tables. A failed statement leaves the tables as they were and aborts
    the transaction. *)
Definition cursor_execute {A} (stmt : Tables -> Result (A * Tables)) : DB A := fun c =>
  let '(fault, c) := consume_fault c in
  let abort := {| tables := tables c; durable := durable c;
                  aborted := true; faults := faults c |} in
  if fault then (Raise OperationalError, abort)
  else if aborted c then (Raise InFailedSqlTransaction, c)
  else
    match stmt (tables c) with
    | Ok (a, t) =>
        (Ok a, {| tables := t; durable := durable c;
                  aborted := false; faults := faults c |})
    | Raise e => (Raise e, abort)
    end.

(** [conn.commit()]; committing an aborted transaction rolls it back. *)
Definition conn_commit : DB unit := fun c =>
  let '(fault, c) := consume_fault c in
  if fault then (Raise OperationalError, c)
  else if aborted c
  then (Ok tt, {| tables := durable c; durable := durable c;
                  aborted := false; faults := faults c |})
  else (Ok tt, {| tables := tables c; durable := tables c;
                  aborted := false; faults := faults c |}).

(** [conn.rollback()] *)
Definition conn_rollback : DB unit := fun c =>
  let '(fault, c) := consume_fault c in
  if fault then (Raise OperationalError, c)
  else (Ok tt, {| tables := durable c; durable := durable c;
                  aborted := false; faults := faults c |}).

(** [try: conn.rollback() except: pass] *)
Definition try_rollback (c : Conn) : Conn := snd (conn_rollback c).

(** The context manager [get_db_cursor], applied to the body of its
    [with] block. *)
Definition get_db_cursor {A} (body : DB A) : DB A := fun c =>
  match conn_cursor c with
  | (Raise e, c1) => (Raise e, try_rollback c1)
  | (Ok _, c1) =>
      match body c1 with
      | (Raise e, c2) => (Raise e, try_rollback c2)
      | (Ok a, c2) => (Ok a, c2)
      end
  end.

Definition set_d_ship (l : list string) (t : Tables) : Tables :=
  {| d_ship := l; d_calendar := d_calendar t; f_data := f_data t |}.

Definition set_d_calendar (l : list CalendarRow) (t : Tables) : Tables :=
  {| d_ship := d_ship t; d_calendar := l; f_data := f_data t |}.

Definition set_f_data (l : list FactRow) (t : Tables) : Tables :=
  {| d_ship := d_ship t; d_calendar := d_calendar t; f_data := l |}.

(** [SELECT ship_id FROM d_ship WHERE ship_id = %s] *)
Definition select_ship (ship_id : string) (t : Tables) : Result (list string * Tables) :=
  Ok (filter (fun s => s = ship_id) (d_ship t), t).

(** Modelled from the spec: the schema file is not part of the sources;
    [d_ship(ship_id PK)], so [INSERT INTO d_ship (ship_id) VALUES (%s)]
    fails on a key that is present. *)
Definition insert_ship (ship_id : string) (t : Tables) : Result (unit * Tables) :=
  if bool_decide (ship_id ∈ d_ship t) then Raise IntegrityError
  else Ok (tt, set_d_ship (d_ship t ++ [ship_id]) t).

Definition matches_minute (t : datetime) (r : CalendarRow) : Prop :=
  cal_year r = year t ∧ cal_month r = month t ∧ cal_day r = day t
  ∧ cal_hour r = hour t ∧ cal_minute r = minute t.

#[global] Instance matches_minute_dec t r : Decision (matches_minute t r).
Proof. unfold matches_minute. apply _. Defined.

(** [SELECT datetime_id FROM d_calendar WHERE year = %s AND month = %s AND
    day = %s AND hour = %s AND minute = %s] *)
Definition select_calendar (timestamp : datetime) (t : Tables)
  : Result (list datetime * Tables) :=
  Ok (datetime_id <$> filter (matches_minute timestamp) (d_calendar t), t).

(** Modelled from the spec: the schema file is not part of the sources;
    [d_calendar(datetime_id PK, ...)], so the INSERT fails on a key that is
    present. *)
Definition insert_calendar (row : CalendarRow) (t : Tables) : Result (unit * Tables) :=
  if bool_decide (datetime_id row ∈ datetime_id <$> d_calendar t)
  then Raise IntegrityError
  else Ok (tt, set_d_calendar (d_calendar t ++ [row]) t).

Definition fact_key (r : FactRow) : string * datetime := (f_ship_id r, f_datetime_id r).

Fixpoint insert_facts (bulk_data : list FactRow) (t : Tables) : Result Tables :=
  match bulk_data with
  | [] => Ok t
  | r :: rest =>
      if bool_decide (fact_key r ∈ fact_key <$> f_data t)
      then insert_facts rest t
      else if bool_decide (f_ship_id r ∈ d_ship t)
              && bool_decide (f_datetime_id r ∈ datetime_id <$> d_calendar t)
      then insert_facts rest (set_f_data (f_data t ++ [r]) t)
      else Raise IntegrityError
  end.

(** Modelled from the spec: the schema file is not part of the sources;
    [f_data(ship_id FK, datetime_id FK, ..., UNIQUE(ship_id, datetime_id))].
    [INSERT INTO f_data (...) VALUES %s ON CONFLICT (ship_id, datetime_id)
    DO NOTHING], sent as one statement: a row whose pair is present is
    skipped, a row whose keys miss a dimension row fails the statement. *)
Definition execute_values (bulk_data : list FactRow) (t : Tables) : Result (unit * Tables) :=
  t' ← insert_facts bulk_data t;
  Ok (tt, t').

(** ** Dimension Resolver *)

Definition get_or_create_ship_id (ship_id : string) : DB string :=
  get_db_cursor (
    result ← cursor_execute (select_ship ship_id);
    match head result with
    | Some found => mret found
    | None =>
        _ ← cursor_execute (insert_ship ship_id);
        _ ← conn_commit;
        mret ship_id
    end).

Definition new_calendar_row (timestamp : datetime) : CalendarRow :=
  let quarter := ((month timestamp - 1) / 3 + 1)%Z in
  let week_of_year := iso_week timestamp in
  let day_of_week := (weekday timestamp + 1)%Z in
  let is_weekend := (6 <=? day_of_week)%Z in
  {| datetime_id := timestamp;
     cal_date := (year timestamp, month timestamp, day timestamp);
     cal_year := year timestamp;
     cal_month := month timestamp;
     cal_day := day timestamp;
     cal_hour := hour timestamp;
     cal_minute := minute timestamp;
     quarter := quarter;
     week_of_year := week_of_year;
     day_of_week := day_of_week;
     is_weekend := is_weekend |}.

Definition get_or_create_datetime_id (timestamp : datetime) : DB datetime :=
  get_db_cursor (
    result ← cursor_execute (select_calendar timestamp);
    match head result with
    | Some found => mret found
    | None =>
        _ ← cursor_execute (insert_calendar (new_calendar_row timestamp));
        _ ← conn_commit;
        mret timestamp
    end).

(** ** Bulk Loader *)

(** [pd.to_datetime(row['datetime'])]; [Ok None] is NaT. *)
Variable to_datetime : string -> Result (option datetime).

(** The columns read by [row.get] into [bulk_record], in order. *)
Definition fact_columns : list string :=
  [ "latitude"; "longitude";
    "wind_direction"; "wind_speed"; "air_temperature";
    "tank0_liquid_volume"; "tank0_max_volume"; "tank0_percentage";
    "tank1_liquid_volume"; "tank1_max_volume"; "tank1_percentage";
    "tank2_liquid_volume"; "tank2_max_volume"; "tank2_percentage";
    "tank3_liquid_volume"; "tank3_max_volume"; "tank3_percentage";
    "tank4_liquid_volume"; "tank4_max_volume"; "tank4_percentage";
    "tank0_vapor_pressure"; "tank0_vapor_temperature";
    "tank1_vapor_pressure"; "tank1_vapor_temperature";
    "tank2_vapor_pressure"; "tank2_vapor_temperature";
    "tank3_vapor_pressure"; "tank3_vapor_temperature";
    "tank4_vapor_pressure"; "tank4_vapor_temperature" ].

(** [row.get(col)] *)
Definition row_get (row : ProcessedRow) (col : string) : option pyfloat :=
  default None (sensors row !! col).

(** The [bulk_record] tuple: the two resolved keys, the thirty numeric
    columns, the data source and the original timestamp string. *)
Definition bulk_record (row : ProcessedRow) (ship_id : string) (datetime_id : datetime)
  : FactRow :=
  {| f_ship_id := ship_id;
     f_datetime_id := datetime_id;
     f_measures := row_get row <$> fact_columns;
     f_data_source := data_source row;
     f_original_datetime := datetime_str row |}.

(** The body of the per-row [try] block of [prepare_bulk_data]; [Ok None]
    is a row skipped for an invalid timestamp. *)
Definition prepare_row (row : ProcessedRow) : DB (option FactRow) := fun c =>
  match to_datetime (datetime_str row) with
  | Raise e => (Raise e, c)
  | Ok None => (Ok None, c)
  | Ok (Some timestamp) =>
      (ship_id ← get_or_create_ship_id (id_ship row);
       datetime_id ← get_or_create_datetime_id timestamp;
       mret (Some (bulk_record row ship_id datetime_id))) c
  end.

Fixpoint prepare_bulk_loop (rows : list ProcessedRow) (bulk_data : list FactRow)
  : DB (list FactRow) := fun c =>
  match rows with
  | [] => (Ok bulk_data, c)
  | row :: rest =>
      match prepare_row row c with
      | (Ok (Some bulk_record), c') =>
          prepare_bulk_loop rest (bulk_data ++ [bulk_record]) c'
      | (Ok None, c') => prepare_bulk_loop rest bulk_data c'
      | (Raise _, c') => prepare_bulk_loop rest bulk_data c'
      end
  end.

Definition prepare_bulk_data (processed_df : list ProcessedRow) : DB (list FactRow) :=
  prepare_bulk_loop processed_df [].

Definition batch_size : nat := 1000.

(** [range(0, stop, step)] *)
Definition py_range (stop step : nat) : list nat :=
  (fun k => k * step)%nat <$> seq 0 ((stop + step - 1) / step).

(** [df.iloc[a:b]] *)
Definition iloc {A} (a b : nat) (df : list A) : list A := take (b - a) (drop a df).

(** The guarded [execute_values] inside [with get_db_cursor(conn)]: [true]
    when the statement went through, [false] when either handler ran
    [continue]. *)
Definition guarded_insert (bulk_data : list FactRow) : DB bool :=
  get_db_cursor (fun c =>
    match cursor_execute (execute_values bulk_data) c with
    | (Ok _, c') => (Ok true, c')
    | (Raise e, c') =>
        if is_IntegrityError e then (Ok false, c') else (Ok false, c')
    end).

(** One iteration of the batch loop; the counter [records_loaded] is
    threaded through and returned also when the iteration raises. *)
Definition load_batch (batch_df : list ProcessedRow) (records_loaded : nat) (c : Conn)
  : Result unit * nat * Conn :=
  match prepare_bulk_data batch_df c with
  | (Raise e, c1) => (Raise e, records_loaded, c1)
  | (Ok [], c1) => (Ok tt, records_loaded, c1)
  | (Ok bulk_data, c1) =>
      match guarded_insert bulk_data c1 with
      | (Raise e, c2) => (Raise e, records_loaded, c2)
      | (Ok false, c2) => (Ok tt, records_loaded, c2)
      | (Ok true, c2) =>
          let records_loaded := (records_loaded + length bulk_data)%nat in
          match conn_commit c2 with
          | (Raise e, c3) => (Raise e, records_loaded, c3)
          | (Ok _, c3) => (Ok tt, records_loaded, c3)
          end
      end
  end.

Fixpoint load_loop (starts : list nat) (processed_df : list ProcessedRow)
  (records_loaded : nat) (c : Conn) : Result unit * nat * Conn :=
  match starts with
  | [] => (Ok tt, records_loaded, c)
  | batch_start :: rest =>
      let batch_end := Nat.min (batch_start + batch_size) (length processed_df) in
      let batch_df := iloc batch_start batch_end processed_df in
      match load_batch batch_df records_loaded c with
      | (Ok _, records_loaded', c') => load_loop rest processed_df records_loaded' c'
      | (Raise e, records_loaded', c') => (Raise e, records_loaded', c')
      end
  end.

Definition load_data_to_postgres_bulk (processed_df : list ProcessedRow) : DB nat := fun c =>
  match processed_df with
  | [] => (Ok 0%nat, c)
  | _ =>
      match load_loop (py_range (length processed_df) batch_size) processed_df 0%nat c with
      | (Ok _, records_loaded, c') => (Ok records_loaded, c')
      | (Raise _, records_loaded, c') => (Raise (RuntimeError records_loaded), try_rollback c')
      end
  end.

Definition load_data_to_postgres (processed_df : list ProcessedRow) : DB nat :=
  load_data_to_postgres_bulk processed_df.

(** ** Pipeline Orchestrator *)

(** [get_excel_files(data_path)], by its outcome: the function globs the
    directory and checks every file on the file system, then returns the
    sorted list of paths or raises. *)
Variable get_excel_files : string -> Result (list Path).

(** One iteration of the loop over the files, with its [try] and its
    [except Exception: continue]; the state is [total_records]. *)
Definition etl_file (excel_file_path : Path) (total_records : nat) (c : Conn) : nat * Conn :=
  match process_xlsx_file excel_file_path with
  | Raise _ => (total_records, c)
  | Ok ([], _) => (total_records, c)
  | Ok (df_data, _) =>
      match load_data_to_postgres df_data c with
      | (Ok records_loaded, c') => ((total_records + records_loaded)%nat, c')
      | (Raise _, c') => (total_records, c')
      end
  end.

Fixpoint etl_loop (excel_list_path : list Path) (total_records : nat) (c : Conn)
  : nat * Conn :=
  match excel_list_path with
  | [] => (total_records, c)
  | excel_file_path :: rest =>
      let '(total_records', c') := etl_file excel_file_path total_records c in
      etl_loop rest total_records' c'
  end.

(** [etl] returns nothing; the model returns the total it logs at the end.
    The top-level handler logs and re-raises. *)
Definition etl (data_path : string) : DB nat := fun c =>
  match get_excel_files data_path with
  | Raise e => (Raise e, c)
  | Ok excel_list_path =>
      let '(total_records, c') := etl_loop excel_list_path 0%nat c in
      (Ok total_records, c')
  end.

End Model.

(** ** File discovery *)

(** The exceptions of the file system calls and of [get_excel_files], by
    class: the three subclasses of OSError the function names, any other
    OSError, ValueError, RuntimeError, and any other Exception. *)
Inductive fs_exn : Type :=
| FileNotFoundError
| NotADirectoryError
| PermissionError
| FsOSError
| FsValueError
| FsRuntimeError
| FsException.

(** The outcome of a call that may raise one of them. *)
Inductive FsResult (A : Type) : Type :=
| FsOk (a : A)
| FsRaise (e : fs_exn).

Arguments FsOk {A} a.
Arguments FsRaise {A} e.

#[global] Instance FsResult_ret : MRet FsResult := fun _ a => FsOk a.

#[global] Instance FsResult_bind : MBind FsResult := fun _ _ k r =>
  match r with
  | FsOk a => k a
  | FsRaise e => FsRaise e
  end.

(** [except (OSError, PermissionError)] *)
Definition is_OSError_class (e : fs_exn) : bool :=
  match e with
  | FileNotFoundError | NotADirectoryError | PermissionError | FsOSError => true
  | _ => false
  end.

(** [except (FileNotFoundError, NotADirectoryError, PermissionError)] *)
Definition is_path_error (e : fs_exn) : bool :=
  match e with
  | FileNotFoundError | NotADirectoryError | PermissionError => true
  | _ => false
  end.

#[global] Instance Path_eq_dec : EqDecision Path.
Proof. solve_decision. Defined.

(** The order [sorted] puts the paths in. pathlib compares paths part by
    part; the paths of one listing are children of one directory, and
    between those that is the order of their names, character by
    character. *)
Definition path_le (p q : Path) : Prop := String.leb (name p) (name q) = true.

#[global] Instance path_le_dec : RelDecision path_le.
Proof. intros p q. unfold path_le. apply _. Defined.

Definition DEFAULT_EXCEL_EXTENSIONS : list string := [".xlsx"; ".xls"].

Section DiscoveryModel.

(** [Path(folder_path).resolve()], as the text of the absolute path *)
Variable resolve : string -> FsResult string.
(** [search_path.exists()] *)
Variable path_exists : string -> FsResult bool.
(** [search_path.is_dir()] *)
Variable path_is_dir : string -> FsResult bool.
(** [search_path.stat().st_size], read for the message of
    NotADirectoryError *)
Variable dir_st_size : string -> FsResult Z.
(** [os.access(search_path, os.R_OK)] *)
Variable os_access : string -> FsResult bool.
(** The names of the entries of the directory that match the pattern:
    [search_path.glob(pattern)] yields [search_path / name] for each. *)
Variable glob_names : string -> string -> FsResult (list string).
(** [file_path.is_file()] *)
Variable is_file : Path -> FsResult bool.
(** [file_path.stat().st_size] *)
Variable st_size : Path -> FsResult Z.

(** [search_path / file_name] *)
Definition child (search_path file_name : string) : Path :=
  {| parent := search_path; name := file_name |}.

(** [list(search_path.glob(pattern))] *)
Definition glob (search_path pattern : string) : FsResult (list Path) :=
  match glob_names search_path pattern with
  | FsOk names => FsOk (child search_path <$> names)
  | FsRaise e => FsRaise e
  end.

(** The loop over [file_extensions]; the state is [excel_files]. *)
Fixpoint glob_loop (search_path : string) (file_extensions : list string)
  (excel_files : list Path) : FsResult (list Path) :=
  match file_extensions with
  | [] => FsOk excel_files
  | extension :: rest =>
      let pattern := "*" +:+ extension in
      match glob search_path pattern with
      | FsOk matching_files => glob_loop search_path rest (excel_files ++ matching_files)
      | FsRaise e => FsRaise e
      end
  end.

(** [sorted(list(set(excel_files)))] *)
Definition sorted_set (excel_files : list Path) : list Path :=
  merge_sort path_le (remove_dups excel_files).

(** The condition of the per-file [try] block:
    [file_path.is_file() and file_path.stat().st_size > 0]. *)
Definition file_is_valid (file_path : Path) : FsResult bool :=
  regular ← is_file file_path;
  if regular : bool then
    size ← st_size file_path;
    FsOk (0 <? size)%Z
  else FsOk false.

(** The loop over the sorted files with its [except (OSError,
    PermissionError): continue]; the state is [valid_files]. *)
Fixpoint valid_files_loop (excel_files valid_files : list Path) : FsResult (list Path) :=
  match excel_files with
  | [] => FsOk valid_files
  | file_path :: rest =>
      match file_is_valid file_path with
      | FsOk true => valid_files_loop rest (valid_files ++ [file_path])
      | FsOk false => valid_files_loop rest valid_files
      | FsRaise e =>
          if is_OSError_class e then valid_files_loop rest valid_files else FsRaise e
      end
  end.

(** The body of the outer [try] block. *)
Definition scan_directory (search_path : string) (file_extensions : list string)
  : FsResult (list Path) :=
  found ← path_exists search_path;
  if negb found then FsRaise FileNotFoundError
  else
    directory ← path_is_dir search_path;
    if negb directory then
      _ ← dir_st_size search_path;
      FsRaise NotADirectoryError
    else
      readable ← os_access search_path;
      if negb readable then FsRaise PermissionError
      else
        match glob_loop search_path file_extensions [] with
        | FsOk excel_files => valid_files_loop (sorted_set excel_files) []
        | FsRaise e => FsRaise e
        end.

(** [file_extensions] is [None] for the default argument. The check of
    the extensions and [resolve] run before the [try]. *)
Definition get_excel_files (folder_path : string) (file_extensions : option (list string))
  : FsResult (list Path) :=
  let file_extensions := default DEFAULT_EXCEL_EXTENSIONS file_extensions in
  match file_extensions with
  | [] => FsRaise FsValueError
  | _ =>
      search_path ← resolve folder_path;
      match scan_directory search_path file_extensions with
      | FsOk excel_files => FsOk excel_files
      | FsRaise e => if is_path_error e then FsRaise e else FsRaise FsRuntimeError
      end
  end.

End DiscoveryModel.

(** * Specification vocabulary *)

(** ** Field Validator *)

(** A rule's bound lies on the decimal grid of the rule's precision. *)
Definition on_grid (q : Q) (ndigits : Z) : bool :=
  let scaled := (q * inject_Z (Zpos (pow10 ndigits)))%Q in
  Qeq_bool scaled (inject_Z (Qfloor scaled)).

Definition rule_on_grid (rule : Rule) : bool :=
  let '(_, (_, min_val, max_val, precision)) := rule in
  (0 <=? precision)%Z && on_grid min_val precision && on_grid max_val precision.

(** The raw field names of the rule table: its keys. *)
Definition source_keys : list string := validation_rules.*1.

(** The canonical field names of the rule table. *)
Definition target_fields : list string :=
  (fun rule : Rule => fst (fst (fst (snd rule)))) <$> validation_rules.

(** Every entry of a validated mapping is backed by a rule of [rules]: the
    raw mapping holds an in-range number under the entry's key, and the
    entry is that number rounded to the rule's precision. *)
Definition entry_justified (float_of_str : string -> option pyfloat)
  (d : PyObj) (rules : list Rule) (m : gmap string pyfloat) : Prop :=
  forall k v, m !! k = Some v ->
    exists tgt lo hi p raw x,
      (k, (tgt, lo, hi, p)) ∈ rules
      /\ py_getitem k d = Ok raw /\ py_float float_of_str raw = Ok (FFin x)
      /\ (lo <= x)%Q /\ (x <= hi)%Q
      /\ v = FFin (py_round_Q x p).

(** No integer of the raw mapping is too large for [float()]. *)
Definition no_huge_int (d : gmap string PyVal) : Prop :=
  forall k z, d !! k = Some (VInt z) -> (Z.abs z < float_overflow_bound)%Z.

(** ** Record Parser *)

(** The decoding steps of [parse_data_column] that can fail before the
    validator runs: the literal parser raises, or the argument is neither a
    str nor a dict. *)
Definition decoding_fails (literal_eval : string -> Result PyObj) (data_str : DataArg) : Prop :=
  match data_str with
  | AStr s =>
      exists e, literal_eval (replace_doubled_quotes (strip_chars is_quote s)) = Raise e
  | ADict _ => False
  | AOtherType => True
  end.

(** ** Storage states *)

(** A connection with no open work, no pending fault and the tables [t]. *)
Definition conn_of (t : Tables) : Conn :=
  {| tables := t; durable := t; aborted := false; faults := [] |}.

(** The connection is reliable and has nothing uncommitted. *)
Definition healthy (c : Conn) : Prop :=
  faults c = [] /\ aborted c = false /\ durable c = tables c.

(** A calendar row whose minute columns are those of its key: what
    [get_or_create_datetime_id] inserts. *)
Definition row_consistent (r : CalendarRow) : Prop := matches_minute (datetime_id r) r.

Definition calendar_consistent (t : Tables) : Prop := Forall row_consistent (d_calendar t).

Definition empty_tables : Tables := {| d_ship := []; d_calendar := []; f_data := [] |}.

(** What a reliable [get_or_create_ship_id] leaves in the tables. *)
Definition resolve_ship (ship_id : string) (t : Tables) : Tables :=
  if bool_decide (ship_id ∈ d_ship t) then t
  else set_d_ship (d_ship t ++ [ship_id]) t.

(** The key of the first calendar row of the timestamp's minute. *)
Definition find_calendar (timestamp : datetime) (t : Tables) : option datetime :=
  datetime_id <$> head (filter (matches_minute timestamp) (d_calendar t)).

(** What a reliable [get_or_create_datetime_id] leaves in the tables. *)
Definition resolve_calendar (timestamp : datetime) (t : Tables) : Tables :=
  match find_calendar timestamp t with
  | Some _ => t
  | None => set_d_calendar (d_calendar t ++ [new_calendar_row timestamp]) t
  end.

(** ** Loads *)

(** [t'] holds every row of [t], in place, and possibly more after them. *)
Definition tables_extend (t t' : Tables) : Prop :=
  d_ship t `prefix_of` d_ship t'
  /\ d_calendar t `prefix_of` d_calendar t'
  /\ f_data t `prefix_of` f_data t'.

(** The row's timestamp parses to a proper time. *)
Definition valid_timestamp (to_datetime : string -> Result (option datetime))
  (row : ProcessedRow) : bool :=
  match to_datetime (datetime_str row) with
  | Ok (Some _) => true
  | _ => false
  end.

(** The (ship key, calendar key) pair the dimensions of [t] already hold
    for the row. *)
Definition row_keys (to_datetime : string -> Result (option datetime))
  (t : Tables) (row : ProcessedRow) : option (string * datetime) :=
  match to_datetime (datetime_str row) with
  | Ok (Some timestamp) =>
      if bool_decide (id_ship row ∈ d_ship t)
      then (fun k => (id_ship row, k)) <$> find_calendar timestamp t
      else None
  | _ => None
  end.

(** The row needs nothing more from a load: its timestamp is invalid, or
    its dimension rows exist and the fact table holds a row for its pair. *)
Definition row_loaded (to_datetime : string -> Result (option datetime))
  (t : Tables) (row : ProcessedRow) : Prop :=
  valid_timestamp to_datetime row = true ->
  exists k, row_keys to_datetime t row = Some k /\ k ∈ fact_key <$> f_data t.

(** The slice of the DataFrame the batch loop takes at [batch_start]. *)
Definition batch_at {A} (batch_start : nat) (processed_df : list A) : list A :=
  iloc batch_start (Nat.min (batch_start + batch_size) (length processed_df)) processed_df.

(** Both foreign keys of the record point at existing dimension rows. *)
Definition keys_exist (t : Tables) (r : FactRow) : Prop :=
  f_ship_id r ∈ d_ship t /\ f_datetime_id r ∈ datetime_id <$> d_calendar t.

(** The number of rows with a valid timestamp. *)
Definition valid_rows (to_datetime : string -> Result (option datetime))
  (rows : list ProcessedRow) : nat :=
  length (filter (fun row => valid_timestamp to_datetime row = true) rows).

(** The records a healthy load submits: the valid rows of every batch. *)
Definition submitted (to_datetime : string -> Result (option datetime))
  (starts : list nat) (processed_df : list ProcessedRow) : nat :=
  sum_list ((fun batch_start => valid_rows to_datetime (batch_at batch_start processed_df))
              <$> starts).

(** ** Rows of a sheet *)

(** The record the per-row block appends for the row, if any. *)
Definition kept_row (float_of_str : string -> option pyfloat)
  (literal_eval : string -> Result PyObj) (path : Path) (row : gmap string Cell)
  : option ProcessedRow :=
  match process_row float_of_str literal_eval path row with
  | Ok (Some r) => Some r
  | _ => None
  end.

(** The row is counted as a validation error. *)
Definition row_rejected (float_of_str : string -> option pyfloat)
  (literal_eval : string -> Result PyObj) (path : Path) (row : gmap string Cell) : bool :=
  match process_row float_of_str literal_eval path row with
  | Ok None => true
  | _ => false
  end.

(** The row is counted as a processing error. *)
Definition row_errored (float_of_str : string -> option pyfloat)
  (literal_eval : string -> Result PyObj) (path : Path) (row : gmap string Cell) : bool :=
  match process_row float_of_str literal_eval path row with
  | Raise _ => true
  | _ => false
  end.



(** The number of elements of [l] on which [f] is true. *)
Definition count_true {A} (f : A -> bool) (l : list A) : nat :=
  length (filter (fun a => f a = true) l).

(** ** Connections under faults *)

(** The open transaction holds every committed row, in place. *)
Definition transaction_extends (c : Conn) : Prop := tables_extend (durable c) (tables c).

(** From [c] to [c'] every committed row was kept, in place, and the open
    transaction of [c'] still holds the committed rows. *)
Definition keeps_committed (c c' : Conn) : Prop :=
  transaction_extends c ->
  transaction_extends c' /\ tables_extend (durable c) (durable c').

(** An action on the connection that keeps the committed rows, whatever it
    returns. *)
Definition keeps_rows {A} (m : DB A) : Prop := forall c, keeps_committed c (snd (m c)).

(** A statement that only appends rows. *)
Definition appends {A} (stmt : Tables -> Result (A * Tables)) : Prop :=
  forall t a t', stmt t = Ok (a, t') -> tables_extend t t'.

(** The record is built from the row: the row's ship identifier, some
    calendar key, and the row's columns. *)
Definition record_of (r : FactRow) (row : ProcessedRow) : Prop :=
  exists datetime_id, r = bulk_record row (id_ship row) datetime_id.

(** ** Files of a run *)

(** The records the orchestrator gets for a file; none when processing
    the file raises. *)
Definition file_records (float_of_str : string -> option pyfloat)
  (literal_eval : string -> Result PyObj) (stat_size : Path -> Result Z)
  (read_excel : Path -> Result (list (gmap string Cell))) (path : Path)
  : list ProcessedRow :=
  match process_xlsx_file float_of_str literal_eval stat_size read_excel path with
  | Ok (df_data, _) => df_data
  | Raise _ => []
  end.

(** The file gives no record: its size or its sheet cannot be read, or
    none of its rows is accepted. *)
Definition no_record (float_of_str : string -> option pyfloat)
  (literal_eval : string -> Result PyObj) (stat_size : Path -> Result Z)
  (read_excel : Path -> Result (list (gmap string Cell))) (path : Path) : Prop :=
  match stat_size path, read_excel path with
  | Ok _, Ok df => Forall (fun row => kept_row float_of_str literal_eval path row = None) df
  | _, _ => True
  end.

(** ** Reliable connections *)

(** No call on the connection fails by itself; the transaction may be in
    any state. *)
Definition reliable (c : Conn) : Prop := faults c = [].

(** An action that leaves a reliable connection reliable. *)
Definition stays_reliable {A} (m : DB A) : Prop :=
  forall c, reliable c -> reliable (snd (m c)).

(** ** Listings *)

(** The path is a child of [search_path] whose name one of the patterns
    matched. *)
Definition globbed (glob_names : string -> string -> FsResult (list string))
  (search_path : string) (file_extensions : list string) (p : Path) : Prop :=
  parent p = search_path
  /\ exists extension names,
       extension ∈ file_extensions
       /\ glob_names search_path ("*" +:+ extension) = FsOk names
       /\ name p ∈ names.

(** A regular file that is not empty. *)
Definition usable_file (is_file : Path -> FsResult bool) (st_size : Path -> FsResult Z)
  (p : Path) : Prop :=
  is_file p = FsOk true /\ exists size, st_size p = FsOk size /\ (0 < size)%Z.

(** The exception comes from a check of the directory or from a glob
    call. *)
Definition directory_error (path_exists path_is_dir : string -> FsResult bool)
  (dir_st_size : string -> FsResult Z) (os_access : string -> FsResult bool)
  (glob_names : string -> string -> FsResult (list string))
  (search_path : string) (file_extensions : list string) (e : fs_exn) : Prop :=
  path_exists search_path = FsRaise e
  \/ (path_exists search_path = FsOk false /\ e = FileNotFoundError)
  \/ path_is_dir search_path = FsRaise e
  \/ (path_is_dir search_path = FsOk false
      /\ (dir_st_size search_path = FsRaise e \/ e = NotADirectoryError))
  \/ os_access search_path = FsRaise e
  \/ (os_access search_path = FsOk false /\ e = PermissionError)
  \/ exists extension,
       extension ∈ file_extensions
       /\ glob_names search_path ("*" +:+ extension) = FsRaise e.

(** * Sample inputs *)

(** ** Library functions, on the few strings the samples use *)

Definition sample_float_of_str (s : string) : option pyfloat :=
  if String.eqb s "12.5" then Some (FFin (25 # 2)) else None.

Definition sample_data_text : string :=
  "{'LAT': 45.123456789, 'LON': 195.2, 'WINSPE': '12.5', 'WINDIR': 'n/a'}".

(** The record [sample_data_text] decodes to. *)
Definition sample_record : gmap string PyVal :=
  {[ "LAT" := VFloat (FFin (45123456789 # 1000000000));
     "LON" := VFloat (FFin (1952 # 10));
     "WINSPE" := VStr "12.5";
     "WINDIR" := VStr "n/a" ]}.

Definition sample_literal_eval (s : string) : Result PyObj :=
  if String.eqb s sample_data_text then Ok (ODict sample_record)
  else if String.eqb s "7" then Ok OAtom
  else Raise SyntaxError.

Definition sample_timestamp : datetime :=
  {| year := 2022; month := 1; day := 1; hour := 10; minute := 30;
     second := 45; microsecond := 0 |}.

(** Fourteen seconds later, in the same minute. *)
Definition sample_timestamp_later : datetime :=
  {| year := 2022; month := 1; day := 1; hour := 10; minute := 30;
     second := 59; microsecond := 0 |}.

Definition sample_to_datetime (s : string) : Result (option datetime) :=
  if String.eqb s "2022-01-01 10:30:45" then Ok (Some sample_timestamp)
  else if String.eqb s "2022-01-01 10:30:59" then Ok (Some sample_timestamp_later)
  else if String.eqb s "NaT" then Ok None
  else Raise ValueError.

(** ** A validated record *)

(** What the validator keeps of [sample_record]: the latitude rounded to
    six places and the wind speed; the longitude is out of range and the
    wind direction is no number. *)
Definition sample_validated : gmap string pyfloat :=
  {[ "LAT" := FFin (45123457 # 1000000); "WINSPE" := FFin (1250 # 100) ]}.

(** ** Two sheets *)

Definition sample_path : Path := {| parent := "/data"; name := "ships.xlsx" |}.

Definition sample_row_ok : gmap string Cell :=
  {[ "id_ship" := CVal " SHIP-1 ";
     "datetime" := CVal "2022-01-01 10:30:45";
     "datetime_created" := CVal "2022-01-02 00:00:00";
     "data" := CVal sample_data_text ]}.

(** The ship identifier is blank. *)
Definition sample_row_blank : gmap string Cell :=
  <["id_ship" := CVal "   "]> sample_row_ok.

(** The embedded record does not parse. *)
Definition sample_row_malformed : gmap string Cell :=
  <["data" := CVal "{'LAT': "]> sample_row_ok.

(** The sheet has no [datetime_created] column. *)
Definition sample_row_no_created : gmap string Cell :=
  delete "datetime_created" sample_row_ok.

Definition sample_sheet : list (gmap string Cell) :=
  [sample_row_ok; sample_row_blank; sample_row_no_created; sample_row_malformed; sample_row_ok].

(** A second sheet, with one row for another ship. *)
Definition sample_path_more : Path := {| parent := "/data"; name := "more.xlsx" |}.

Definition sample_row_other_ship : gmap string Cell :=
  <["id_ship" := CVal "SHIP-2"]> sample_row_ok.

Definition sample_stat_size (p : Path) : Result Z := Ok 4096%Z.

Definition sample_read_excel (p : Path) : Result (list (gmap string Cell)) :=
  if String.eqb (name p) "ships.xlsx" then Ok sample_sheet
  else if String.eqb (name p) "more.xlsx" then Ok [sample_row_other_ship]
  else Raise OSError.

Definition sample_get_excel_files (data_path : string) : Result (list Path) :=
  if String.eqb data_path "/data" then Ok [sample_path; sample_path_more]
  else Raise OSError.

(** The DataFrame the File Processor returns for [sample_sheet]: its first
    and its last row. *)
Definition sample_processed_row : ProcessedRow :=
  processed_row "SHIP-1" "2022-01-01 10:30:45" (Some "2022-01-02 00:00:00")
    sample_validated sample_path.

Definition sample_processed : list ProcessedRow :=
  [sample_processed_row; sample_processed_row].

(** ** A batch and a connection *)

(** Three records of one ship: two in the same minute, one with a
    timestamp that does not parse. *)
Definition sample_df : list ProcessedRow :=
  [ processed_row "SHIP-1" "2022-01-01 10:30:45" None sample_validated sample_path;
    processed_row "SHIP-1" "2022-01-01 10:30:59" None ∅ sample_path;
    processed_row "SHIP-1" "yesterday" None sample_validated sample_path ].

(** A connection on empty tables whose fifteenth call fails: with the two
    rows of [sample_processed] that call is the loader's commit. *)
Definition sample_faulty_conn : Conn :=
  {| tables := empty_tables; durable := empty_tables; aborted := false;
     faults := replicate 14 false ++ [true] |}.

(** ** A record with an integer of four hundred digits *)

Definition sample_record_huge : gmap string PyVal :=
  <["WINDIR" := VInt (10 ^ 400)]> sample_record.

Definition sample_literal_eval_huge (s : string) : Result PyObj :=
  if String.eqb s "huge" then Ok (ODict sample_record_huge) else sample_literal_eval s.

(** ** A file that cannot be read *)

Definition sample_path_absent : Path := {| parent := "/data"; name := "absent.xlsx" |}.

(** ** A directory *)

Definition sample_resolve (folder_path : string) : FsResult string := FsOk folder_path.

Definition sample_path_exists (p : string) : FsResult bool :=
  FsOk (String.eqb p "/data" || String.eqb p "/data/readme.txt").

Definition sample_path_is_dir (p : string) : FsResult bool := FsOk (String.eqb p "/data").

Definition sample_dir_st_size (p : string) : FsResult Z := FsOk 120%Z.

Definition sample_os_access (p : string) : FsResult bool := FsOk true.

Definition sample_glob_names (search_path pattern : string) : FsResult (list string) :=
  if String.eqb pattern "*.xlsx" then FsOk ["ships.xlsx"; "more.xlsx"; "empty.xlsx"]
  else if String.eqb pattern "*.xls" then FsOk ["old.xls"; "locked.xls"; "folder.xls"]
  else FsOk [].

Definition sample_is_file (p : Path) : FsResult bool :=
  FsOk (negb (String.eqb (name p) "folder.xls")).

Definition sample_st_size (p : Path) : FsResult Z :=
  if String.eqb (name p) "empty.xlsx" then FsOk 0%Z
  else if String.eqb (name p) "locked.xls" then FsRaise PermissionError
  else FsOk 4096%Z.

(** What the listing of the sample directory returns: the empty file, the
    file that cannot be read and the directory are left out. *)
Definition sample_discovered : list Path :=
  [ {| parent := "/data"; name := "more.xlsx" |};
    {| parent := "/data"; name := "old.xls" |};
    {| parent := "/data"; name := "ships.xlsx" |} ].

(** ** A connection left in an aborted transaction *)

Definition sample_aborted_conn : Conn :=
  {| tables := empty_tables; durable := empty_tables; aborted := true; faults := [] |}.

(** A connection whose second call fails: for a bulk insert that is the
    statement, after the cursor was opened. *)
Definition sample_failing_insert_conn : Conn :=
  {| tables := empty_tables; durable := empty_tables; aborted := false;
     faults := [false; true] |}.

(** * Properties *)

(** ** Rounding *)

Lemma round_half_even_floor (y : Q) :
  (Qfloor y <= round_half_even y <= Qfloor y + 1)%Z.
Proof.
  unfold round_half_even.
  destruct (y - inject_Z (Qfloor y) ?= 1 # 2)%Q; [destruct (Z.even _) | |]; lia.
Qed.

Lemma round_half_even_mono (x y : Q) :
  (x <= y)%Q -> (round_half_even x <= round_half_even y)%Z.
Proof.
  intros Hxy.
  pose proof (Qfloor_resp_le _ _ Hxy) as Hf.
  pose proof (round_half_even_floor x) as Hx.
  pose proof (round_half_even_floor y) as Hy.
  destruct (Z.eq_dec (Qfloor x) (Qfloor y)) as [Heq | Hne]; [| lia].
  unfold round_half_even in *. rewrite <- Heq in *.
  destruct (y - inject_Z (Qfloor x) ?= 1 # 2)%Q eqn:Cy;
    destruct (x - inject_Z (Qfloor x) ?= 1 # 2)%Q eqn:Cx;
    try (destruct (Z.even (Qfloor x)); lia); try lia; exfalso;
    clear Hx Hy Hf Heq; revert Cx Cy; generalize (inject_Z (Qfloor x)); intros f Cx Cy.
  - apply Qeq_alt in Cy. apply Qgt_alt in Cx. lra.
  - apply Qlt_alt in Cy. apply Qeq_alt in Cx. lra.
  - apply Qlt_alt in Cy. apply Qgt_alt in Cx. lra.
Qed.

Lemma round_half_even_inject (z : Z) : round_half_even (inject_Z z) = z.
Proof.
  unfold round_half_even. rewrite Qfloor_Z.
  assert (H : (inject_Z z - inject_Z z ?= 1 # 2)%Q = Lt).
  { apply -> Qlt_alt. generalize (inject_Z z). intros q. lra. }
  now rewrite H.
Qed.

Lemma round_half_even_on_integer (q : Q) (z : Z) :
  (q == inject_Z z)%Q -> round_half_even q = z.
Proof.
  intros H.
  assert (A : (q <= inject_Z z)%Q) by (rewrite H; apply Qle_refl).
  assert (B : (inject_Z z <= q)%Q) by (rewrite H; apply Qle_refl).
  apply round_half_even_mono in A, B.
  rewrite round_half_even_inject in A, B. lia.
Qed.

Lemma on_grid_integer (q : Q) (p : Z) :
  on_grid q p = true ->
  round_half_even (q * inject_Z (Zpos (pow10 p))) = Qfloor (q * inject_Z (Zpos (pow10 p))).
Proof.
  unfold on_grid. intros H. apply Qeq_bool_iff in H.
  now apply round_half_even_on_integer.
Qed.

Lemma Qmake_scaled (n : Z) (d : positive) (q : Q) :
  (q * inject_Z (Zpos d) == inject_Z n)%Q -> (Qmake n d == q)%Q.
Proof.
  intros H. rewrite Qmake_Qdiv.
  assert (Hd : ~ (inject_Z (Zpos d) == 0)%Q).
  { unfold Qeq, inject_Z. simpl. lia. }
  rewrite <- H. field. exact Hd.
Qed.

Lemma Qmake_le (n m : Z) (d : positive) : (n <= m)%Z -> (Qmake n d <= Qmake m d)%Q.
Proof. intros H. unfold Qle. cbn [Qnum Qden]. nia. Qed.

(** Rounding to a non-negative number of digits is monotone and fixes the
    points of the grid, so it keeps a value between two grid points. *)
Lemma py_round_Q_between (lo hi x : Q) (p : Z) :
  (0 <= p)%Z -> on_grid lo p = true -> on_grid hi p = true ->
  (lo <= x)%Q -> (x <= hi)%Q ->
  (lo <= py_round_Q x p)%Q /\ (py_round_Q x p <= hi)%Q.
Proof.
  intros Hp Hlo Hhi Hlx Hxh.
  unfold py_round_Q. apply Z.leb_le in Hp. rewrite Hp.
  set (s := inject_Z (Zpos (pow10 p))).
  assert (Hs : (0 < s)%Q) by (unfold s, Qlt, inject_Z; simpl; lia).
  pose proof (on_grid_integer _ _ Hlo) as Rlo.
  pose proof (on_grid_integer _ _ Hhi) as Rhi.
  unfold on_grid in Hlo, Hhi. apply Qeq_bool_iff in Hlo, Hhi. fold s in Hlo, Hhi, Rlo, Rhi.
  assert (M1 : (lo * s <= x * s)%Q) by (apply Qmult_le_compat_r; lra).
  assert (M2 : (x * s <= hi * s)%Q) by (apply Qmult_le_compat_r; lra).
  apply round_half_even_mono in M1, M2. rewrite Rlo in M1. rewrite Rhi in M2.
  pose proof (Qmake_scaled _ (pow10 p) lo Hlo) as Elo.
  pose proof (Qmake_scaled _ (pow10 p) hi Hhi) as Ehi.
  split.
  - rewrite <- Elo. now apply Qmake_le.
  - rewrite <- Ehi. now apply Qmake_le.
Qed.

(** The rounding mode: ties go to the even neighbour, at every precision. *)
Example py_round_Q_half_even :
  py_round_Q (45123456789 # 1000000000) 6 = 45123457 # 1000000
  /\ py_round_Q (5 # 2) 0 = 2 # 1
  /\ py_round_Q (7 # 2) 0 = 4 # 1
  /\ py_round_Q (-(5) # 2) 0 = -(2) # 1
  /\ py_round_Q (12345 # 1000) 2 = 1234 # 100
  /\ py_round_Q (12355 # 1000) 2 = 1236 # 100
  /\ py_round_Q 1250 (-2) = 1200 # 1.
Proof. vm_compute. repeat split; reflexivity. Qed.

Lemma validation_rules_on_grid : forallb rule_on_grid validation_rules = true.
Proof. vm_compute. reflexivity. Qed.

Lemma NoDup_source_keys : NoDup source_keys.
Proof. apply (bool_decide_unpack (NoDup source_keys)). vm_compute. exact I. Qed.

Lemma rule_unique (k : string) (r1 r2 : string * Q * Q * Z) :
  (k, r1) ∈ validation_rules -> (k, r2) ∈ validation_rules -> r1 = r2.
Proof.
  intros H1 H2.
  apply (elem_of_list_to_map_1 (M := gmap string) _ _ _ NoDup_source_keys) in H1, H2.
  congruence.
Qed.

(** ** Field Validator *)

Section ValidatorProperties.

Variable float_of_str : string -> option pyfloat.

(** What one iteration can do to [validated_data]: nothing, or store the
    rounded value of an in-range number under the rule's source key. *)
Lemma validate_rule_step (d : PyObj) (st st' : ValidatorState)
  (k tgt : string) (lo hi : Q) (p : Z) :
  validate_rule float_of_str d st (k, (tgt, lo, hi, p)) = Ok st' ->
  fst st' = fst st
  \/ exists raw x,
       py_getitem k d = Ok raw /\ py_float float_of_str raw = Ok (FFin x)
       /\ (lo <= x)%Q /\ (x <= hi)%Q
       /\ fst st' = <[k := FFin (py_round_Q x p)]> (fst st).
Proof.
  unfold validate_rule, validate_try. destruct st as [m n]. cbn [fst snd mbind Result_bind].
  destruct (py_contains k d) as [[|]|] eqn:Hc; [| intros [= <-]; now left | discriminate].
  destruct (py_getitem k d) as [raw|e] eqn:Hg; cbn.
  2: { destruct (is_ValueError e || is_TypeError e); [intros [= <-]; now left | discriminate]. }
  destruct (is_none_or_nan raw); [intros [= <-]; now left |].
  destruct (py_float float_of_str raw) as [x|e] eqn:Hf; cbn.
  2: { destruct (is_ValueError e || is_TypeError e); [intros [= <-]; now left | discriminate]. }
  destruct (in_range lo hi x) eqn:Hr; cbn; intros [= <-]; [| now left].
  right. destruct x as [| |q]; try discriminate. cbn in Hr.
  apply andb_true_iff in Hr as [H1 H2]. apply Qle_bool_iff in H1, H2.
  exists raw, q. cbn. auto.
Qed.

Lemma validate_loop_justified (d : PyObj) (all rules : list Rule) (st st' : ValidatorState) :
  (forall r, r ∈ rules -> r ∈ all) ->
  entry_justified float_of_str d all (fst st) ->
  validate_loop float_of_str d rules st = Ok st' ->
  entry_justified float_of_str d all (fst st').
Proof.
  revert st. induction rules as [| [k [[[tgt lo] hi] p]] rest IH]; intros st Hsub Hinv.
  - cbn. now intros [= <-].
  - cbn [validate_loop mbind Result_bind].
    destruct (validate_rule float_of_str d st (k, (tgt, lo, hi, p))) as [st1|] eqn:Hstep; [| discriminate].
    intros Hloop. apply (IH st1); [intros r Hr; apply Hsub; now right | | exact Hloop].
    apply validate_rule_step in Hstep as [-> | (raw & x & Hg & Hf & Hlo & Hhi & ->)]; [exact Hinv |].
    intros k' v Hk'. destruct (decide (k = k')) as [<- | Hne].
    + rewrite lookup_insert_eq in Hk'. injection Hk' as <-.
      exists tgt, lo, hi, p, raw, x. repeat split; auto. apply Hsub. now left.
    + rewrite lookup_insert_ne in Hk' by exact Hne. now apply Hinv.
Qed.

(** Every entry of the validated mapping comes from a rule of the table
    whose source key is the entry's key, and is the rounded in-range number
    found under that key. *)
Lemma validate_sensor_data_justified (d : PyObj) (m : gmap string pyfloat) :
  validate_sensor_data float_of_str d = Ok m -> entry_justified float_of_str d validation_rules m.
Proof.
  unfold validate_sensor_data. cbn [mbind Result_bind].
  destruct (validate_loop float_of_str d validation_rules (∅, 0%nat)) as [st|] eqn:Hloop; [| discriminate].
  intros [= <-]. eapply validate_loop_justified; [| | exact Hloop]; [auto |].
  intros k v Hk. cbn in Hk. now rewrite lookup_empty in Hk.
Qed.

Lemma validate_rule_returns (d : gmap string PyVal) (st : ValidatorState) (rule : Rule) :
  no_huge_int d ->
  exists st', validate_rule float_of_str (ODict d) st rule = Ok st'.
Proof.
  intros Hd. destruct rule as [k [[[tgt lo] hi] p]]. destruct st as [m n].
  unfold validate_rule, validate_try. cbn [fst snd mbind Result_bind py_contains py_getitem].
  destruct (d !! k) as [raw |] eqn:Hk.
  2: { rewrite bool_decide_eq_false_2 by (intros [? ?]; discriminate). eauto. }
  rewrite bool_decide_eq_true_2 by eauto. cbn [mbind Result_bind].
  destruct raw as [| b | z | f | s |]; cbn [is_none_or_nan py_float].
  - eauto.
  - cbn. repeat case_match; simplify_eq; eauto.
  - specialize (Hd k z Hk). apply Z.leb_gt in Hd. rewrite Hd.
    cbn. repeat case_match; simplify_eq; eauto.
  - destruct f; cbn; repeat case_match; simplify_eq; eauto.
  - destruct (float_of_str s) as [f |]; cbn; repeat case_match; simplify_eq; eauto.
  - cbn. eauto.
Qed.

(** On a dict without such integers the validator returns a mapping: the
    only exception that can leave it is the [OverflowError] of [float()]. *)
Lemma validate_sensor_data_returns (d : gmap string PyVal) :
  no_huge_int d ->
  exists m, validate_sensor_data float_of_str (ODict d) = Ok m.
Proof.
  intros Hd. unfold validate_sensor_data.
  assert (H : forall rules st, exists st',
             validate_loop float_of_str (ODict d) rules st = Ok st').
  { induction rules as [| rule rest IH]; intros st; [cbn; eauto |].
    cbn [validate_loop]. destruct (validate_rule_returns d st rule Hd) as [st1 ->].
    apply IH. }
  destruct (H validation_rules (∅, 0%nat)) as [st' ->]. cbn. eauto.
Qed.

Lemma rule_in_table_on_grid (k tgt : string) (lo hi : Q) (p : Z) :
  (k, (tgt, lo, hi, p)) ∈ validation_rules ->
  (0 <= p)%Z /\ on_grid lo p = true /\ on_grid hi p = true.
Proof.
  intros Hin. pose proof validation_rules_on_grid as H.
  rewrite forallb_forall in H. apply list_elem_of_In in Hin. apply H in Hin.
  unfold rule_on_grid in Hin. apply andb_true_iff in Hin as [Hin H3].
  apply andb_true_iff in Hin as [H1 H2]. apply Z.leb_le in H1. auto.
Qed.

(** C1. Every value present in the validated mapping is the number found
    under its key in the raw mapping, rounded to the declared precision of
    the key's rule, and both the number and its rounding lie in the rule's
    inclusive [min, max] interval. *)
Theorem validated_values_in_range_and_rounded
  (d : PyObj) (m : gmap string pyfloat) (k : string) (v : pyfloat) :
  validate_sensor_data float_of_str d = Ok m ->
  m !! k = Some v ->
  exists tgt lo hi p raw x,
    (k, (tgt, lo, hi, p)) ∈ validation_rules
    /\ py_getitem k d = Ok raw /\ py_float float_of_str raw = Ok (FFin x)
    /\ v = FFin (py_round_Q x p)
    /\ (lo <= x)%Q /\ (x <= hi)%Q
    /\ (lo <= py_round_Q x p)%Q /\ (py_round_Q x p <= hi)%Q.
Proof.
  intros Hv Hk.
  destruct (validate_sensor_data_justified d m Hv k v Hk)
    as (tgt & lo & hi & p & raw & x & Hin & Hg & Hf & Hlo & Hhi & ->).
  exists tgt, lo, hi, p, raw, x.
  destruct (rule_in_table_on_grid _ _ _ _ _ Hin) as (Hp & Glo & Ghi).
  destruct (py_round_Q_between lo hi x p Hp Glo Ghi Hlo Hhi) as [R1 R2].
  repeat split; auto.
Qed.

Lemma target_not_source (k tgt : string) (lo hi : Q) (p : Z) :
  (k, (tgt, lo, hi, p)) ∈ validation_rules -> tgt ∉ source_keys.
Proof.
  intros Hin Hsrc.
  assert (Ht : tgt ∈ target_fields).
  { unfold target_fields. apply list_elem_of_fmap. now exists (k, (tgt, lo, hi, p)). }
  assert (Hd : forallb (fun t => negb (bool_decide (t ∈ source_keys))) target_fields = true)
    by (vm_compute; reflexivity).
  rewrite forallb_forall in Hd. apply list_elem_of_In in Ht. apply Hd in Ht.
  apply negb_true_iff, bool_decide_eq_false in Ht. contradiction.
Qed.

(** C2. A field whose number falls outside the rule's interval is absent
    from the validated mapping, under its source key and under its target
    name alike: nothing is stored in its place. *)
Theorem out_of_range_field_is_dropped
  (d : PyObj) (m : gmap string pyfloat) (k tgt : string) (lo hi : Q) (p : Z)
  (raw : PyVal) (x : pyfloat) :
  (k, (tgt, lo, hi, p)) ∈ validation_rules ->
  py_getitem k d = Ok raw ->
  py_float float_of_str raw = Ok x ->
  in_range lo hi x = false ->
  validate_sensor_data float_of_str d = Ok m ->
  m !! k = None /\ m !! tgt = None.
Proof.
  intros Hin Hg Hf Hr Hv. pose proof (validate_sensor_data_justified d m Hv) as J. split.
  - destruct (m !! k) as [v|] eqn:Hk; [exfalso | reflexivity].
    destruct (J k v Hk) as (tgt' & lo' & hi' & p' & raw' & x' & Hin' & Hg' & Hf' & Hlo & Hhi & _).
    pose proof (rule_unique _ _ _ Hin Hin') as E. injection E as <- <- <- <-.
    rewrite Hg in Hg'. injection Hg' as <-. rewrite Hf in Hf'. injection Hf' as ->.
    cbn in Hr. apply andb_false_iff in Hr as [Hr | Hr];
      apply not_true_iff_false in Hr; apply Hr, Qle_bool_iff; assumption.
  - destruct (m !! tgt) as [v|] eqn:Hk; [exfalso | reflexivity].
    destruct (J tgt v Hk) as (tgt' & lo' & hi' & p' & _ & _ & Hin' & _).
    apply (target_not_source _ _ _ _ _ Hin). unfold source_keys.
    apply list_elem_of_fmap. now exists (tgt, (tgt', lo', hi', p')).
Qed.

End ValidatorProperties.

Lemma sample_record_validated :
  validate_sensor_data sample_float_of_str (ODict sample_record) = Ok sample_validated.
Proof. vm_compute. reflexivity. Qed.

Lemma validated_values_witness :
  validate_sensor_data sample_float_of_str (ODict sample_record) = Ok sample_validated
  /\ exists tgt lo hi p raw x,
       ("LAT", (tgt, lo, hi, p)) ∈ validation_rules
       /\ py_getitem "LAT" (ODict sample_record) = Ok raw
       /\ py_float sample_float_of_str raw = Ok (FFin x)
       /\ FFin (45123457 # 1000000) = FFin (py_round_Q x p)
       /\ (lo <= x)%Q /\ (x <= hi)%Q
       /\ (lo <= py_round_Q x p)%Q /\ (py_round_Q x p <= hi)%Q.
Proof.
  split; [exact sample_record_validated |].
  apply (validated_values_in_range_and_rounded sample_float_of_str
           (ODict sample_record) sample_validated "LAT" (FFin (45123457 # 1000000))).
  - exact sample_record_validated.
  - vm_compute. reflexivity.
Defined.

Lemma out_of_range_witness :
  sample_validated !! "LON" = None /\ sample_validated !! "longitude" = None.
Proof.
  apply (out_of_range_field_is_dropped sample_float_of_str (ODict sample_record)
           sample_validated "LON" "longitude" (-(180)) 180 6
           (VFloat (FFin (1952 # 10))) (FFin (1952 # 10))).
  - unfold validation_rules. apply list_elem_of_In. cbn. tauto.
  - vm_compute. reflexivity.
  - reflexivity.
  - vm_compute. reflexivity.
  - exact sample_record_validated.
Defined.

Lemma source_keys_not_targets (k : string) : k ∈ source_keys -> k ∉ target_fields.
Proof.
  intros Hk.
  assert (Hd : forallb (fun s => negb (bool_decide (s ∈ target_fields))) source_keys = true)
    by (vm_compute; reflexivity).
  rewrite forallb_forall in Hd. apply list_elem_of_In in Hk. apply Hd in Hk.
  now apply negb_true_iff, bool_decide_eq_false in Hk.
Qed.

Lemma rule_in_field_mapping (k tgt : string) (lo hi : Q) (p : Z) :
  (k, (tgt, lo, hi, p)) ∈ validation_rules -> (tgt, k) ∈ field_mapping.
Proof.
  intros Hin.
  assert (E : (fun rule : Rule => (fst (fst (fst (snd rule))), fst rule)) <$> validation_rules
              = field_mapping) by (vm_compute; reflexivity).
  rewrite <- E. apply list_elem_of_fmap. now exists (k, (tgt, lo, hi, p)).
Qed.

Lemma NoDup_field_mapping_fst : NoDup (field_mapping.*1).
Proof. apply (bool_decide_unpack (NoDup (field_mapping.*1))). vm_compute. exact I. Qed.

(** The ProcessedRecord stores, under a destination name, what
    [data_dict.get] returns for the raw key paired with it. *)
Lemma processed_row_sensor (ship_id dt : string) (created : option string)
  (data_dict : gmap string pyfloat) (path : Path) (dst src : string) :
  (dst, src) ∈ field_mapping ->
  sensors (processed_row ship_id dt created data_dict path) !! dst = Some (data_dict !! src).
Proof.
  intros Hin. cbn [sensors processed_row].
  apply elem_of_list_to_map_1.
  - rewrite <- list_fmap_compose.
    rewrite (list_fmap_ext _ fst); [exact NoDup_field_mapping_fst |].
    now intros i [dst' src'] _.
  - apply list_elem_of_fmap. now exists (dst, src).
Qed.

(** C7, as the code has it. Every key of the validated mapping is the raw
    source key of a rule of the table, and no canonical name; the canonical
    name first appears in the ProcessedRecord, where the File Processor
    stores the validated value under the target name of that same rule. *)
Theorem validated_keys_are_source_keys
  (float_of_str : string -> option pyfloat)
  (d : PyObj) (m : gmap string pyfloat) (k : string) :
  validate_sensor_data float_of_str d = Ok m ->
  is_Some (m !! k) ->
  k ∈ source_keys /\ (k ∉ target_fields)
  /\ exists tgt lo hi p,
       (k, (tgt, lo, hi, p)) ∈ validation_rules
       /\ forall ship_id dt created path,
            sensors (processed_row ship_id dt created m path) !! tgt = Some (m !! k).
Proof.
  intros Hv [v Hk].
  destruct (validate_sensor_data_justified float_of_str d m Hv k v Hk)
    as (tgt & lo & hi & p & _ & _ & Hin & _).
  assert (Hsrc : k ∈ source_keys).
  { unfold source_keys. apply list_elem_of_fmap. now exists (k, (tgt, lo, hi, p)). }
  split; [exact Hsrc |]. split; [now apply source_keys_not_targets |].
  exists tgt, lo, hi, p. split; [exact Hin |].
  intros. apply processed_row_sensor. eapply rule_in_field_mapping, Hin.
Qed.

Lemma validated_keys_are_source_keys_witness :
  "LAT" ∈ source_keys /\ ("LAT" ∉ target_fields)
  /\ exists tgt lo hi p,
       ("LAT", (tgt, lo, hi, p)) ∈ validation_rules
       /\ forall ship_id dt created path,
            sensors (processed_row ship_id dt created sample_validated path) !! tgt
            = Some (sample_validated !! "LAT").
Proof.
  apply (validated_keys_are_source_keys sample_float_of_str (ODict sample_record)).
  - exact sample_record_validated.
  - vm_compute. eauto.
Defined.

(** The validated mapping of the sample record has the key [LAT], which
    is no canonical field name, and no key [latitude]. *)
Lemma validated_keys_are_not_target_names :
  ~ (forall float_of_str d m k,
       validate_sensor_data float_of_str d = Ok m ->
       is_Some (m !! k) -> k ∈ target_fields).
Proof.
  intros H.
  specialize (H sample_float_of_str (ODict sample_record) sample_validated "LAT"
                sample_record_validated).
  assert (N : "LAT" ∉ target_fields).
  { apply (bool_decide_unpack ("LAT" ∉ target_fields)). vm_compute. exact I. }
  apply N, H. vm_compute. eauto.
Qed.

(** ** Record Parser *)

Section ParserProperties.

Variable float_of_str : string -> option pyfloat.
Variable literal_eval : string -> Result PyObj.

Lemma parse_try_decoding_fails (data_str : DataArg) :
  decoding_fails literal_eval data_str ->
  parse_try float_of_str literal_eval data_str = Ok ∅
  \/ exists e, parse_try float_of_str literal_eval data_str = Raise e.
Proof.
  destruct data_str as [s | d |]; cbn.
  - intros [e He]. right. exists e. now rewrite He.
  - intros [].
  - now left.
Qed.

(** C8. [parse_data_column] returns a mapping for every argument: it never
    raises. When decoding fails (the literal parser raises, the argument has
    the wrong type, or any exception leaves the guarded block) the mapping
    it returns is empty. *)
Theorem parse_data_column_never_raises (data_str : DataArg) :
  exists m,
    parse_data_column float_of_str literal_eval data_str = Ok m
    /\ (decoding_fails literal_eval data_str -> m = ∅)
    /\ (forall e, parse_try float_of_str literal_eval data_str = Raise e -> m = ∅).
Proof.
  unfold parse_data_column.
  destruct (parse_try float_of_str literal_eval data_str) as [m | e] eqn:Ht.
  - exists m. split; [reflexivity |]. split; [| discriminate].
    intros Hf. destruct (parse_try_decoding_fails data_str Hf) as [H | [e H]]; congruence.
  - exists ∅. split; [| auto].
    destruct (is_JSONDecodeError e); [reflexivity |]. now destruct (is_ValueError e).
Qed.

End ParserProperties.

(** ** File Processor *)

Section FileProcessorProperties.

Variable float_of_str : string -> option pyfloat.
Variable literal_eval : string -> Result PyObj.
Variable stat_size : Path -> Result Z.
Variable read_excel : Path -> Result (list (gmap string Cell)).

(** Each iteration adds one to exactly one of the three tallies. *)
Lemma process_rows_accounts (path : Path) (rows : list (gmap string Cell))
  (acc : list ProcessedRow) (ve pe : nat) :
  forall out ve' pe',
    process_rows float_of_str literal_eval path rows (acc, ve, pe) = (out, ve', pe') ->
    (length out + ve' + pe' = length rows + (length acc + ve + pe))%nat.
Proof.
  revert acc ve pe. induction rows as [| row rest IH]; intros acc ve pe out ve' pe'.
  - cbn. intros [= <- <- <-]. lia.
  - cbn [process_rows length].
    destruct (process_row float_of_str literal_eval path row) as [[new_row |] | e];
      intros H; apply IH in H; rewrite ?length_app in H; cbn [length] in H; lia.
Qed.

(** C10. When the file is read, the File Processor returns one
    ProcessedRecord or counts one validation error or one processing error
    for each row: the three numbers add up to the number of rows. *)
Theorem every_row_accounted_once (path : Path) (size : Z) (df : list (gmap string Cell)) :
  stat_size path = Ok size ->
  read_excel path = Ok df ->
  exists processed_df stats,
    process_xlsx_file float_of_str literal_eval stat_size read_excel path
      = Ok (processed_df, Some stats)
    /\ total_rows stats = length df
    /\ processed_count stats = length processed_df
    /\ (length df
        = length processed_df + stat_validation_errors stats + stat_processing_errors stats)%nat.
Proof.
  intros Hs Hr. unfold process_xlsx_file. rewrite Hs, Hr. cbn [mbind Result_bind].
  destruct (process_rows float_of_str literal_eval path df ([], 0%nat, 0%nat))
    as [[out ve] pe] eqn:Hp.
  eexists _, _. split; [reflexivity |]. cbn.
  apply process_rows_accounts in Hp. cbn in Hp. repeat split. lia.
Qed.

End FileProcessorProperties.

Lemma every_row_accounted_once_witness :
  exists processed_df stats,
    process_xlsx_file sample_float_of_str sample_literal_eval sample_stat_size
      sample_read_excel sample_path = Ok (processed_df, Some stats)
    /\ total_rows stats = 5%nat
    /\ processed_count stats = length processed_df
    /\ (5 = length processed_df + stat_validation_errors stats
            + stat_processing_errors stats)%nat.
Proof.
  apply (every_row_accounted_once sample_float_of_str sample_literal_eval
           sample_stat_size sample_read_excel sample_path 4096 sample_sheet);
    reflexivity.
Defined.

(** The sample sheet: two records, two validation errors (blank ship
    identifier, malformed record), one processing error (no
    [datetime_created] column). *)
Example sample_sheet_statistics :
  match process_xlsx_file sample_float_of_str sample_literal_eval sample_stat_size
          sample_read_excel sample_path with
  | Ok (processed_df, Some stats) =>
      (length processed_df, stat_validation_errors stats, stat_processing_errors stats)
      = (2, 2, 1)%nat
  | _ => False
  end.
Proof. vm_compute. reflexivity. Qed.

(** ** Storage *)

Lemma healthy_conn_of (t : Tables) : healthy (conn_of t).
Proof. now repeat split. Qed.

Lemma healthy_is_conn_of (c : Conn) : healthy c -> c = conn_of (tables c).
Proof. destruct c as [t d a f]. unfold healthy. cbn. intros (-> & -> & ->). reflexivity. Qed.

Lemma head_filter_eq (x : string) (l : list string) :
  x ∈ l -> head (filter (fun s => s = x) l) = Some x.
Proof.
  induction l as [| y l IH]; intros Hin.
  - now apply elem_of_nil in Hin.
  - rewrite filter_cons. destruct (decide (y = x)) as [-> | Hne]; [reflexivity |].
    apply IH. apply elem_of_cons in Hin as [-> | Hin]; [contradiction | exact Hin].
Qed.

Lemma filter_eq_absent (x : string) (l : list string) :
  x ∉ l -> filter (fun s => s = x) l = [].
Proof.
  induction l as [| y l IH]; intros Hnin; [reflexivity |].
  rewrite filter_cons. apply not_elem_of_cons in Hnin as [Hne Hnin].
  destruct (decide (y = x)) as [-> | _]; [contradiction | now apply IH].
Qed.

(** On a healthy connection the ship resolver returns the identifier it
    was given, and leaves a healthy connection on [resolve_ship]. *)
Lemma get_or_create_ship_id_healthy (ship_id : string) (t : Tables) :
  get_or_create_ship_id ship_id (conn_of t) = (Ok ship_id, conn_of (resolve_ship ship_id t)).
Proof.
  unfold get_or_create_ship_id, get_db_cursor, resolve_ship. cbn.
  unfold mbind, DB_bind, cursor_execute. cbn.
  destruct (decide (ship_id ∈ d_ship t)) as [Hin | Hnin].
  - rewrite (head_filter_eq _ _ Hin). cbn. rewrite bool_decide_eq_true_2 by exact Hin.
    reflexivity.
  - rewrite (filter_eq_absent _ _ Hnin). cbn. unfold insert_ship.
    rewrite !bool_decide_eq_false_2 by exact Hnin. reflexivity.
Qed.

Lemma find_calendar_Some (ts k : datetime) (t : Tables) :
  find_calendar ts t = Some k ->
  exists r, r ∈ d_calendar t /\ matches_minute ts r /\ datetime_id r = k.
Proof.
  unfold find_calendar. destruct (filter (matches_minute ts) (d_calendar t)) as [| r l] eqn:Hf;
    [discriminate |].
  cbn. intros [= <-]. exists r.
  assert (Hr : r ∈ filter (matches_minute ts) (d_calendar t)) by (rewrite Hf; left).
  apply list_elem_of_filter in Hr as [Hm Hin]. auto.
Qed.

Lemma find_calendar_None (ts : datetime) (t : Tables) :
  find_calendar ts t = None -> filter (matches_minute ts) (d_calendar t) = [].
Proof.
  unfold find_calendar. now destruct (filter (matches_minute ts) (d_calendar t)).
Qed.

(** In a consistent calendar a timestamp whose minute has no row is no
    row's key either, so the INSERT cannot hit the primary key. *)
Lemma find_calendar_None_fresh (ts : datetime) (t : Tables) :
  calendar_consistent t -> find_calendar ts t = None ->
  ts ∉ datetime_id <$> d_calendar t.
Proof.
  intros Hc Hf Hin. apply find_calendar_None in Hf.
  apply list_elem_of_fmap in Hin as (r & -> & Hr).
  unfold calendar_consistent in Hc. rewrite Forall_forall in Hc.
  apply (filter_nil_not_elem_of _ _ r Hf); [| exact Hr]. now apply Hc.
Qed.

(** On a healthy connection over a consistent calendar the calendar
    resolver returns the key of the first row of the minute, or the
    timestamp itself after inserting its row. *)
Lemma get_or_create_datetime_id_healthy (ts : datetime) (t : Tables) :
  calendar_consistent t ->
  get_or_create_datetime_id ts (conn_of t)
  = (Ok (default ts (find_calendar ts t)), conn_of (resolve_calendar ts t)).
Proof.
  intros Hc. unfold get_or_create_datetime_id, get_db_cursor, resolve_calendar. cbn.
  unfold mbind, DB_bind, cursor_execute. cbn.
  destruct (find_calendar ts t) as [k |] eqn:Hf.
  - unfold find_calendar in Hf.
    destruct (filter (matches_minute ts) (d_calendar t)) as [| r l]; [discriminate |].
    cbn in Hf. injection Hf as <-. reflexivity.
  - pose proof (find_calendar_None_fresh ts t Hc Hf) as Hfresh.
    rewrite (find_calendar_None ts t Hf). cbn. unfold insert_calendar.
    cbn [datetime_id new_calendar_row].
    rewrite !bool_decide_eq_false_2 by exact Hfresh. reflexivity.
Qed.

Lemma new_calendar_row_consistent (ts : datetime) : row_consistent (new_calendar_row ts).
Proof. now repeat split. Qed.

Lemma resolve_calendar_consistent (ts : datetime) (t : Tables) :
  calendar_consistent t -> calendar_consistent (resolve_calendar ts t).
Proof.
  intros Hc. unfold resolve_calendar. destruct (find_calendar ts t); [exact Hc |].
  unfold calendar_consistent. cbn. apply Forall_app. split; [exact Hc |].
  apply Forall_singleton, new_calendar_row_consistent.
Qed.

(** The key resolved for a timestamp lies in the timestamp's minute. *)
Lemma resolved_key_same_minute (ts : datetime) (t : Tables) :
  calendar_consistent t -> same_minute (default ts (find_calendar ts t)) ts.
Proof.
  intros Hc. destruct (find_calendar ts t) as [k |] eqn:Hf; [| now repeat split].
  apply find_calendar_Some in Hf as (r & Hr & Hm & <-).
  unfold calendar_consistent in Hc. rewrite Forall_forall in Hc. specialize (Hc r Hr).
  unfold row_consistent, matches_minute in Hc, Hm. unfold same_minute. cbn. intuition congruence.
Qed.

Lemma filter_matches_same_minute (t1 t2 : datetime) (l : list CalendarRow) :
  same_minute t1 t2 -> filter (matches_minute t1) l = filter (matches_minute t2) l.
Proof.
  intros Hs. apply list_filter_iff. intros r. unfold matches_minute, same_minute in *.
  intuition congruence.
Qed.

(** Once a timestamp has been resolved, every timestamp of its minute
    resolves to the same key. *)
Lemma find_calendar_after_resolve (t1 t2 : datetime) (t : Tables) :
  same_minute t1 t2 ->
  find_calendar t2 (resolve_calendar t1 t) = Some (default t1 (find_calendar t1 t)).
Proof.
  intros Hs. unfold resolve_calendar.
  destruct (find_calendar t1 t) as [k |] eqn:Hf.
  - cbn. unfold find_calendar in *. now rewrite <- (filter_matches_same_minute t1 t2).
  - cbn. unfold find_calendar. cbn. rewrite filter_app.
    rewrite <- (filter_matches_same_minute t1 t2) by exact Hs.
    rewrite (find_calendar_None t1 t Hf). cbn.
    destruct (decide (matches_minute t2 (new_calendar_row t1))) as [_ | N].
    + reflexivity.
    + exfalso. apply N. unfold matches_minute, same_minute in *. cbn. intuition congruence.
Qed.

(** C6. Resolving one ship identifier twice returns the identifier both
    times, the second call changes nothing, and the ship dimension then
    holds exactly one row for the identifier. *)
Theorem resolve_ship_twice (c : Conn) (ship_id : string) :
  healthy c ->
  NoDup (d_ship (tables c)) ->
  exists c1,
    get_or_create_ship_id ship_id c = (Ok ship_id, c1)
    /\ get_or_create_ship_id ship_id c1 = (Ok ship_id, c1)
    /\ length (filter (fun s => s = ship_id) (d_ship (tables c1))) = 1%nat
    /\ d_ship (durable c1) = d_ship (tables c1)
    /\ NoDup (d_ship (tables c1)).
Proof.
  intros Hh Hnd. rewrite (healthy_is_conn_of c Hh).
  set (t := tables c) in *. exists (conn_of (resolve_ship ship_id t)).
  assert (Hin : ship_id ∈ d_ship (resolve_ship ship_id t)).
  { unfold resolve_ship. case_bool_decide; [assumption |]. cbn.
    apply elem_of_app. right. left. }
  assert (Hnd1 : NoDup (d_ship (resolve_ship ship_id t))).
  { unfold resolve_ship. case_bool_decide; [assumption |]. cbn.
    apply NoDup_app. split; [exact Hnd |]. split; [| apply NoDup_singleton].
    intros x Hx Hx'. apply list_elem_of_singleton in Hx' as ->. contradiction. }
  split; [apply get_or_create_ship_id_healthy |]. split.
  { rewrite get_or_create_ship_id_healthy. unfold resolve_ship at 1.
    now rewrite bool_decide_eq_true_2 by exact Hin. }
  split; [| split; [reflexivity | exact Hnd1]].
  cbn [tables conn_of]. revert Hin Hnd1. generalize (d_ship (resolve_ship ship_id t)).
  induction l as [| y l IH]; intros Hin Hnd1.
  - now apply elem_of_nil in Hin.
  - apply NoDup_cons in Hnd1 as [Hy Hnd1]. rewrite filter_cons.
    destruct (decide (y = ship_id)) as [-> | Hne].
    + cbn. now rewrite (filter_eq_absent _ _ Hy).
    + apply IH; [| exact Hnd1]. apply elem_of_cons in Hin as [-> | Hin]; [contradiction | exact Hin].
Qed.

(** C5. Two timestamps resolved in sequence get the same calendar key when
    they lie in the same minute and different keys when they do not. *)
Theorem resolve_calendar_same_minute_same_key (c : Conn) (t1 t2 : datetime) :
  healthy c ->
  calendar_consistent (tables c) ->
  exists k1 c1 k2 c2,
    get_or_create_datetime_id t1 c = (Ok k1, c1)
    /\ get_or_create_datetime_id t2 c1 = (Ok k2, c2)
    /\ (same_minute t1 t2 -> k1 = k2)
    /\ (~ same_minute t1 t2 -> k1 <> k2).
Proof.
  intros Hh Hc. rewrite (healthy_is_conn_of c Hh). set (t := tables c) in *.
  pose proof (resolve_calendar_consistent t1 t Hc) as Hc1.
  eexists _, _, _, _. split; [apply (get_or_create_datetime_id_healthy t1 t Hc) |].
  split; [apply (get_or_create_datetime_id_healthy t2 _ Hc1) |]. split.
  - intros Hs. now rewrite (find_calendar_after_resolve t1 t2 t Hs).
  - intros Hn E. apply Hn.
    pose proof (resolved_key_same_minute t1 t Hc) as S1.
    pose proof (resolved_key_same_minute t2 _ Hc1) as S2.
    rewrite <- E in S2. unfold same_minute in *. intuition congruence.
Qed.

Lemma weekday_range (ts : datetime) : (0 <= weekday ts < 7)%Z.
Proof. unfold weekday. apply Z.mod_pos_bound. lia. Qed.

(** C4, as the code has it. For a timestamp whose minute has no calendar
    row, the resolver inserts and commits one row keyed by the timestamp
    itself, seconds included, with the quarter, ISO week, Monday-first day
    of the week and weekend flag of the timestamp, and returns the
    timestamp unchanged. *)
Theorem calendar_row_created_on_miss (c : Conn) (ts : datetime) :
  healthy c ->
  calendar_consistent (tables c) ->
  filter (matches_minute ts) (d_calendar (tables c)) = [] ->
  exists c' row,
    get_or_create_datetime_id ts c = (Ok ts, c')
    /\ d_calendar (tables c') = (d_calendar (tables c) ++ [row])
    /\ d_calendar (durable c') = d_calendar (tables c')
    /\ datetime_id row = ts
    /\ quarter row = ((month ts - 1) / 3 + 1)%Z
    /\ week_of_year row = iso_week ts
    /\ day_of_week row = (weekday ts + 1)%Z
    /\ (1 <= day_of_week row <= 7)%Z
    /\ (is_weekend row = true <-> day_of_week row = 6%Z \/ day_of_week row = 7%Z).
Proof.
  intros Hh Hc Hmiss. rewrite (healthy_is_conn_of c Hh). set (t := tables c) in *.
  assert (Hf : find_calendar ts t = None) by (unfold find_calendar; now rewrite Hmiss).
  exists (conn_of (resolve_calendar ts t)), (new_calendar_row ts).
  split.
  { rewrite (get_or_create_datetime_id_healthy ts t Hc). now rewrite Hf. }
  unfold resolve_calendar. rewrite Hf. cbn.
  pose proof (weekday_range ts) as Hw.
  repeat split; lia.
Qed.

Lemma empty_tables_consistent : calendar_consistent empty_tables.
Proof. apply Forall_nil_2. Qed.

Lemma resolve_ship_twice_witness :
  exists c1,
    get_or_create_ship_id "SHIP-1" (conn_of empty_tables) = (Ok "SHIP-1", c1)
    /\ get_or_create_ship_id "SHIP-1" c1 = (Ok "SHIP-1", c1)
    /\ length (filter (fun s => s = "SHIP-1") (d_ship (tables c1))) = 1%nat
    /\ d_ship (durable c1) = d_ship (tables c1)
    /\ NoDup (d_ship (tables c1)).
Proof.
  apply (resolve_ship_twice (conn_of empty_tables) "SHIP-1").
  - apply healthy_conn_of.
  - cbn. apply NoDup_nil_2.
Defined.

Lemma resolve_calendar_same_minute_witness :
  exists k1 c1 k2 c2,
    get_or_create_datetime_id sample_timestamp (conn_of empty_tables) = (Ok k1, c1)
    /\ get_or_create_datetime_id sample_timestamp_later c1 = (Ok k2, c2)
    /\ (same_minute sample_timestamp sample_timestamp_later -> k1 = k2)
    /\ (~ same_minute sample_timestamp sample_timestamp_later -> k1 <> k2).
Proof.
  apply (resolve_calendar_same_minute_same_key (conn_of empty_tables)
           sample_timestamp sample_timestamp_later).
  - apply healthy_conn_of.
  - exact empty_tables_consistent.
Defined.

Lemma calendar_row_created_witness :
  exists c' row,
    get_or_create_datetime_id sample_timestamp (conn_of empty_tables)
      = (Ok sample_timestamp, c')
    /\ d_calendar (tables c') = ([] ++ [row])
    /\ d_calendar (durable c') = d_calendar (tables c')
    /\ datetime_id row = sample_timestamp
    /\ quarter row = ((1 - 1) / 3 + 1)%Z
    /\ week_of_year row = iso_week sample_timestamp
    /\ day_of_week row = (weekday sample_timestamp + 1)%Z
    /\ (1 <= day_of_week row <= 7)%Z
    /\ (is_weekend row = true <-> day_of_week row = 6%Z \/ day_of_week row = 7%Z).
Proof.
  apply (calendar_row_created_on_miss (conn_of empty_tables) sample_timestamp).
  - apply healthy_conn_of.
  - exact empty_tables_consistent.
  - reflexivity.
Defined.

(** 2022-01-01 10:30:45 is a Saturday of ISO week 52: the row is flagged
    as a weekend, and its key keeps the 45 seconds. *)
Example sample_calendar_row :
  new_calendar_row sample_timestamp
  = {| datetime_id := sample_timestamp; cal_date := (2022, 1, 1)%Z;
       cal_year := 2022; cal_month := 1; cal_day := 1; cal_hour := 10; cal_minute := 30;
       quarter := 1; week_of_year := 52; day_of_week := 6; is_weekend := true |}.
Proof. reflexivity. Qed.

(** On an empty calendar the key returned for 10:30:45 is 10:30:45, not
    the timestamp truncated to 10:30:00. *)
Lemma calendar_key_is_not_truncated :
  ~ (forall c ts,
       healthy c -> calendar_consistent (tables c) ->
       filter (matches_minute ts) (d_calendar (tables c)) = [] ->
       exists c', get_or_create_datetime_id ts c = (Ok (truncate_to_minute ts), c')).
Proof.
  intros H.
  destruct (H (conn_of empty_tables) sample_timestamp (healthy_conn_of _)
              empty_tables_consistent eq_refl) as [c' Hc'].
  rewrite (get_or_create_datetime_id_healthy _ _ empty_tables_consistent) in Hc'.
  cbn in Hc'. discriminate Hc'.
Qed.

(** ** Bulk Loader *)

Lemma tables_extend_refl (t : Tables) : tables_extend t t.
Proof. now repeat split. Qed.

Lemma tables_extend_trans (t1 t2 t3 : Tables) :
  tables_extend t1 t2 -> tables_extend t2 t3 -> tables_extend t1 t3.
Proof.
  intros (A1 & A2 & A3) (B1 & B2 & B3).
  repeat split; etransitivity; eassumption.
Qed.

Lemma resolve_ship_extend (ship_id : string) (t : Tables) :
  tables_extend t (resolve_ship ship_id t).
Proof.
  unfold resolve_ship. case_bool_decide; [apply tables_extend_refl |].
  repeat split; cbn; try reflexivity. now apply prefix_app_r.
Qed.

Lemma resolve_calendar_extend (ts : datetime) (t : Tables) :
  tables_extend t (resolve_calendar ts t).
Proof.
  unfold resolve_calendar. destruct (find_calendar ts t); [apply tables_extend_refl |].
  repeat split; cbn; try reflexivity. now apply prefix_app_r.
Qed.

Lemma resolve_ship_calendar (ship_id : string) (t : Tables) :
  d_calendar (resolve_ship ship_id t) = d_calendar t
  /\ f_data (resolve_ship ship_id t) = f_data t.
Proof. unfold resolve_ship. now case_bool_decide. Qed.

Lemma resolve_calendar_ship (ts : datetime) (t : Tables) :
  d_ship (resolve_calendar ts t) = d_ship t
  /\ f_data (resolve_calendar ts t) = f_data t.
Proof. unfold resolve_calendar. now destruct (find_calendar ts t). Qed.

Lemma resolve_ship_present (ship_id : string) (t : Tables) :
  ship_id ∈ d_ship (resolve_ship ship_id t).
Proof.
  unfold resolve_ship. case_bool_decide; [assumption |]. cbn.
  apply elem_of_app. right. left.
Qed.

(** A hit of the minute lookup survives every extension of the calendar:
    rows are only appended, and the lookup takes the first match. *)
Lemma find_calendar_extend (ts k : datetime) (t t' : Tables) :
  d_calendar t `prefix_of` d_calendar t' ->
  find_calendar ts t = Some k -> find_calendar ts t' = Some k.
Proof.
  intros [l Hl]. unfold find_calendar. rewrite Hl, filter_app, head_app.
  destruct (head (filter (matches_minute ts) (d_calendar t))); [auto | discriminate].
Qed.

Lemma find_calendar_resolved (ts : datetime) (t : Tables) :
  find_calendar ts (resolve_calendar ts t) = Some (default ts (find_calendar ts t)).
Proof. apply find_calendar_after_resolve. now repeat split. Qed.

Lemma find_calendar_key_exists (ts k : datetime) (t : Tables) :
  find_calendar ts t = Some k -> k ∈ datetime_id <$> d_calendar t.
Proof.
  intros H. apply find_calendar_Some in H as (r & Hr & _ & <-).
  now apply list_elem_of_fmap_2.
Qed.

Lemma keys_exist_extend (t t' : Tables) (r : FactRow) :
  d_ship t `prefix_of` d_ship t' -> d_calendar t `prefix_of` d_calendar t' ->
  keys_exist t r -> keys_exist t' r.
Proof.
  intros [l1 H1] [l2 H2] [Hs Hc]. unfold keys_exist. rewrite H1, H2, fmap_app.
  split; apply elem_of_app; now left.
Qed.

(** *** The fact insert *)

Lemma insert_facts_spec (bulk_data : list FactRow) :
  forall t,
    Forall (keys_exist t) bulk_data ->
    exists t',
      insert_facts bulk_data t = Ok t'
      /\ d_ship t' = d_ship t /\ d_calendar t' = d_calendar t
      /\ f_data t `prefix_of` f_data t'
      /\ (NoDup (fact_key <$> f_data t) -> NoDup (fact_key <$> f_data t'))
      /\ Forall (fun r => fact_key r ∈ fact_key <$> f_data t') bulk_data.
Proof.
  induction bulk_data as [| r rest IH]; intros t Hk.
  - exists t. cbn. repeat split; auto.
  - apply Forall_cons in Hk as [[Hs Hc] Hk]. cbn [insert_facts].
    destruct (decide (fact_key r ∈ fact_key <$> f_data t)) as [Hin | Hnin].
    + rewrite bool_decide_eq_true_2 by exact Hin.
      destruct (IH t Hk) as (t' & E & A & B & [l C] & D & F).
      exists t'. repeat split; auto; [now exists l |].
      apply Forall_cons. split; [| exact F]. rewrite C, fmap_app.
      apply elem_of_app. now left.
    + rewrite bool_decide_eq_false_2 by exact Hnin.
      rewrite !bool_decide_eq_true_2 by assumption. cbn [andb].
      set (t1 := set_f_data (f_data t ++ [r]) t).
      assert (Hk1 : Forall (keys_exist t1) rest) by exact Hk.
      destruct (IH t1 Hk1) as (t' & E & A & B & [l C] & D & F).
      exists t'. repeat split; auto.
      * exists ([r] ++ l). rewrite C. cbn. now rewrite <- app_assoc.
      * intros Hnd. apply D. cbn. rewrite fmap_app. apply NoDup_app.
        split; [exact Hnd |]. split; [| apply NoDup_singleton].
        intros x Hx Hx'. cbn in Hx'. apply list_elem_of_singleton in Hx' as ->. contradiction.
      * apply Forall_cons. split; [| exact F]. rewrite C. unfold t1. cbn [f_data set_f_data].
        rewrite !fmap_app. apply elem_of_app. left. apply elem_of_app. right. cbn. left.
Qed.

(** Rows whose pairs are all present change nothing: the statement is a
    no-op. *)
Lemma insert_facts_present (bulk_data : list FactRow) (t : Tables) :
  Forall (fun r => fact_key r ∈ fact_key <$> f_data t) bulk_data ->
  insert_facts bulk_data t = Ok t.
Proof.
  induction bulk_data as [| r rest IH]; intros H; [reflexivity |].
  apply Forall_cons in H as [Hr H]. cbn [insert_facts].
  rewrite bool_decide_eq_true_2 by exact Hr. now apply IH.
Qed.

Lemma guarded_insert_healthy (bulk_data : list FactRow) (t t' : Tables) :
  insert_facts bulk_data t = Ok t' ->
  exists c2,
    guarded_insert bulk_data (conn_of t) = (Ok true, c2)
    /\ conn_commit c2 = (Ok tt, conn_of t').
Proof.
  intros H. unfold guarded_insert, get_db_cursor, cursor_execute, execute_values. cbn.
  rewrite H. cbn. eexists. split; reflexivity.
Qed.

Section LoaderProperties.

Variable to_datetime : string -> Result (option datetime).

Lemma find_calendar_resolve_ship (ts : datetime) (ship_id : string) (t : Tables) :
  find_calendar ts (resolve_ship ship_id t) = find_calendar ts t.
Proof. unfold find_calendar. now rewrite (proj1 (resolve_ship_calendar ship_id t)). Qed.

Lemma resolve_ship_consistent (ship_id : string) (t : Tables) :
  calendar_consistent t -> calendar_consistent (resolve_ship ship_id t).
Proof. unfold calendar_consistent. now rewrite (proj1 (resolve_ship_calendar ship_id t)). Qed.

(** One row of [prepare_bulk_data] on a healthy connection. *)
Lemma prepare_row_healthy (row : ProcessedRow) (t : Tables) :
  calendar_consistent t ->
  prepare_row to_datetime row (conn_of t)
  = match to_datetime (datetime_str row) with
    | Raise e => (Raise e, conn_of t)
    | Ok None => (Ok None, conn_of t)
    | Ok (Some ts) =>
        (Ok (Some (bulk_record row (id_ship row) (default ts (find_calendar ts t)))),
         conn_of (resolve_calendar ts (resolve_ship (id_ship row) t)))
    end.
Proof.
  intros Hc. unfold prepare_row.
  destruct (to_datetime (datetime_str row)) as [[ts |] | e]; try reflexivity.
  unfold mbind, DB_bind. rewrite get_or_create_ship_id_healthy.
  rewrite get_or_create_datetime_id_healthy by now apply resolve_ship_consistent.
  now rewrite find_calendar_resolve_ship.
Qed.

Lemma valid_timestamp_true (row : ProcessedRow) :
  valid_timestamp to_datetime row = true ->
  exists ts, to_datetime (datetime_str row) = Ok (Some ts).
Proof.
  unfold valid_timestamp.
  destruct (to_datetime (datetime_str row)) as [[ts |] | e]; [eauto | discriminate..].
Qed.

Lemma valid_rows_cons (row : ProcessedRow) (rest : list ProcessedRow) :
  valid_rows to_datetime (row :: rest)
  = ((if valid_timestamp to_datetime row then 1 else 0) + valid_rows to_datetime rest)%nat.
Proof.
  unfold valid_rows. rewrite filter_cons.
  destruct (valid_timestamp to_datetime row); [rewrite decide_True | rewrite decide_False];
    cbn; congruence.
Qed.

(** The dimension pass of a batch on a healthy connection: it returns one
    record per row with a valid timestamp, only appends to the dimensions,
    and leaves every such row with both of its keys resolved. *)
Lemma prepare_bulk_loop_healthy (rows : list ProcessedRow) :
  forall t acc,
    calendar_consistent t ->
    exists recs t',
      prepare_bulk_loop to_datetime rows acc (conn_of t) = (Ok (acc ++ recs), conn_of t')
      /\ tables_extend t t' /\ f_data t' = f_data t /\ calendar_consistent t'
      /\ Forall (keys_exist t') recs
      /\ length recs = valid_rows to_datetime rows
      /\ Forall (fun row =>
                   valid_timestamp to_datetime row = true ->
                   exists k, row_keys to_datetime t' row = Some k /\ k ∈ fact_key <$> recs)
           rows.
Proof.
  induction rows as [| row rest IH]; intros t acc Hc.
  - exists [], t. cbn. rewrite app_nil_r.
    repeat split; auto using tables_extend_refl; reflexivity.
  - cbn [prepare_bulk_loop]. rewrite (prepare_row_healthy row t Hc).
    rewrite valid_rows_cons. unfold valid_timestamp at 1.
    destruct (to_datetime (datetime_str row)) as [[ts |] | e] eqn:Hdt.
    + set (t0 := resolve_ship (id_ship row) t).
      set (t1 := resolve_calendar ts t0).
      set (k := default ts (find_calendar ts t)).
      assert (Hc1 : calendar_consistent t1)
        by now apply resolve_calendar_consistent, resolve_ship_consistent.
      destruct (IH t1 (acc ++ [bulk_record row (id_ship row) k]) Hc1)
        as (recs & t' & E & X & F & C & K & L & R).
      exists (bulk_record row (id_ship row) k :: recs), t'.
      assert (X01 : tables_extend t t1).
      { eapply tables_extend_trans; [apply resolve_ship_extend | apply resolve_calendar_extend]. }
      assert (Hfind : find_calendar ts t1 = Some k).
      { unfold t1, k. rewrite <- (find_calendar_resolve_ship ts (id_ship row) t).
        apply find_calendar_resolved. }
      assert (Hship : id_ship row ∈ d_ship t1).
      { unfold t1. rewrite (proj1 (resolve_calendar_ship ts t0)). apply resolve_ship_present. }
      destruct X as (X1 & X2 & X3).
      assert (Hship' : id_ship row ∈ d_ship t').
      { destruct X1 as [l ->]. apply elem_of_app. now left. }
      assert (Hfind' : find_calendar ts t' = Some k) by (eapply find_calendar_extend; eassumption).
      split; [rewrite E; now rewrite <- app_assoc |].
      split; [eapply tables_extend_trans; [exact X01 | now repeat split] |].
      split.
      { rewrite F. unfold t1. rewrite (proj2 (resolve_calendar_ship ts t0)).
        apply (proj2 (resolve_ship_calendar (id_ship row) t)). }
      split; [exact C |]. split.
      { apply Forall_cons. split; [| exact K].
        split; [exact Hship' | now apply (find_calendar_key_exists ts)]. }
      split; [cbn; now rewrite L |].
      apply Forall_cons. split.
      * intros _. exists (id_ship row, k). split; [| cbn; left].
        unfold row_keys. rewrite Hdt. rewrite bool_decide_eq_true_2 by exact Hship'.
        now rewrite Hfind'.
      * eapply Forall_impl; [exact R |]. cbn. intros row' H Hv.
        destruct (H Hv) as (k' & Hk' & Hin). exists k'. split; [exact Hk' | now right].
    + destruct (IH t acc Hc) as (recs & t' & E & X & F & C & K & L & R).
      exists recs, t'.
      repeat split; auto; try apply X. apply Forall_cons.
      split; [unfold valid_timestamp; rewrite Hdt; discriminate | exact R].
    + destruct (IH t acc Hc) as (recs & t' & E & X & F & C & K & L & R).
      exists recs, t'.
      repeat split; auto; try apply X. apply Forall_cons.
      split; [unfold valid_timestamp; rewrite Hdt; discriminate | exact R].
Qed.

(** The dimension pass over rows that are already loaded changes nothing
    and returns records whose pairs the fact table already holds. *)
Lemma prepare_bulk_loop_loaded (rows : list ProcessedRow) (t : Tables) :
  calendar_consistent t ->
  Forall (row_loaded to_datetime t) rows ->
  forall acc,
    exists recs,
      prepare_bulk_loop to_datetime rows acc (conn_of t) = (Ok (acc ++ recs), conn_of t)
      /\ Forall (fun r => fact_key r ∈ fact_key <$> f_data t) recs
      /\ length recs = valid_rows to_datetime rows.
Proof.
  intros Hc. induction rows as [| row rest IH]; intros Hl acc.
  - exists []. cbn. rewrite app_nil_r. auto.
  - apply Forall_cons in Hl as [Hrow Hl]. cbn [prepare_bulk_loop].
    rewrite (prepare_row_healthy row t Hc). rewrite valid_rows_cons.
    unfold row_loaded, row_keys in Hrow. unfold valid_timestamp at 1. unfold valid_timestamp in Hrow.
    destruct (to_datetime (datetime_str row)) as [[ts |] | e] eqn:Hdt.
    + destruct (Hrow eq_refl) as (k & Hk & Hin).
      case_bool_decide as Hship; [| discriminate].
      destruct (find_calendar ts t) as [kk |] eqn:Hf; [| discriminate].
      cbn in Hk. injection Hk as <-.
      assert (E0 : resolve_calendar ts (resolve_ship (id_ship row) t) = t).
      { unfold resolve_ship. rewrite bool_decide_eq_true_2 by exact Hship.
        unfold resolve_calendar. now rewrite Hf. }
      rewrite E0. change (default ts (Some kk)) with kk.
      destruct (IH Hl (acc ++ [bulk_record row (id_ship row) kk])) as (recs & E & K & L).
      exists (bulk_record row (id_ship row) kk :: recs).
      split; [rewrite E; now rewrite <- app_assoc |].
      split; [apply Forall_cons; split; [exact Hin | exact K] |].
      cbn. now rewrite L.
    + destruct (IH Hl acc) as (recs & E & K & L). exists recs. auto.
    + destruct (IH Hl acc) as (recs & E & K & L). exists recs. auto.
Qed.

Lemma row_keys_same_dimensions (t t' : Tables) (row : ProcessedRow) :
  d_ship t' = d_ship t -> d_calendar t' = d_calendar t ->
  row_keys to_datetime t' row = row_keys to_datetime t row.
Proof. intros Hs Hc. unfold row_keys, find_calendar. now rewrite Hs, Hc. Qed.

(** A loaded row stays loaded in every extension of the tables. *)
Lemma row_loaded_extend (t t' : Tables) (row : ProcessedRow) :
  tables_extend t t' -> row_loaded to_datetime t row -> row_loaded to_datetime t' row.
Proof.
  intros (X1 & X2 & X3) H Hv. destruct (H Hv) as (k & Hk & Hin). exists k. split.
  - unfold row_keys in *.
    destruct (to_datetime (datetime_str row)) as [[ts |] | e]; try discriminate.
    case_bool_decide as Hs; [| discriminate].
    destruct (find_calendar ts t) as [kk |] eqn:Hf; [| discriminate].
    rewrite (find_calendar_extend ts kk t t' X2 Hf).
    rewrite bool_decide_eq_true_2; [exact Hk |].
    destruct X1 as [l ->]. apply elem_of_app. now left.
  - destruct X3 as [l ->]. rewrite fmap_app. apply elem_of_app. now left.
Qed.

(** One batch on a healthy connection: it goes through, submits the valid
    rows, only appends to the tables and leaves its rows loaded. *)
Lemma load_batch_healthy (batch : list ProcessedRow) (n : nat) (t : Tables) :
  calendar_consistent t ->
  exists t',
    load_batch to_datetime batch n (conn_of t)
    = (Ok tt, (n + valid_rows to_datetime batch)%nat, conn_of t')
    /\ tables_extend t t' /\ calendar_consistent t'
    /\ (NoDup (fact_key <$> f_data t) -> NoDup (fact_key <$> f_data t'))
    /\ Forall (row_loaded to_datetime t') batch.
Proof.
  intros Hc. unfold load_batch, prepare_bulk_data.
  destruct (prepare_bulk_loop_healthy batch t [] Hc) as (recs & t1 & E & X & F & C & K & L & R).
  rewrite E. cbn [app]. rewrite <- L. destruct recs as [| r recs].
  - exists t1. rewrite Nat.add_0_r. repeat split; auto; try apply X.
    + now rewrite F.
    + eapply Forall_impl; [exact R |]. cbn beta. intros row H Hv.
      destruct (H Hv) as (k & _ & Hin). now apply elem_of_nil in Hin.
  - destruct (insert_facts_spec (r :: recs) t1 K) as (t2 & Ei & A & B & P & D & G).
    destruct (guarded_insert_healthy _ _ _ Ei) as (c2 & Eg & Ec).
    rewrite Eg, Ec. exists t2. destruct X as (X1 & X2 & X3).
    split; [reflexivity |]. split.
    { repeat split; [now rewrite A | now rewrite B | now rewrite <- F]. }
    split; [unfold calendar_consistent; now rewrite B |].
    split; [intros Hnd; apply D; now rewrite F |].
    eapply Forall_impl; [exact R |]. cbn beta. intros row H Hv.
    destruct (H Hv) as (k & Hk & Hin). exists k. split.
    + now rewrite (row_keys_same_dimensions t1 t2 row A B).
    + apply list_elem_of_fmap in Hin as (r0 & -> & Hr0).
      rewrite Forall_forall in G. now apply G.
Qed.

(** One batch whose rows are all loaded: the dimension pass finds every
    key, the insert skips every row, and the connection is left as it
    was. *)
Lemma load_batch_loaded (batch : list ProcessedRow) (n : nat) (t : Tables) :
  calendar_consistent t ->
  Forall (row_loaded to_datetime t) batch ->
  load_batch to_datetime batch n (conn_of t)
  = (Ok tt, (n + valid_rows to_datetime batch)%nat, conn_of t).
Proof.
  intros Hc Hl. unfold load_batch, prepare_bulk_data.
  destruct (prepare_bulk_loop_loaded batch t Hc Hl []) as (recs & E & K & L).
  rewrite E. cbn [app]. rewrite <- L. destruct recs as [| r recs].
  - now rewrite Nat.add_0_r.
  - destruct (guarded_insert_healthy _ _ _ (insert_facts_present _ _ K)) as (c2 & Eg & Ec).
    now rewrite Eg, Ec.
Qed.

Lemma load_loop_healthy (df : list ProcessedRow) (starts : list nat) :
  forall n t,
    calendar_consistent t ->
    exists t',
      load_loop to_datetime starts df n (conn_of t)
      = (Ok tt, (n + submitted to_datetime starts df)%nat, conn_of t')
      /\ tables_extend t t' /\ calendar_consistent t'
      /\ (NoDup (fact_key <$> f_data t) -> NoDup (fact_key <$> f_data t'))
      /\ Forall (fun s => Forall (row_loaded to_datetime t') (batch_at s df)) starts.
Proof.
  induction starts as [| s rest IH]; intros n t Hc.
  - exists t. cbn. rewrite Nat.add_0_r. repeat split; auto.
  - destruct (load_batch_healthy (batch_at s df) n t Hc) as (t1 & E & X & C & D & R).
    destruct (IH (n + valid_rows to_datetime (batch_at s df))%nat t1 C)
      as (t' & E' & X' & C' & D' & R').
    exists t'. cbn [load_loop]. cbn zeta.
    change (iloc s (Nat.min (s + batch_size) (length df)) df) with (batch_at s df).
    rewrite E. rewrite E'.
    split; [unfold submitted; cbn; now rewrite Nat.add_assoc |].
    split; [eapply tables_extend_trans; eassumption |].
    split; [exact C' |]. split; [auto |].
    apply Forall_cons. split; [| exact R'].
    eapply Forall_impl; [exact R |]. intros row. now apply row_loaded_extend.
Qed.

Lemma load_loop_loaded (df : list ProcessedRow) (t : Tables) (starts : list nat) :
  calendar_consistent t ->
  Forall (row_loaded to_datetime t) df ->
  forall n,
    load_loop to_datetime starts df n (conn_of t)
    = (Ok tt, (n + submitted to_datetime starts df)%nat, conn_of t).
Proof.
  intros Hc Hl. induction starts as [| s rest IH]; intros n.
  - cbn. now rewrite Nat.add_0_r.
  - assert (Hb : Forall (row_loaded to_datetime t) (batch_at s df)).
    { rewrite Forall_forall in *. intros row Hrow. apply Hl.
      unfold batch_at, iloc in Hrow. now apply subseteq_take, subseteq_drop in Hrow. }
    pose proof (load_batch_loaded (batch_at s df) n t Hc Hb) as E.
    cbn [load_loop]. cbn zeta.
    change (iloc s (Nat.min (s + batch_size) (length df)) df) with (batch_at s df).
    rewrite E. rewrite IH.
    unfold submitted. cbn. now rewrite Nat.add_assoc.
Qed.

(** The batch loop visits every row: each row of the DataFrame lies in the
    slice taken at one of the batch starts. *)
Lemma batches_cover (df : list ProcessedRow) (row : ProcessedRow) :
  row ∈ df ->
  exists s, s ∈ py_range (length df) batch_size /\ row ∈ batch_at s df.
Proof.
  intros Hin. apply list_elem_of_lookup in Hin as [i Hi].
  pose proof (lookup_lt_Some _ _ _ Hi) as Hlt.
  unfold batch_at, iloc, py_range, batch_size.
  pose proof (Nat.div_mod_eq i 1000) as Ei.
  pose proof (Nat.mod_upper_bound i 1000 ltac:(lia)) as Ri.
  pose proof (Nat.div_mod_eq (length df + 1000 - 1) 1000) as El.
  pose proof (Nat.mod_upper_bound (length df + 1000 - 1) 1000 ltac:(lia)) as Rl.
  exists (i / 1000 * 1000)%nat. split.
  - apply list_elem_of_fmap. exists (i / 1000)%nat. split; [reflexivity |].
    apply elem_of_seq. lia.
  - apply elem_of_take. exists (i mod 1000)%nat. split; [| lia].
    rewrite lookup_drop. rewrite <- Hi. f_equal. lia.
Qed.

(** C3. Loading a batch of ProcessedRecords and then loading the same batch
    again: both loads go through and report the same count, the second one
    leaves the connection and every table exactly as the first one left
    them, the fact table has at most one row per (ship key, calendar key)
    pair, and the rows it held before are still there, in place. The
    state the loads leave satisfies the assumptions again. *)
Theorem reload_is_noop (c : Conn) (processed_df : list ProcessedRow) :
  healthy c ->
  calendar_consistent (tables c) ->
  NoDup (fact_key <$> f_data (tables c)) ->
  exists n c1,
    load_data_to_postgres_bulk to_datetime processed_df c = (Ok n, c1)
    /\ load_data_to_postgres_bulk to_datetime processed_df c1 = (Ok n, c1)
    /\ f_data (tables c) `prefix_of` f_data (tables c1)
    /\ NoDup (fact_key <$> f_data (tables c1))
    /\ healthy c1 /\ calendar_consistent (tables c1).
Proof.
  intros Hh Hc Hnd. rewrite (healthy_is_conn_of c Hh) in *. set (t := tables c) in *.
  cbn [tables conn_of] in *. unfold load_data_to_postgres_bulk.
  destruct processed_df as [| row0 rest] eqn:Hdf.
  { exists 0%nat, (conn_of t). repeat split; auto. }
  rewrite <- Hdf. clear Hdf.
  destruct (load_loop_healthy processed_df (py_range (length processed_df) batch_size) 0%nat t Hc)
    as (t' & E & X & C & D & R).
  exists (submitted to_datetime (py_range (length processed_df) batch_size) processed_df),
    (conn_of t').
  assert (Hl : Forall (row_loaded to_datetime t') processed_df).
  { rewrite Forall_forall. intros row Hrow.
    destruct (batches_cover processed_df row Hrow) as (s & Hs & Hb).
    rewrite Forall_forall in R. specialize (R s Hs).
    rewrite Forall_forall in R. now apply R. }
  rewrite E. rewrite (load_loop_loaded processed_df t' _ C Hl). cbn.
  repeat split; auto. apply X.
Qed.

End LoaderProperties.

Lemma reload_is_noop_witness :
  exists n c1,
    load_data_to_postgres_bulk sample_to_datetime sample_df (conn_of empty_tables) = (Ok n, c1)
    /\ load_data_to_postgres_bulk sample_to_datetime sample_df c1 = (Ok n, c1)
    /\ f_data (tables (conn_of empty_tables)) `prefix_of` f_data (tables c1)
    /\ NoDup (fact_key <$> f_data (tables c1))
    /\ healthy c1 /\ calendar_consistent (tables c1).
Proof.
  apply (reload_is_noop sample_to_datetime (conn_of empty_tables) sample_df).
  - apply healthy_conn_of.
  - exact empty_tables_consistent.
  - cbn. apply NoDup_nil_2.
Defined.

(** The sample batch: two records are submitted, both for the pair
    (SHIP-1, 10:30:45); the fact table keeps the first one, with its
    latitude, and the second load adds nothing. *)
Example sample_load_first_writer_wins :
  match load_data_to_postgres_bulk sample_to_datetime sample_df (conn_of empty_tables) with
  | (Ok n, c1) =>
      n = 2%nat
      /\ (fun r => (fact_key r, f_original_datetime r, head (f_measures r)))
           <$> f_data (tables c1)
         = [(("SHIP-1", sample_timestamp), "2022-01-01 10:30:45",
             Some (Some (FFin (45123457 # 1000000))))]
      /\ load_data_to_postgres_bulk sample_to_datetime sample_df c1 = (Ok 2%nat, c1)
  | _ => False
  end.
Proof. vm_compute. repeat split; reflexivity. Qed.

(** ** Pipeline Orchestrator *)

Section OrchestratorProperties.

Variable float_of_str : string -> option pyfloat.
Variable literal_eval : string -> Result PyObj.
Variable stat_size : Path -> Result Z.
Variable read_excel : Path -> Result (list (gmap string Cell)).
Variable to_datetime : string -> Result (option datetime).
Variable get_excel_files : string -> Result (list Path).

(** Whatever leaves the loader is the [RuntimeError] built by its outer
    handler, after the rollback attempt, with the counter as it stood. *)
Lemma loader_raises_runtime_error (df : list ProcessedRow) (c c' : Conn) (e : exn) :
  load_data_to_postgres_bulk to_datetime df c = (Raise e, c') ->
  exists e0 n c0,
    load_loop to_datetime (py_range (length df) batch_size) df 0%nat c = (Raise e0, n, c0)
    /\ e = RuntimeError n /\ c' = try_rollback c0.
Proof.
  unfold load_data_to_postgres_bulk. destruct df as [| row df]; [discriminate |].
  destruct (load_loop to_datetime _ (row :: df) 0%nat c) as [[[[] | e0] n] c0]; [discriminate |].
  intros [= <- <-]. now exists e0, n, c0.
Qed.

(** A rollback that goes through discards the open transaction. *)
Lemma try_rollback_discards (c : Conn) :
  head (faults c) <> Some true ->
  tables (try_rollback c) = durable c
  /\ durable (try_rollback c) = durable c
  /\ aborted (try_rollback c) = false.
Proof.
  unfold try_rollback, conn_rollback, consume_fault.
  destruct (faults c) as [| [|] rest]; cbn; auto. now intros [].
Qed.

(** Once the files are discovered, [etl] returns: no exception of a file
    reaches the top-level handler. *)
Lemma etl_returns (data_path : string) (files : list Path) (c : Conn) :
  get_excel_files data_path = Ok files ->
  exists total c',
    etl float_of_str literal_eval stat_size read_excel to_datetime get_excel_files
      data_path c = (Ok total, c').
Proof.
  intros H. unfold etl. rewrite H.
  destruct (etl_loop float_of_str literal_eval stat_size read_excel to_datetime files 0%nat c)
    as [total c'].
  now exists total, c'.
Qed.

(** C9, as the code has it. When the Bulk Loader fails outside its
    per-batch guard, it attempts a rollback and raises a [RuntimeError]
    carrying its [records_loaded] counter; the orchestrator's per-file
    handler catches that error and the loop goes on with the next file,
    the total unchanged. [etl] returns normally whenever the files were
    discovered; its top-level handler re-raises what file discovery
    raised. *)
Theorem loader_failure_skips_only_the_file
  (path : Path) (rest : list Path) (total : nat) (c c' : Conn)
  (row : ProcessedRow) (df : list ProcessedRow) (stats : option FileStats) (e : exn) :
  process_xlsx_file float_of_str literal_eval stat_size read_excel path
    = Ok (row :: df, stats) ->
  load_data_to_postgres to_datetime (row :: df) c = (Raise e, c') ->
  (exists e0 n c0,
     load_loop to_datetime (py_range (length (row :: df)) batch_size) (row :: df) 0%nat c
       = (Raise e0, n, c0)
     /\ e = RuntimeError n /\ c' = try_rollback c0
     /\ (head (faults c0) <> Some true -> tables c' = durable c0 /\ aborted c' = false))
  /\ etl_loop float_of_str literal_eval stat_size read_excel to_datetime
       (path :: rest) total c
     = etl_loop float_of_str literal_eval stat_size read_excel to_datetime rest total c'
  /\ (forall data_path files,
        get_excel_files data_path = Ok files ->
        exists total' c'',
          etl float_of_str literal_eval stat_size read_excel to_datetime get_excel_files
            data_path c = (Ok total', c''))
  /\ (forall data_path e',
        get_excel_files data_path = Raise e' ->
        etl float_of_str literal_eval stat_size read_excel to_datetime get_excel_files
          data_path c = (Raise e', c)).
Proof.
  intros Hp Hl. split; [| split; [| split]].
  - destruct (loader_raises_runtime_error _ _ _ _ Hl) as (e0 & n & c0 & E & -> & ->).
    exists e0, n, c0. repeat split; auto; now apply try_rollback_discards.
  - cbn [etl_loop]. unfold etl_file. rewrite Hp, Hl. reflexivity.
  - intros data_path files H. exact (etl_returns data_path files c H).
  - intros data_path e' H. unfold etl. now rewrite H.
Qed.

End OrchestratorProperties.

Lemma sample_sheet_processed :
  process_xlsx_file sample_float_of_str sample_literal_eval sample_stat_size
    sample_read_excel sample_path
  = Ok (sample_processed,
        Some {| total_rows := 5; processed_count := 2; stat_validation_errors := 2;
                stat_processing_errors := 1; success_rate := (2 / 5 * 100)%Q |}).
Proof. vm_compute. reflexivity. Qed.

Lemma sample_loader_failure :
  exists c',
    load_data_to_postgres sample_to_datetime sample_processed sample_faulty_conn
    = (Raise (RuntimeError 2), c')
    /\ d_ship (tables c') = ["SHIP-1"]
    /\ f_data (tables c') = [].
Proof. eexists. split; [| split]; vm_compute; reflexivity. Qed.

Lemma loader_failure_witness :
  exists c',
    (exists e0 n c0,
       load_loop sample_to_datetime (py_range (length sample_processed) batch_size)
         sample_processed 0%nat sample_faulty_conn = (Raise e0, n, c0)
       /\ RuntimeError 2 = RuntimeError n /\ c' = try_rollback c0
       /\ (head (faults c0) <> Some true -> tables c' = durable c0 /\ aborted c' = false))
    /\ etl_loop sample_float_of_str sample_literal_eval sample_stat_size sample_read_excel
         sample_to_datetime [sample_path; sample_path_more] 0%nat sample_faulty_conn
       = etl_loop sample_float_of_str sample_literal_eval sample_stat_size sample_read_excel
           sample_to_datetime [sample_path_more] 0%nat c'
    /\ (forall data_path files,
          sample_get_excel_files data_path = Ok files ->
          exists total' c'',
            etl sample_float_of_str sample_literal_eval sample_stat_size sample_read_excel
              sample_to_datetime sample_get_excel_files data_path sample_faulty_conn
            = (Ok total', c''))
    /\ (forall data_path e',
          sample_get_excel_files data_path = Raise e' ->
          etl sample_float_of_str sample_literal_eval sample_stat_size sample_read_excel
            sample_to_datetime sample_get_excel_files data_path sample_faulty_conn
          = (Raise e', sample_faulty_conn)).
Proof.
  destruct sample_loader_failure as (c' & Hl & _). exists c'.
  exact (loader_failure_skips_only_the_file sample_float_of_str sample_literal_eval
           sample_stat_size sample_read_excel sample_to_datetime sample_get_excel_files
           sample_path [sample_path_more] 0%nat sample_faulty_conn c'
           sample_processed_row [sample_processed_row] _
           (RuntimeError 2) sample_sheet_processed Hl).
Defined.

(** A run over the two sample files on the faulty connection: the loader
    raises on the first file, after two records were submitted, and the
    run still returns, with the record of the second file loaded. *)
Example sample_run_continues :
  match etl sample_float_of_str sample_literal_eval sample_stat_size sample_read_excel
          sample_to_datetime sample_get_excel_files "/data" sample_faulty_conn with
  | (Ok total, c') =>
      total = 1%nat
      /\ f_ship_id <$> f_data (tables c') = ["SHIP-2"]
      /\ f_data (durable c') = f_data (tables c')
  | _ => False
  end.
Proof. vm_compute. repeat split; reflexivity. Qed.

(** The loader raises on the first sample file, and the run does not end
    with an exception: it goes on with the second file and returns. *)
Lemma etl_continues_after_loader_failure :
  ~ (forall c path files df stats e c1,
       sample_get_excel_files "/data" = Ok (path :: files) ->
       process_xlsx_file sample_float_of_str sample_literal_eval sample_stat_size
         sample_read_excel path = Ok (df, stats) ->
       load_data_to_postgres sample_to_datetime df c = (Raise e, c1) ->
       exists e' c',
         etl sample_float_of_str sample_literal_eval sample_stat_size sample_read_excel
           sample_to_datetime sample_get_excel_files "/data" c = (Raise e', c')).
Proof.
  intros H. destruct sample_loader_failure as (c1 & Hl & _).
  destruct (H sample_faulty_conn sample_path [sample_path_more] _ _ _ _
              eq_refl sample_sheet_processed Hl) as (e' & c' & He).
  vm_compute in He. discriminate He.
Qed.

(** * Further properties *)

(** ** Field Validator: what is kept, what is dropped *)

Section ValidatorEdges.

Variable float_of_str : string -> option pyfloat.
Variable literal_eval : string -> Result PyObj.

(** A rule whose key is not the one looked at leaves the entry alone. *)
Lemma validate_loop_other_keys (d : PyObj) (k : string) (rules : list Rule) :
  forall st st',
    k ∉ rules.*1 ->
    validate_loop float_of_str d rules st = Ok st' ->
    fst st' !! k = fst st !! k.
Proof.
  induction rules as [| [k' [[[tgt lo] hi] p]] rest IH]; intros st st' Hk.
  - cbn. now intros [= <-].
  - cbn [validate_loop mbind Result_bind]. cbn in Hk. apply not_elem_of_cons in Hk as [Hne Hk].
    destruct (validate_rule float_of_str d st (k', (tgt, lo, hi, p))) as [st1 |] eqn:Hstep;
      [| discriminate].
    intros Hloop. rewrite (IH st1 st' Hk Hloop).
    apply validate_rule_step in Hstep as [-> | (raw & x & _ & _ & _ & _ & ->)]; [reflexivity |].
    now rewrite lookup_insert_ne by congruence.
Qed.

(** The iteration of a rule whose field holds an in-range number stores
    the rounded number. *)
Lemma validate_rule_keeps (d : gmap string PyVal) (st : ValidatorState)
  (k tgt : string) (lo hi : Q) (p : Z) (raw : PyVal) (x : Q) :
  d !! k = Some raw ->
  is_none_or_nan raw = false ->
  py_float float_of_str raw = Ok (FFin x) ->
  (lo <= x)%Q -> (x <= hi)%Q ->
  validate_rule float_of_str (ODict d) st (k, (tgt, lo, hi, p))
  = Ok (<[k := FFin (py_round_Q x p)]> (fst st), snd st).
Proof.
  intros Hk Hn Hf Hlo Hhi. destruct st as [m n].
  unfold validate_rule, validate_try. cbn [fst snd mbind Result_bind py_contains py_getitem].
  rewrite Hk. rewrite bool_decide_eq_true_2 by eauto. cbn [mbind Result_bind].
  rewrite Hn, Hf. cbn [mbind Result_bind in_range].
  apply Qle_bool_iff in Hlo, Hhi. rewrite Hlo, Hhi. reflexivity.
Qed.

Lemma validate_loop_keeps (d : gmap string PyVal) (k tgt : string) (lo hi : Q) (p : Z)
  (raw : PyVal) (x : Q) (rules : list Rule) :
  d !! k = Some raw ->
  is_none_or_nan raw = false ->
  py_float float_of_str raw = Ok (FFin x) ->
  (lo <= x)%Q -> (x <= hi)%Q ->
  forall st st',
    NoDup (rules.*1) ->
    (k, (tgt, lo, hi, p)) ∈ rules ->
    validate_loop float_of_str (ODict d) rules st = Ok st' ->
    fst st' !! k = Some (FFin (py_round_Q x p)).
Proof.
  intros Hk Hn Hf Hlo Hhi.
  induction rules as [| rule rest IH]; intros st st' Hnd Hin.
  - now apply elem_of_nil in Hin.
  - cbn in Hnd. apply NoDup_cons in Hnd as [Hfresh Hnd].
    cbn [validate_loop mbind Result_bind].
    apply elem_of_cons in Hin as [<- | Hin].
    + rewrite (validate_rule_keeps d st k tgt lo hi p raw x Hk Hn Hf Hlo Hhi).
      intros Hloop. rewrite (validate_loop_other_keys _ k rest _ _ Hfresh Hloop).
      cbn. apply lookup_insert_eq.
    + destruct (validate_rule float_of_str (ODict d) st rule) as [st1 |]; [| discriminate].
      now apply IH.
Qed.

(** X1. A field of the rule table whose raw value is a number inside the
    rule's interval is always kept, rounded to the rule's precision,
    whatever the other fields of the record hold: nulls, text and
    out-of-range numbers elsewhere do not abort the validation. *)
Theorem in_range_field_is_kept (d : gmap string PyVal) (k tgt : string) (lo hi : Q) (p : Z)
  (raw : PyVal) (x : Q) :
  no_huge_int d ->
  (k, (tgt, lo, hi, p)) ∈ validation_rules ->
  d !! k = Some raw ->
  is_none_or_nan raw = false ->
  py_float float_of_str raw = Ok (FFin x) ->
  (lo <= x)%Q -> (x <= hi)%Q ->
  exists m,
    validate_sensor_data float_of_str (ODict d) = Ok m
    /\ m !! k = Some (FFin (py_round_Q x p)).
Proof.
  intros Hd Hin Hk Hn Hf Hlo Hhi.
  destruct (validate_sensor_data_returns float_of_str d Hd) as [m Hm].
  exists m. split; [exact Hm |].
  unfold validate_sensor_data in Hm. cbn [mbind Result_bind] in Hm.
  destruct (validate_loop float_of_str (ODict d) validation_rules (∅, 0%nat)) as [st |] eqn:Hloop;
    [| discriminate].
  injection Hm as <-.
  exact (validate_loop_keeps d k tgt lo hi p raw x validation_rules Hk Hn Hf Hlo Hhi
           _ _ NoDup_source_keys Hin Hloop).
Qed.

(** X2. A field whose raw value is [None], NaN, or anything [float()]
    rejects or turns into nan or an infinity, is absent from the validated
    mapping: it is dropped, not defaulted. *)
Theorem unusable_field_is_dropped (d : PyObj) (m : gmap string pyfloat) (k : string)
  (raw : PyVal) :
  py_getitem k d = Ok raw ->
  (forall x, py_float float_of_str raw <> Ok (FFin x)) ->
  validate_sensor_data float_of_str d = Ok m ->
  m !! k = None.
Proof.
  intros Hg Hbad Hv. destruct (m !! k) as [v |] eqn:Hk; [exfalso | reflexivity].
  destruct (validate_sensor_data_justified float_of_str d m Hv k v Hk)
    as (tgt & lo & hi & p & raw' & x & _ & Hg' & Hf & _).
  rewrite Hg in Hg'. injection Hg' as <-. exact (Hbad x Hf).
Qed.

(** On a dict only the [OverflowError] of [float()] escapes an iteration. *)
Lemma validate_rule_dict_raises (d : gmap string PyVal) (st : ValidatorState)
  (rule : Rule) (e : exn) :
  validate_rule float_of_str (ODict d) st rule = Raise e -> e = OverflowError.
Proof.
  destruct rule as [k [[[tgt lo] hi] p]]. destruct st as [m n].
  unfold validate_rule, validate_try. cbn [fst snd mbind Result_bind py_contains py_getitem].
  destruct (d !! k) as [raw |] eqn:Hk.
  2: { rewrite bool_decide_eq_false_2 by (intros [? ?]; discriminate). discriminate. }
  rewrite bool_decide_eq_true_2 by eauto. cbn [mbind Result_bind].
  destruct raw as [| b | z | f | s |]; cbn [is_none_or_nan py_float].
  - discriminate.
  - cbn. repeat case_match; simplify_eq; discriminate.
  - destruct (float_overflow_bound <=? Z.abs z)%Z; cbn;
      repeat case_match; simplify_eq; congruence.
  - destruct f; cbn; repeat case_match; simplify_eq; discriminate.
  - destruct (float_of_str s) as [f |]; cbn; repeat case_match; simplify_eq; discriminate.
  - cbn. discriminate.
Qed.

Lemma validate_rule_overflow (d : gmap string PyVal) (st : ValidatorState)
  (k : string) (r : string * Q * Q * Z) (z : Z) :
  d !! k = Some (VInt z) ->
  (float_overflow_bound <= Z.abs z)%Z ->
  validate_rule float_of_str (ODict d) st (k, r) = Raise OverflowError.
Proof.
  intros Hk Hz. destruct r as [[[tgt lo] hi] p]. destruct st as [m n].
  unfold validate_rule, validate_try. cbn [fst snd mbind Result_bind py_contains py_getitem].
  rewrite Hk. rewrite bool_decide_eq_true_2 by eauto.
  cbn [mbind Result_bind is_none_or_nan py_float].
  apply Z.leb_le in Hz. rewrite Hz. reflexivity.
Qed.

Lemma validate_loop_overflow (d : gmap string PyVal) (k : string) (r : string * Q * Q * Z)
  (z : Z) (rules : list Rule) :
  d !! k = Some (VInt z) ->
  (float_overflow_bound <= Z.abs z)%Z ->
  forall st,
    (k, r) ∈ rules ->
    validate_loop float_of_str (ODict d) rules st = Raise OverflowError.
Proof.
  intros Hk Hz. induction rules as [| rule rest IH]; intros st Hin.
  - now apply elem_of_nil in Hin.
  - cbn [validate_loop mbind Result_bind].
    destruct (validate_rule float_of_str (ODict d) st rule) as [st1 | e] eqn:Hstep.
    + apply elem_of_cons in Hin as [<- | Hin]; [| now apply IH].
      rewrite (validate_rule_overflow d st k r z Hk Hz) in Hstep. discriminate.
    + now rewrite (validate_rule_dict_raises d st rule e Hstep).
Qed.

(** X3. One integer too large for [float()] under any key of the rule
    table makes the validator raise [OverflowError], which its own handler
    does not catch; the parser's catch-all turns that into the empty
    mapping, so the whole record is lost together with its valid fields. *)
Theorem huge_integer_voids_the_record (d : gmap string PyVal) (k : string) (z : Z) (s : string) :
  k ∈ source_keys ->
  d !! k = Some (VInt z) ->
  (float_overflow_bound <= Z.abs z)%Z ->
  literal_eval (replace_doubled_quotes (strip_chars is_quote s)) = Ok (ODict d) ->
  validate_sensor_data float_of_str (ODict d) = Raise OverflowError
  /\ parse_data_column float_of_str literal_eval (AStr s) = Ok ∅
  /\ parse_data_column float_of_str literal_eval (ADict d) = Ok ∅.
Proof.
  intros Hsrc Hk Hz Hl.
  unfold source_keys in Hsrc. apply list_elem_of_fmap in Hsrc as ([k' r] & -> & Hin). cbn in Hk.
  assert (Hv : validate_sensor_data float_of_str (ODict d) = Raise OverflowError).
  { unfold validate_sensor_data.
    now rewrite (validate_loop_overflow d k' r z validation_rules Hk Hz _ Hin). }
  split; [exact Hv |].
  unfold parse_data_column, parse_try. rewrite Hl. cbn [mbind Result_bind]. rewrite Hv.
  now split.
Qed.

Lemma validate_loop_sequence (has : string -> bool) (rules : list Rule) :
  forall st, exists n, validate_loop float_of_str (OSeq has) rules st = Ok (fst st, n).
Proof.
  induction rules as [| [k [[[tgt lo] hi] p]] rest IH]; intros [m n].
  - exists n. reflexivity.
  - cbn [validate_loop mbind Result_bind]. unfold validate_rule, validate_try.
    cbn [fst snd mbind Result_bind py_contains py_getitem].
    destruct (has k); cbn; apply (IH (m, _)).
Qed.

(** X4. When the embedded text decodes to something that is not a dict (a
    list, a string, a number, ...), the parser returns the empty mapping:
    a container makes every rule fail on the subscript, anything else
    fails on the membership test. *)
Theorem non_dict_literal_gives_empty (s : string) (o : PyObj) :
  literal_eval (replace_doubled_quotes (strip_chars is_quote s)) = Ok o ->
  (forall d, o <> ODict d) ->
  parse_data_column float_of_str literal_eval (AStr s) = Ok ∅
  /\ match o with
     | OSeq _ => validate_sensor_data float_of_str o = Ok ∅
     | _ => validate_sensor_data float_of_str o = Raise TypeError
     end.
Proof.
  intros Hl Hnd. unfold parse_data_column, parse_try. rewrite Hl. cbn [mbind Result_bind].
  destruct o as [d | has |].
  - now destruct (Hnd d).
  - destruct (validate_loop_sequence has validation_rules (∅, 0%nat)) as [n Hn].
    unfold validate_sensor_data. rewrite Hn. cbn. now split.
  - now split.
Qed.

(** X5. Every entry of a mapping returned by the parser is one the
    validator accepted for the decoded record: the rounded value of an
    in-range number found under the same raw key. *)
Theorem parsed_entries_are_validated (data_str : DataArg) (m : gmap string pyfloat)
  (k : string) (v : pyfloat) :
  parse_data_column float_of_str literal_eval data_str = Ok m ->
  m !! k = Some v ->
  exists parsed,
    match data_str with
    | AStr s => literal_eval (replace_doubled_quotes (strip_chars is_quote s)) = Ok parsed
    | ADict d => parsed = ODict d
    | AOtherType => False
    end
    /\ validate_sensor_data float_of_str parsed = Ok m
    /\ exists tgt lo hi p raw x,
         (k, (tgt, lo, hi, p)) ∈ validation_rules
         /\ py_getitem k parsed = Ok raw /\ py_float float_of_str raw = Ok (FFin x)
         /\ v = FFin (py_round_Q x p)
         /\ (lo <= x)%Q /\ (x <= hi)%Q
         /\ (lo <= py_round_Q x p)%Q /\ (py_round_Q x p <= hi)%Q.
Proof.
  intros Hp Hk.
  assert (Hne : m <> ∅) by (intros ->; now rewrite lookup_empty in Hk).
  assert (Hparsed : exists parsed,
             match data_str with
             | AStr s => literal_eval (replace_doubled_quotes (strip_chars is_quote s)) = Ok parsed
             | ADict d => parsed = ODict d
             | AOtherType => False
             end
             /\ validate_sensor_data float_of_str parsed = Ok m).
  { unfold parse_data_column in Hp.
    destruct (parse_try float_of_str literal_eval data_str) as [m' | e] eqn:Ht.
    2: { repeat case_match; congruence. }
    injection Hp as ->. unfold parse_try in Ht.
    destruct data_str as [s | d |]; [| | congruence].
    - destruct (literal_eval _) as [parsed |] eqn:Hl; [| discriminate].
      cbn [mbind Result_bind] in Ht. exists parsed. split; [reflexivity |].
      destruct (validate_sensor_data float_of_str parsed) as [m' |]; [| discriminate].
      cbn in Ht. destruct (size m' =? 0)%nat; congruence.
    - exists (ODict d). split; [reflexivity |]. cbn [mbind Result_bind] in Ht.
      destruct (validate_sensor_data float_of_str (ODict d)) as [m' |]; [| discriminate].
      cbn in Ht. destruct (size m' =? 0)%nat; congruence. }
  destruct Hparsed as (parsed & Hdec & Hv). exists parsed. split; [exact Hdec |].
  split; [exact Hv |].
  destruct (validate_sensor_data_justified float_of_str parsed m Hv k v Hk)
    as (tgt & lo & hi & p & raw & x & Hin & Hg & Hf & Hlo & Hhi & ->).
  exists tgt, lo, hi, p, raw, x.
  destruct (rule_in_table_on_grid _ _ _ _ _ Hin) as (Hp0 & Glo & Ghi).
  destruct (py_round_Q_between lo hi x p Hp0 Glo Ghi Hlo Hhi) as [R1 R2].
  repeat split; auto.
Qed.

End ValidatorEdges.

Lemma sample_record_no_huge_int : no_huge_int sample_record.
Proof.
  intros k z H. unfold sample_record in H.
  repeat (apply lookup_insert_Some in H as [[_ [=]] | [_ H]]).
  apply lookup_singleton_Some in H as [_ [=]].
Qed.

Lemma in_range_field_is_kept_witness :
  exists m,
    validate_sensor_data sample_float_of_str (ODict sample_record) = Ok m
    /\ m !! "LAT" = Some (FFin (py_round_Q (45123456789 # 1000000000) 6)).
Proof.
  apply (in_range_field_is_kept sample_float_of_str sample_record "LAT" "latitude"
           (-(90)) 90 6 (VFloat (FFin (45123456789 # 1000000000)))).
  - exact sample_record_no_huge_int.
  - unfold validation_rules. apply list_elem_of_In. cbn. tauto.
  - vm_compute. reflexivity.
  - reflexivity.
  - reflexivity.
  - vm_compute. discriminate.
  - vm_compute. discriminate.
Defined.

Lemma unusable_field_is_dropped_witness : sample_validated !! "WINDIR" = None.
Proof.
  apply (unusable_field_is_dropped sample_float_of_str (ODict sample_record)
           sample_validated "WINDIR" (VStr "n/a")).
  - vm_compute. reflexivity.
  - intros x. vm_compute. discriminate.
  - exact sample_record_validated.
Defined.

Lemma huge_integer_voids_the_record_witness :
  validate_sensor_data sample_float_of_str (ODict sample_record_huge) = Raise OverflowError
  /\ parse_data_column sample_float_of_str sample_literal_eval_huge (AStr "huge") = Ok ∅
  /\ parse_data_column sample_float_of_str sample_literal_eval_huge (ADict sample_record_huge)
     = Ok ∅.
Proof.
  apply (huge_integer_voids_the_record sample_float_of_str sample_literal_eval_huge
           sample_record_huge "WINDIR" (10 ^ 400) "huge").
  - apply (bool_decide_unpack ("WINDIR" ∈ source_keys)). vm_compute. exact I.
  - vm_compute. reflexivity.
  - vm_compute. discriminate.
  - vm_compute. reflexivity.
Defined.

Lemma non_dict_literal_gives_empty_witness :
  parse_data_column sample_float_of_str sample_literal_eval (AStr "7") = Ok ∅
  /\ validate_sensor_data sample_float_of_str OAtom = Raise TypeError.
Proof.
  apply (non_dict_literal_gives_empty sample_float_of_str sample_literal_eval "7" OAtom).
  - vm_compute. reflexivity.
  - discriminate.
Defined.

Lemma sample_text_parsed :
  parse_data_column sample_float_of_str sample_literal_eval (AStr sample_data_text)
  = Ok sample_validated.
Proof. vm_compute. reflexivity. Qed.

Lemma parsed_entries_are_validated_witness :
  exists parsed,
    sample_literal_eval (replace_doubled_quotes (strip_chars is_quote sample_data_text))
    = Ok parsed
    /\ validate_sensor_data sample_float_of_str parsed = Ok sample_validated
    /\ exists tgt lo hi p raw x,
         ("LAT", (tgt, lo, hi, p)) ∈ validation_rules
         /\ py_getitem "LAT" parsed = Ok raw /\ py_float sample_float_of_str raw = Ok (FFin x)
         /\ FFin (45123457 # 1000000) = FFin (py_round_Q x p)
         /\ (lo <= x)%Q /\ (x <= hi)%Q
         /\ (lo <= py_round_Q x p)%Q /\ (py_round_Q x p <= hi)%Q.
Proof.
  apply (parsed_entries_are_validated sample_float_of_str sample_literal_eval
           (AStr sample_data_text) sample_validated "LAT" (FFin (45123457 # 1000000))).
  - exact sample_text_parsed.
  - vm_compute. reflexivity.
Defined.

(** ** File Processor: which rows become records *)

Section FileProcessorEdges.

Variable float_of_str : string -> option pyfloat.
Variable literal_eval : string -> Result PyObj.
Variable stat_size : Path -> Result Z.
Variable read_excel : Path -> Result (list (gmap string Cell)).

Lemma count_true_cons {A} (f : A -> bool) (a : A) (l : list A) :
  count_true f (a :: l) = ((if f a then 1 else 0) + count_true f l)%nat.
Proof.
  unfold count_true. rewrite filter_cons.
  destruct (f a); [rewrite decide_True | rewrite decide_False]; cbn; congruence.
Qed.

Lemma process_rows_spec (path : Path) (rows : list (gmap string Cell)) :
  forall acc ve pe,
    process_rows float_of_str literal_eval path rows (acc, ve, pe)
    = (acc ++ omap (kept_row float_of_str literal_eval path) rows,
       (ve + count_true (row_rejected float_of_str literal_eval path) rows)%nat,
       (pe + count_true (row_errored float_of_str literal_eval path) rows)%nat).
Proof.
  induction rows as [| row rest IH]; intros acc ve pe.
  - cbn. now rewrite app_nil_r, !Nat.add_0_r.
  - cbn [process_rows omap list_omap]. rewrite !count_true_cons.
    unfold kept_row at 1, row_rejected at 1, row_errored at 1.
    destruct (process_row float_of_str literal_eval path row) as [[r |] | e]; rewrite IH.
    + now rewrite <- app_assoc, !Nat.add_0_l.
    + f_equal. f_equal. lia.
    + f_equal. lia.
Qed.

(** X6. The DataFrame returned for a file holds the records of the
    accepted rows in the order of the sheet; the two logged error counters
    are the numbers of rejected rows and of rows whose processing raised. *)
Theorem processed_rows_keep_sheet_order (path : Path) (size : Z) (df : list (gmap string Cell)) :
  stat_size path = Ok size ->
  read_excel path = Ok df ->
  exists stats,
    process_xlsx_file float_of_str literal_eval stat_size read_excel path
    = Ok (omap (kept_row float_of_str literal_eval path) df, Some stats)
    /\ stat_validation_errors stats
       = count_true (row_rejected float_of_str literal_eval path) df
    /\ stat_processing_errors stats
       = count_true (row_errored float_of_str literal_eval path) df.
Proof.
  intros Hs Hr. unfold process_xlsx_file. rewrite Hs, Hr. cbn [mbind Result_bind].
  rewrite process_rows_spec. cbn [app]. eexists. split; [reflexivity |]. now split.
Qed.

(** The per-row block, read by the cells of the three required columns. *)
Lemma process_row_cells (path : Path) (row : gmap string Cell) :
  process_row float_of_str literal_eval path row
  = match row !! "id_ship", row !! "datetime", row !! "data" with
    | Some c1, Some c2, Some c3 =>
        if truthy (sanitize true c1) && truthy (sanitize true c2) && truthy (sanitize false c3)
        then
          data_dict ← parse_data_column float_of_str literal_eval
                        (AStr (default "" (sanitize false c3)));
          if Nat.eqb (size data_dict) 0 then Ok None
          else
            created_cell ← series_getitem "datetime_created" row;
            Ok (Some (processed_row (default "" (sanitize true c1))
                        (default "" (sanitize true c2))
                        (sanitize true created_cell) data_dict path))
        else Ok None
    | _, _, _ => Ok None
    end.
Proof.
  unfold process_row, validate_input_data, required_columns, series_getitem.
  rewrite !filter_cons, filter_nil.
  destruct (row !! "id_ship") as [c1 |]; [| now rewrite decide_True by reflexivity].
  rewrite decide_False by discriminate.
  destruct (row !! "datetime") as [c2 |]; [| now rewrite decide_True by reflexivity].
  rewrite decide_False by discriminate.
  destruct (row !! "data") as [c3 |]; [| now rewrite decide_True by reflexivity].
  rewrite decide_False by discriminate.
  cbn [negb mbind Result_bind].
  now destruct (truthy (sanitize true c1) && truthy (sanitize true c2)
                && truthy (sanitize false c3)).
Qed.



(** Text made of white space only is empty once trimmed. *)
Lemma strip_chars_all (p : ascii -> bool) (s : string) :
  Forall (fun c => p c = true) (list_ascii_of_string s) -> strip_chars p s = "".
Proof.
  unfold strip_chars. intros H.
  assert (E : lstrip_chars p s = "").
  { induction s as [| c s IH]; [reflexivity |]. cbn in H. apply Forall_cons in H as [Hc H].
    cbn. rewrite Hc. now apply IH. }
  now rewrite E.
Qed.

Lemma truthy_Some (o : option string) :
  truthy o = true -> exists s, o = Some s /\ s <> "".
Proof. destruct o as [[| c s] |]; try discriminate. intros _. now eexists. Qed.

(** What an accepted row went through. *)
Lemma process_row_accepts (path : Path) (row : gmap string Cell) (pr : ProcessedRow) :
  process_row float_of_str literal_eval path row = Ok (Some pr) ->
  exists c1 c2 text created data_dict ship dt,
    row !! "id_ship" = Some c1 /\ sanitize true c1 = Some ship /\ ship <> ""
    /\ row !! "datetime" = Some c2 /\ sanitize true c2 = Some dt /\ dt <> ""
    /\ row !! "data" = Some (CVal text) /\ text <> ""
    /\ row !! "datetime_created" = Some created
    /\ parse_data_column float_of_str literal_eval (AStr text) = Ok data_dict
    /\ data_dict <> ∅
    /\ pr = processed_row ship dt (sanitize true created) data_dict path.
Proof.
  rewrite process_row_cells.
  destruct (row !! "id_ship") as [c1 |]; [| discriminate].
  destruct (row !! "datetime") as [c2 |]; [| discriminate].
  destruct (row !! "data") as [c3 |]; [| discriminate].
  destruct (truthy (sanitize true c1)) eqn:T1; [| discriminate].
  destruct (truthy (sanitize true c2)) eqn:T2; [| discriminate].
  destruct (truthy (sanitize false c3)) eqn:T3; [| discriminate].
  cbn [andb].
  apply truthy_Some in T1 as (ship & E1 & N1). apply truthy_Some in T2 as (dt & E2 & N2).
  apply truthy_Some in T3 as (text & E3 & N3). rewrite E1, E2, E3.
  destruct c3 as [| text']; [discriminate |]. cbn in E3. injection E3 as ->.
  change (default "" (Some ?x)) with x.
  destruct (parse_data_column float_of_str literal_eval (AStr text)) as [data_dict |] eqn:Hp;
    [| discriminate].
  cbn [mbind Result_bind]. destruct (size data_dict =? 0)%nat eqn:Hsz; [discriminate |].
  unfold series_getitem. destruct (row !! "datetime_created") as [created |]; [| discriminate].
  cbn [mbind Result_bind]. intros [= <-].
  exists c1, c2, text, created, data_dict, ship, dt.
  repeat split; auto. intros ->. now rewrite map_size_empty in Hsz.
Qed.

(** Every record of the returned DataFrame comes from a row of the sheet. *)
Lemma processed_record_origin (path : Path) (recs : list ProcessedRow)
  (stats : option FileStats) (pr : ProcessedRow) :
  process_xlsx_file float_of_str literal_eval stat_size read_excel path = Ok (recs, stats) ->
  pr ∈ recs ->
  exists df row,
    read_excel path = Ok df /\ row ∈ df
    /\ process_row float_of_str literal_eval path row = Ok (Some pr).
Proof.
  unfold process_xlsx_file. intros H Hin.
  destruct (stat_size path) as [sz |]; [| discriminate]. cbn [mbind Result_bind] in H.
  destruct (read_excel path) as [df |].
  2: { injection H as <- _. now apply elem_of_nil in Hin. }
  rewrite process_rows_spec in H. cbn [app] in H. injection H as <- _.
  apply list_elem_of_omap in Hin as (row & Hrow & Hk).
  exists df, row. split; [reflexivity |]. split; [exact Hrow |].
  unfold kept_row in Hk.
  destruct (process_row float_of_str literal_eval path row) as [[r |] |]; congruence.
Qed.

(** A non-empty mapping returned by the parser is the validator's. *)
Lemma parse_data_column_validated (data_str : DataArg) (m : gmap string pyfloat) :
  parse_data_column float_of_str literal_eval data_str = Ok m ->
  m <> ∅ ->
  exists parsed, validate_sensor_data float_of_str parsed = Ok m.
Proof.
  intros Hp Hne. unfold parse_data_column in Hp.
  destruct (parse_try float_of_str literal_eval data_str) as [m' | e] eqn:Ht.
  2: { repeat case_match; congruence. }
  injection Hp as ->. unfold parse_try in Ht.
  destruct data_str as [s | d |]; [| | congruence].
  - destruct (literal_eval _) as [parsed |] eqn:Hl; [| discriminate].
    cbn [mbind Result_bind] in Ht. exists parsed.
    destruct (validate_sensor_data float_of_str parsed) as [m' |]; [| discriminate].
    cbn in Ht. destruct (size m' =? 0)%nat; congruence.
  - exists (ODict d). cbn [mbind Result_bind] in Ht.
    destruct (validate_sensor_data float_of_str (ODict d)) as [m' |]; [| discriminate].
    cbn in Ht. destruct (size m' =? 0)%nat; congruence.
Qed.

Lemma fact_columns_field_mapping : fact_columns = field_mapping.*1.
Proof. reflexivity. Qed.

Lemma field_mapping_source_unique (d1 d2 src : string) :
  (d1, src) ∈ field_mapping -> (d2, src) ∈ field_mapping -> d1 = d2.
Proof.
  intros H1 H2.
  assert (N : NoDup ((prod_swap <$> field_mapping).*1)).
  { apply (bool_decide_unpack (NoDup ((prod_swap <$> field_mapping).*1))).
    vm_compute. exact I. }
  assert (S1 : (src, d1) ∈ prod_swap <$> field_mapping).
  { apply list_elem_of_fmap. now exists (d1, src). }
  assert (S2 : (src, d2) ∈ prod_swap <$> field_mapping).
  { apply list_elem_of_fmap. now exists (d2, src). }
  apply (elem_of_list_to_map_1 (M := gmap string) _ _ _ N) in S1, S2. congruence.
Qed.

(** X8. Every record of the DataFrame returned for a file has a non-empty
    ship identifier and timestamp text, names the file as its data source,
    carries an entry (a number or None) for each of the thirty columns the
    loader reads, and has a number in at least one of them. *)
Theorem processed_record_shape (path : Path) (recs : list ProcessedRow)
  (stats : option FileStats) (pr : ProcessedRow) :
  process_xlsx_file float_of_str literal_eval stat_size read_excel path = Ok (recs, stats) ->
  pr ∈ recs ->
  id_ship pr <> "" /\ datetime_str pr <> ""
  /\ data_source pr = name path
  /\ (forall col, col ∈ fact_columns -> is_Some (sensors pr !! col))
  /\ (forall col, is_Some (sensors pr !! col) -> col ∈ fact_columns)
  /\ exists col v, col ∈ fact_columns /\ row_get pr col = Some v.
Proof.
  intros H Hin.
  destruct (processed_record_origin path recs stats pr H Hin) as (df & row & _ & _ & Hrow).
  apply process_row_accepts in Hrow
    as (c1 & c2 & text & created & dd & ship & dt & _ & _ & N1 & _ & _ & N2 & _ & _ & _
        & Hp & Hne & ->).
  cbn [id_ship datetime_str data_source].
  split; [exact N1 |]. split; [exact N2 |]. split; [reflexivity |].
  split; [| split].
  - intros col Hcol. rewrite fact_columns_field_mapping in Hcol.
    apply list_elem_of_fmap in Hcol as ([dst src] & -> & Hm).
    erewrite processed_row_sensor by exact Hm. now eexists.
  - intros col [o Ho]. cbn [sensors processed_row] in Ho.
    apply elem_of_list_to_map_2 in Ho.
    apply list_elem_of_fmap in Ho as ([dst src] & [= -> ->] & Hm).
    rewrite fact_columns_field_mapping. apply list_elem_of_fmap. now exists (dst, src).
  - destruct (map_choose dd Hne) as (k & v & Hk).
    destruct (parse_data_column_validated _ _ Hp Hne) as (parsed & Hv).
    destruct (validate_sensor_data_justified float_of_str parsed dd Hv k v Hk)
      as (tgt & lo & hi & p & raw & x & Hrule & _).
    apply rule_in_field_mapping in Hrule.
    exists tgt, v. split.
    + rewrite fact_columns_field_mapping. apply list_elem_of_fmap. now exists (tgt, k).
    + unfold row_get. erewrite processed_row_sensor by exact Hrule. now rewrite Hk.
Qed.

(** X9. Every number of a record of the returned DataFrame is finite, is
    the rounding of a decoded value to the precision of its column's rule,
    and lies within the bounds of that rule. *)
Theorem processed_measurements_in_range (path : Path) (recs : list ProcessedRow)
  (stats : option FileStats) (pr : ProcessedRow) (col : string) (v : pyfloat) :
  process_xlsx_file float_of_str literal_eval stat_size read_excel path = Ok (recs, stats) ->
  pr ∈ recs ->
  row_get pr col = Some v ->
  exists src lo hi p x,
    (src, (col, lo, hi, p)) ∈ validation_rules
    /\ v = FFin (py_round_Q x p)
    /\ (lo <= x)%Q /\ (x <= hi)%Q
    /\ (lo <= py_round_Q x p)%Q /\ (py_round_Q x p <= hi)%Q.
Proof.
  intros H Hin Hcol.
  destruct (processed_record_origin path recs stats pr H Hin) as (df & row & _ & _ & Hrow).
  apply process_row_accepts in Hrow
    as (c1 & c2 & text & created & dd & ship & dt & _ & _ & _ & _ & _ & _ & _ & _ & _
        & Hp & Hne & ->).
  unfold row_get in Hcol.
  destruct (sensors (processed_row ship dt (sanitize true created) dd path) !! col)
    as [o |] eqn:Ho; [| discriminate].
  cbn in Hcol. subst o. cbn [sensors processed_row] in Ho.
  apply elem_of_list_to_map_2 in Ho.
  apply list_elem_of_fmap in Ho as ([dst src] & [= -> Hk] & Hm). symmetry in Hk.
  destruct (parse_data_column_validated _ _ Hp Hne) as (parsed & Hv).
  destruct (validate_sensor_data_justified float_of_str parsed dd Hv src v Hk)
    as (tgt & lo & hi & p & raw & x & Hrule & _ & _ & Hlo & Hhi & ->).
  pose proof (rule_in_field_mapping _ _ _ _ _ Hrule) as Hm'.
  pose proof (field_mapping_source_unique _ _ _ Hm Hm'). subst tgt.
  destruct (rule_in_table_on_grid _ _ _ _ _ Hrule) as (Hp0 & Glo & Ghi).
  destruct (py_round_Q_between lo hi x p Hp0 Glo Ghi Hlo Hhi) as [R1 R2].
  exists src, lo, hi, p, x. repeat split; auto.
Qed.

End FileProcessorEdges.

Lemma processed_rows_keep_sheet_order_witness :
  exists stats,
    process_xlsx_file sample_float_of_str sample_literal_eval sample_stat_size
      sample_read_excel sample_path
    = Ok (omap (kept_row sample_float_of_str sample_literal_eval sample_path) sample_sheet,
          Some stats)
    /\ stat_validation_errors stats
       = count_true (row_rejected sample_float_of_str sample_literal_eval sample_path)
           sample_sheet
    /\ stat_processing_errors stats
       = count_true (row_errored sample_float_of_str sample_literal_eval sample_path)
           sample_sheet.
Proof.
  apply (processed_rows_keep_sheet_order sample_float_of_str sample_literal_eval
           sample_stat_size sample_read_excel sample_path 4096 sample_sheet).
  - reflexivity.
  - reflexivity.
Defined.


Lemma processed_record_shape_witness :
  id_ship sample_processed_row <> "" /\ datetime_str sample_processed_row <> ""
  /\ data_source sample_processed_row = name sample_path
  /\ (forall col, col ∈ fact_columns -> is_Some (sensors sample_processed_row !! col))
  /\ (forall col, is_Some (sensors sample_processed_row !! col) -> col ∈ fact_columns)
  /\ exists col v, col ∈ fact_columns /\ row_get sample_processed_row col = Some v.
Proof.
  apply (processed_record_shape sample_float_of_str sample_literal_eval sample_stat_size
           sample_read_excel sample_path sample_processed
           (Some {| total_rows := 5; processed_count := 2; stat_validation_errors := 2;
                    stat_processing_errors := 1; success_rate := (2 / 5 * 100)%Q |})
           sample_processed_row).
  - exact sample_sheet_processed.
  - unfold sample_processed. apply list_elem_of_here.
Defined.

Lemma processed_measurements_in_range_witness :
  exists src lo hi p x,
    (src, ("latitude", lo, hi, p)) ∈ validation_rules
    /\ FFin (45123457 # 1000000) = FFin (py_round_Q x p)
    /\ (lo <= x)%Q /\ (x <= hi)%Q
    /\ (lo <= py_round_Q x p)%Q /\ (py_round_Q x p <= hi)%Q.
Proof.
  apply (processed_measurements_in_range sample_float_of_str sample_literal_eval
           sample_stat_size sample_read_excel sample_path sample_processed
           (Some {| total_rows := 5; processed_count := 2; stat_validation_errors := 2;
                    stat_processing_errors := 1; success_rate := (2 / 5 * 100)%Q |})
           sample_processed_row "latitude" (FFin (45123457 # 1000000))).
  - exact sample_sheet_processed.
  - unfold sample_processed. apply list_elem_of_here.
  - vm_compute. reflexivity.
Defined.

(** ** Bulk Loader: the batches *)

Lemma batch_at_take {A} (k : nat) (df : list A) :
  batch_at (k * batch_size) df = take batch_size (drop (k * batch_size) df).
Proof.
  unfold batch_at, iloc.
  destruct (Nat.le_gt_cases (k * batch_size + batch_size) (length df)) as [Hle | Hgt].
  - f_equal. lia.
  - rewrite !take_ge; [reflexivity | |]; rewrite length_drop; lia.
Qed.

Lemma concat_chunks {A} (b : nat) (df : list A) (n : nat) :
  forall k,
    concat ((fun i => take b (drop (i * b) df)) <$> seq k n) = take (n * b) (drop (k * b) df).
Proof.
  induction n as [| n IH]; intros k.
  - reflexivity.
  - cbn [seq fmap list_fmap concat]. rewrite IH.
    replace (S k * b)%nat with (k * b + b)%nat by lia.
    rewrite <- drop_drop. rewrite take_take_drop. f_equal.
Qed.

Lemma batches_concat {A} (df : list A) :
  concat ((fun s => batch_at s df) <$> py_range (length df) batch_size) = df.
Proof.
  unfold py_range. rewrite <- list_fmap_compose.
  rewrite (list_fmap_ext _ (fun i => take batch_size (drop (i * batch_size) df))).
  2: { intros i x _. apply batch_at_take. }
  rewrite concat_chunks. cbn [drop Nat.mul]. apply take_ge.
  unfold batch_size.
  pose proof (Nat.div_mod_eq (length df + 1000 - 1) 1000) as El.
  pose proof (Nat.mod_upper_bound (length df + 1000 - 1) 1000 ltac:(lia)) as Rl.
  lia.
Qed.

(** X10. The batch loop cuts the DataFrame into consecutive slices: put
    back together in the order of the loop they are the DataFrame, no row
    is visited twice or skipped, and every slice holds between one and a
    thousand rows. *)
Theorem batches_partition (df : list ProcessedRow) :
  concat ((fun batch_start => batch_at batch_start df) <$> py_range (length df) batch_size)
  = df
  /\ Forall (fun batch_start =>
               (0 < length (batch_at batch_start df) <= batch_size)%nat)
       (py_range (length df) batch_size).
Proof.
  split; [apply batches_concat |].
  unfold py_range. apply Forall_fmap, Forall_seq. intros k Hk. cbn beta.
  unfold compose. rewrite batch_at_take, length_take, length_drop.
  unfold batch_size in *.
  pose proof (Nat.div_mod_eq (length df + 1000 - 1) 1000) as El.
  pose proof (Nat.mod_upper_bound (length df + 1000 - 1) 1000 ltac:(lia)) as Rl.
  lia.
Qed.

(** ** Storage under faults *)

Lemma keeps_committed_refl (c : Conn) : keeps_committed c c.
Proof. intros H. split; [exact H | apply tables_extend_refl]. Qed.

Lemma keeps_committed_trans (c1 c2 c3 : Conn) :
  keeps_committed c1 c2 -> keeps_committed c2 c3 -> keeps_committed c1 c3.
Proof.
  intros H12 H23 H1. destruct (H12 H1) as [H2 D12]. destruct (H23 H2) as [H3 D23].
  split; [exact H3 | eapply tables_extend_trans; eassumption].
Qed.

Lemma keeps_rows_ret {A} (a : A) : keeps_rows (mret a).
Proof. intros c. apply keeps_committed_refl. Qed.

Lemma keeps_rows_bind {A B} (m : DB A) (k : A -> DB B) :
  keeps_rows m -> (forall a, keeps_rows (k a)) -> keeps_rows (m ≫= k).
Proof.
  intros Hm Hk c. specialize (Hm c). unfold mbind, DB_bind.
  destruct (m c) as [[a | e] c1]; cbn [snd] in *.
  - eapply keeps_committed_trans; [exact Hm | apply Hk].
  - exact Hm.
Qed.

Lemma keeps_rows_conn_cursor : keeps_rows conn_cursor.
Proof.
  intros c H. unfold conn_cursor, consume_fault.
  destruct (faults c) as [| [] rest]; cbn; (split; [exact H | apply tables_extend_refl]).
Qed.

Lemma keeps_rows_cursor_execute {A} (stmt : Tables -> Result (A * Tables)) :
  appends stmt -> keeps_rows (cursor_execute stmt).
Proof.
  intros Hs c H. unfold cursor_execute, consume_fault.
  destruct (faults c) as [| [] rest]; cbn;
    try (split; [exact H | apply tables_extend_refl]);
    (destruct (aborted c); cbn; [split; [exact H | apply tables_extend_refl] |]);
    (destruct (stmt (tables c)) as [[a t'] | e] eqn:E; cbn;
     [| split; [exact H | apply tables_extend_refl]]);
    (split; [| apply tables_extend_refl]);
    unfold transaction_extends; cbn;
    (eapply tables_extend_trans; [exact H | exact (Hs _ _ _ E)]).
Qed.

Lemma keeps_rows_conn_commit : keeps_rows conn_commit.
Proof.
  intros c H. unfold conn_commit, consume_fault.
  destruct (faults c) as [| [] rest]; cbn;
    try (split; [exact H | apply tables_extend_refl]);
    (destruct (aborted c); cbn; unfold transaction_extends; cbn;
     (split; [apply tables_extend_refl | first [apply tables_extend_refl | exact H]])).
Qed.

Lemma keeps_rows_conn_rollback : keeps_rows conn_rollback.
Proof.
  intros c H. unfold conn_rollback, consume_fault.
  destruct (faults c) as [| [] rest]; cbn;
    try (split; [exact H | apply tables_extend_refl]);
    unfold transaction_extends; cbn; (split; apply tables_extend_refl).
Qed.

Lemma keeps_committed_try_rollback (c : Conn) : keeps_committed c (try_rollback c).
Proof. apply keeps_rows_conn_rollback. Qed.

Lemma keeps_rows_get_db_cursor {A} (body : DB A) :
  keeps_rows body -> keeps_rows (get_db_cursor body).
Proof.
  intros Hb c. unfold get_db_cursor.
  pose proof (keeps_rows_conn_cursor c) as H0.
  destruct (conn_cursor c) as [[[] | e] c1]; cbn [snd] in *.
  - specialize (Hb c1). destruct (body c1) as [[a | e] c2]; cbn [snd] in *.
    + eapply keeps_committed_trans; eassumption.
    + eapply keeps_committed_trans; [exact H0 |].
      eapply keeps_committed_trans; [exact Hb | apply keeps_committed_try_rollback].
  - eapply keeps_committed_trans; [exact H0 | apply keeps_committed_try_rollback].
Qed.

Lemma appends_select_ship (ship_id : string) : appends (select_ship ship_id).
Proof. intros t a t' [= _ <-]. apply tables_extend_refl. Qed.

Lemma appends_insert_ship (ship_id : string) : appends (insert_ship ship_id).
Proof.
  intros t a t'. unfold insert_ship. case_bool_decide; [discriminate |].
  intros [= _ <-]. repeat split; cbn; [now apply prefix_app_r | |]; reflexivity.
Qed.

Lemma appends_select_calendar (ts : datetime) : appends (select_calendar ts).
Proof. intros t a t' [= _ <-]. apply tables_extend_refl. Qed.

Lemma appends_insert_calendar (row : CalendarRow) : appends (insert_calendar row).
Proof.
  intros t a t'. unfold insert_calendar. case_bool_decide; [discriminate |].
  intros [= _ <-]. repeat split; cbn; [| now apply prefix_app_r |]; reflexivity.
Qed.

Lemma insert_facts_extend (bulk_data : list FactRow) :
  forall t t', insert_facts bulk_data t = Ok t' -> tables_extend t t'.
Proof.
  induction bulk_data as [| r rest IH]; intros t t' H; cbn in H.
  - injection H as <-. apply tables_extend_refl.
  - case_bool_decide; [now apply IH |].
    destruct (bool_decide _ && bool_decide _); [| discriminate].
    apply IH in H. eapply tables_extend_trans; [| exact H].
    repeat split; cbn; [| | now apply prefix_app_r]; reflexivity.
Qed.

Lemma appends_execute_values (bulk_data : list FactRow) : appends (execute_values bulk_data).
Proof.
  intros t a t'. unfold execute_values.
  destruct (insert_facts bulk_data t) as [t1 |] eqn:E; [| discriminate].
  cbn. intros [= _ <-]. now apply insert_facts_extend in E.
Qed.

Lemma keeps_rows_get_or_create_ship_id (ship_id : string) :
  keeps_rows (get_or_create_ship_id ship_id).
Proof.
  apply keeps_rows_get_db_cursor, keeps_rows_bind.
  - apply keeps_rows_cursor_execute, appends_select_ship.
  - intros result. destruct (head result); [apply keeps_rows_ret |].
    apply keeps_rows_bind; [apply keeps_rows_cursor_execute, appends_insert_ship |].
    intros _. apply keeps_rows_bind; [apply keeps_rows_conn_commit |].
    intros _. apply keeps_rows_ret.
Qed.

Lemma keeps_rows_get_or_create_datetime_id (ts : datetime) :
  keeps_rows (get_or_create_datetime_id ts).
Proof.
  apply keeps_rows_get_db_cursor, keeps_rows_bind.
  - apply keeps_rows_cursor_execute, appends_select_calendar.
  - intros result. destruct (head result); [apply keeps_rows_ret |].
    apply keeps_rows_bind; [apply keeps_rows_cursor_execute, appends_insert_calendar |].
    intros _. apply keeps_rows_bind; [apply keeps_rows_conn_commit |].
    intros _. apply keeps_rows_ret.
Qed.

Lemma keeps_rows_guarded_insert (bulk_data : list FactRow) :
  keeps_rows (guarded_insert bulk_data).
Proof.
  apply keeps_rows_get_db_cursor. intros c.
  pose proof (keeps_rows_cursor_execute _ (appends_execute_values bulk_data) c) as H.
  destruct (cursor_execute (execute_values bulk_data) c) as [[a | e] c1]; cbn [snd] in *.
  - exact H.
  - now destruct (is_IntegrityError e).
Qed.

(** A ship key that is returned is the one asked for. *)
Lemma get_or_create_ship_id_returns (ship_id found : string) (c c' : Conn) :
  get_or_create_ship_id ship_id c = (Ok found, c') -> found = ship_id.
Proof.
  unfold get_or_create_ship_id, get_db_cursor. intros H.
  destruct (conn_cursor c) as [[[] | e] c1]; [| discriminate].
  unfold mbind, DB_bind in H.
  destruct (cursor_execute (select_ship ship_id) c1) as [[result | e] c2] eqn:E1;
    [| discriminate].
  destruct (head result) as [s |] eqn:Hh.
  - cbn in H. injection H as <- _.
    unfold cursor_execute, select_ship in E1.
    destruct (consume_fault c1) as [[] c1']; [discriminate |].
    destruct (aborted c1'); [discriminate |]. injection E1 as <- _.
    apply head_Some_elem_of in Hh. now apply list_elem_of_filter in Hh as [-> _].
  - destruct (cursor_execute (insert_ship ship_id) c2) as [[[] | e] c3]; [| discriminate].
    destruct (conn_commit c3) as [[[] | e] c4]; [| discriminate].
    cbn in H. congruence.
Qed.

(** ** Bulk Loader under faults *)

Section LoaderEdges.

Variable to_datetime : string -> Result (option datetime).

Lemma keeps_rows_prepare_row (row : ProcessedRow) : keeps_rows (prepare_row to_datetime row).
Proof.
  intros c. unfold prepare_row.
  destruct (to_datetime (datetime_str row)) as [[ts |] | e];
    try apply keeps_committed_refl.
  apply (keeps_rows_bind (get_or_create_ship_id (id_ship row))).
  - apply keeps_rows_get_or_create_ship_id.
  - intros ship_id. apply keeps_rows_bind; [apply keeps_rows_get_or_create_datetime_id |].
    intros k. apply keeps_rows_ret.
Qed.

(** A record that is prepared comes from a row with a valid timestamp. *)
Lemma prepare_row_record (row : ProcessedRow) (r : FactRow) (c c' : Conn) :
  prepare_row to_datetime row c = (Ok (Some r), c') ->
  valid_timestamp to_datetime row = true /\ record_of r row.
Proof.
  unfold prepare_row, valid_timestamp.
  destruct (to_datetime (datetime_str row)) as [[ts |] | e]; try discriminate.
  unfold mbind, DB_bind.
  destruct (get_or_create_ship_id (id_ship row) c) as [[s | e] c1] eqn:E1; [| discriminate].
  apply get_or_create_ship_id_returns in E1 as ->.
  destruct (get_or_create_datetime_id ts c1) as [[k | e] c2]; [| discriminate].
  cbn. intros [= <- _]. split; [reflexivity | now exists k].
Qed.

Lemma prepare_bulk_loop_returns (rows : list ProcessedRow) :
  forall acc c,
    exists recs kept c',
      prepare_bulk_loop to_datetime rows acc c = (Ok (acc ++ recs), c')
      /\ kept `sublist_of` filter (fun row => valid_timestamp to_datetime row = true) rows
      /\ Forall2 record_of recs kept
      /\ keeps_committed c c'.
Proof.
  induction rows as [| row rest IH]; intros acc c.
  - exists [], [], c. cbn. rewrite app_nil_r.
    split; [reflexivity |]. split; [apply sublist_nil |].
    split; [constructor | apply keeps_committed_refl].
  - cbn [prepare_bulk_loop]. pose proof (keeps_rows_prepare_row row c) as Hk.
    destruct (prepare_row to_datetime row c) as [[[r |] | e] c1] eqn:E; cbn [snd] in Hk.
    + destruct (prepare_row_record _ _ _ _ E) as [Hv Hr].
      destruct (IH (acc ++ [r]) c1) as (recs & kept & c' & E' & S & F & K).
      exists (r :: recs), (row :: kept), c'. rewrite E', <- app_assoc.
      split; [reflexivity |]. rewrite filter_cons, decide_True by exact Hv.
      split; [now apply sublist_skip |]. split; [now constructor |].
      eapply keeps_committed_trans; eassumption.
    + destruct (IH acc c1) as (recs & kept & c' & E' & S & F & K).
      exists recs, kept, c'. split; [exact E' |]. rewrite filter_cons.
      split; [case_decide; [now apply sublist_cons | exact S] |].
      split; [exact F | eapply keeps_committed_trans; eassumption].
    + destruct (IH acc c1) as (recs & kept & c' & E' & S & F & K).
      exists recs, kept, c'. split; [exact E' |]. rewrite filter_cons.
      split; [case_decide; [now apply sublist_cons | exact S] |].
      split; [exact F | eapply keeps_committed_trans; eassumption].
Qed.

(** X11. Preparing a batch never raises, whatever the connection does: it
    returns records for some of the rows with a valid timestamp, in the
    order of the rows, each built from its row with the row's own ship
    identifier, so at most one record per such row. *)
Theorem prepare_bulk_data_never_raises (processed_df : list ProcessedRow) (c : Conn) :
  exists bulk_data kept c',
    prepare_bulk_data to_datetime processed_df c = (Ok bulk_data, c')
    /\ kept `sublist_of` filter (fun row => valid_timestamp to_datetime row = true) processed_df
    /\ Forall2 record_of bulk_data kept
    /\ (length bulk_data <= valid_rows to_datetime processed_df)%nat.
Proof.
  destruct (prepare_bulk_loop_returns processed_df [] c) as (recs & kept & c' & E & S & F & K).
  exists recs, kept, c'. split; [exact E |]. split; [exact S |]. split; [exact F |].
  rewrite (Forall2_length _ _ _ F). unfold valid_rows. now apply sublist_length.
Qed.

Lemma load_batch_bounds (batch : list ProcessedRow) (n : nat) (c : Conn) :
  exists r n' c',
    load_batch to_datetime batch n c = (r, n', c')
    /\ (n <= n' <= n + valid_rows to_datetime batch)%nat
    /\ keeps_committed c c'.
Proof.
  unfold load_batch, prepare_bulk_data.
  destruct (prepare_bulk_loop_returns batch [] c) as (recs & kept & c1 & E & S & F & K).
  cbn [app] in E. rewrite E.
  assert (L : (length recs <= valid_rows to_datetime batch)%nat).
  { rewrite (Forall2_length _ _ _ F). unfold valid_rows. now apply sublist_length. }
  destruct recs as [| r recs].
  { exists (Ok tt), n, c1. split; [reflexivity |]. split; [lia | exact K]. }
  pose proof (keeps_rows_guarded_insert (r :: recs) c1) as Kg.
  destruct (guarded_insert (r :: recs) c1) as [[[] | e] c2]; cbn [snd] in Kg.
  - pose proof (keeps_rows_conn_commit c2) as Kc.
    destruct (conn_commit c2) as [[[] | e] c3]; cbn [snd] in Kc;
      eexists _, _, c3; (split; [reflexivity |]); (split; [lia |]);
      (eapply keeps_committed_trans; [exact K |]);
      (eapply keeps_committed_trans; eassumption).
  - exists (Ok tt), n, c2. split; [reflexivity |]. split; [lia |].
    eapply keeps_committed_trans; eassumption.
  - exists (Raise e), n, c2. split; [reflexivity |]. split; [lia |].
    eapply keeps_committed_trans; eassumption.
Qed.

Lemma submitted_cons (s : nat) (rest : list nat) (df : list ProcessedRow) :
  submitted to_datetime (s :: rest) df
  = (valid_rows to_datetime (batch_at s df) + submitted to_datetime rest df)%nat.
Proof. reflexivity. Qed.

Lemma load_loop_bounds (df : list ProcessedRow) (starts : list nat) :
  forall n c,
    exists r n' c',
      load_loop to_datetime starts df n c = (r, n', c')
      /\ (n <= n' <= n + submitted to_datetime starts df)%nat
      /\ keeps_committed c c'.
Proof.
  induction starts as [| s rest IH]; intros n c.
  - exists (Ok tt), n, c. split; [reflexivity |]. split; [lia | apply keeps_committed_refl].
  - cbn [load_loop]. cbn zeta.
    change (iloc s (Nat.min (s + batch_size) (length df)) df) with (batch_at s df).
    destruct (load_batch_bounds (batch_at s df) n c) as (r & n1 & c1 & E & B & K).
    rewrite E, submitted_cons.
    destruct r as [[] | e].
    + destruct (IH n1 c1) as (r' & n' & c' & E' & B' & K').
      exists r', n', c'. split; [exact E' |]. split; [lia |].
      eapply keeps_committed_trans; eassumption.
    + exists (Raise e), n1, c1. split; [reflexivity |]. split; [lia | exact K].
Qed.

Lemma valid_rows_app (l1 l2 : list ProcessedRow) :
  valid_rows to_datetime (l1 ++ l2)
  = (valid_rows to_datetime l1 + valid_rows to_datetime l2)%nat.
Proof. unfold valid_rows. now rewrite filter_app, length_app. Qed.

Lemma valid_rows_concat (ls : list (list ProcessedRow)) :
  valid_rows to_datetime (concat ls) = sum_list (valid_rows to_datetime <$> ls).
Proof.
  induction ls as [| l ls IH]; [reflexivity |].
  cbn [concat fmap list_fmap sum_list sum_list_with]. now rewrite valid_rows_app, IH.
Qed.

Lemma valid_rows_length (df : list ProcessedRow) :
  (valid_rows to_datetime df <= length df)%nat.
Proof. unfold valid_rows. apply length_filter. Qed.

(** Over all batches the loop submits the rows with a valid timestamp. *)
Lemma submitted_all (df : list ProcessedRow) :
  submitted to_datetime (py_range (length df) batch_size) df = valid_rows to_datetime df.
Proof.
  assert (H : valid_rows to_datetime
                (concat ((fun s => batch_at s df) <$> py_range (length df) batch_size))
              = valid_rows to_datetime df) by now rewrite batches_concat.
  rewrite <- H, valid_rows_concat. unfold submitted. now rewrite <- list_fmap_compose.
Qed.

Lemma load_bounds (df : list ProcessedRow) (c : Conn) :
  exists n c',
    (load_data_to_postgres_bulk to_datetime df c = (Ok n, c')
     \/ load_data_to_postgres_bulk to_datetime df c = (Raise (RuntimeError n), c'))
    /\ (n <= valid_rows to_datetime df)%nat
    /\ keeps_committed c c'.
Proof.
  unfold load_data_to_postgres_bulk. destruct df as [| row0 rest] eqn:Hdf.
  { exists 0%nat, c. split; [now left |]. split; [lia | apply keeps_committed_refl]. }
  rewrite <- Hdf. clear Hdf.
  destruct (load_loop_bounds df (py_range (length df) batch_size) 0%nat c)
    as (r & n & c' & E & B & K).
  rewrite E, submitted_all in *. destruct r as [[] | e].
  - exists n, c'. split; [now left |]. split; [lia | exact K].
  - exists n, (try_rollback c'). split; [now right |]. split; [lia |].
    eapply keeps_committed_trans; [exact K | apply keeps_committed_try_rollback].
Qed.

(** X12. Whatever the connection does, the loader either returns a count
    or raises RuntimeError with the count reached, nothing else; the count
    never exceeds the number of rows with a valid timestamp, hence the
    number of rows. *)
Theorem loader_count_is_bounded (processed_df : list ProcessedRow) (c : Conn) :
  exists records_loaded c',
    (load_data_to_postgres_bulk to_datetime processed_df c = (Ok records_loaded, c')
     \/ load_data_to_postgres_bulk to_datetime processed_df c
        = (Raise (RuntimeError records_loaded), c'))
    /\ (records_loaded <= valid_rows to_datetime processed_df)%nat
    /\ (valid_rows to_datetime processed_df <= length processed_df)%nat.
Proof.
  destruct (load_bounds processed_df c) as (n & c' & E & B & _).
  exists n, c'. split; [exact E |]. split; [exact B | apply valid_rows_length].
Qed.

(** X13. The loader loses no committed row, whatever fails: on a
    connection whose open transaction holds the committed rows, the rows
    committed before the call are committed after it, in place, also when
    the call raises, and the open transaction holds them again. *)
Theorem loader_keeps_committed_rows (processed_df : list ProcessedRow) (c : Conn) :
  transaction_extends c ->
  transaction_extends (snd (load_data_to_postgres_bulk to_datetime processed_df c))
  /\ tables_extend (durable c)
       (durable (snd (load_data_to_postgres_bulk to_datetime processed_df c))).
Proof.
  intros H. destruct (load_bounds processed_df c) as (n & c' & [E | E] & _ & K);
    rewrite E; cbn [snd]; exact (K H).
Qed.

(** A load on a healthy connection. *)
Lemma load_healthy (df : list ProcessedRow) (t : Tables) :
  calendar_consistent t ->
  exists t',
    load_data_to_postgres_bulk to_datetime df (conn_of t)
    = (Ok (valid_rows to_datetime df), conn_of t')
    /\ tables_extend t t' /\ calendar_consistent t'
    /\ Forall (row_loaded to_datetime t') df.
Proof.
  intros Hc. unfold load_data_to_postgres_bulk.
  destruct df as [| row0 rest] eqn:Hdf.
  { exists t. split; [reflexivity |]. split; [apply tables_extend_refl |].
    split; [exact Hc | constructor]. }
  rewrite <- Hdf. clear Hdf.
  destruct (load_loop_healthy to_datetime df (py_range (length df) batch_size) 0%nat t Hc)
    as (t' & E & X & C & D & R).
  exists t'. rewrite E, submitted_all. cbn [Nat.add].
  split; [reflexivity |]. split; [exact X |]. split; [exact C |].
  rewrite Forall_forall. intros row Hrow.
  destruct (batches_cover df row Hrow) as (s & Hs & Hb).
  rewrite Forall_forall in R. specialize (R s Hs).
  rewrite Forall_forall in R. now apply R.
Qed.

(** A load of rows that are all loaded. *)
Lemma load_loaded (df : list ProcessedRow) (t : Tables) :
  calendar_consistent t ->
  Forall (row_loaded to_datetime t) df ->
  load_data_to_postgres_bulk to_datetime df (conn_of t)
  = (Ok (valid_rows to_datetime df), conn_of t).
Proof.
  intros Hc Hl. unfold load_data_to_postgres_bulk.
  destruct df as [| row0 rest] eqn:Hdf; [reflexivity |].
  rewrite <- Hdf in *. clear Hdf.
  now rewrite (load_loop_loaded to_datetime df t _ Hc Hl), submitted_all.
Qed.

(** X14. On a healthy connection the loader returns the number of rows
    with a valid timestamp, whether or not the fact table took them; it
    leaves the connection healthy, keeps every row of every table in
    place, and afterwards each row with a valid timestamp has its ship
    row, a calendar row of its minute and a fact row for that pair. *)
Theorem healthy_load_counts_valid_rows (processed_df : list ProcessedRow) (c : Conn) :
  healthy c ->
  calendar_consistent (tables c) ->
  exists c',
    load_data_to_postgres_bulk to_datetime processed_df c
    = (Ok (valid_rows to_datetime processed_df), c')
    /\ healthy c' /\ calendar_consistent (tables c')
    /\ tables_extend (tables c) (tables c')
    /\ Forall (row_loaded to_datetime (tables c')) processed_df.
Proof.
  intros Hh Hc. rewrite (healthy_is_conn_of c Hh) in *. set (t := tables c) in *.
  cbn [tables conn_of] in *.
  destruct (load_healthy processed_df t Hc) as (t' & E & X & C & R).
  exists (conn_of t'). split; [exact E |]. split; [apply healthy_conn_of |].
  split; [exact C |]. split; [exact X | exact R].
Qed.

End LoaderEdges.

Lemma loader_keeps_committed_rows_witness :
  transaction_extends
    (snd (load_data_to_postgres_bulk sample_to_datetime sample_processed sample_faulty_conn))
  /\ tables_extend (durable sample_faulty_conn)
       (durable (snd (load_data_to_postgres_bulk sample_to_datetime sample_processed
                        sample_faulty_conn))).
Proof.
  apply (loader_keeps_committed_rows sample_to_datetime sample_processed sample_faulty_conn).
  exact (tables_extend_refl empty_tables).
Defined.

Lemma healthy_load_counts_valid_rows_witness :
  exists c',
    load_data_to_postgres_bulk sample_to_datetime sample_df (conn_of empty_tables)
    = (Ok (valid_rows sample_to_datetime sample_df), c')
    /\ healthy c' /\ calendar_consistent (tables c')
    /\ tables_extend (tables (conn_of empty_tables)) (tables c')
    /\ Forall (row_loaded sample_to_datetime (tables c')) sample_df.
Proof.
  apply (healthy_load_counts_valid_rows sample_to_datetime sample_df (conn_of empty_tables)).
  - apply healthy_conn_of.
  - exact empty_tables_consistent.
Defined.

(** ** Pipeline Orchestrator: whole runs *)

Section OrchestratorEdges.

Variable float_of_str : string -> option pyfloat.
Variable literal_eval : string -> Result PyObj.
Variable stat_size : Path -> Result Z.
Variable read_excel : Path -> Result (list (gmap string Cell)).
Variable to_datetime : string -> Result (option datetime).
Variable get_excel_files : string -> Result (list Path).

Lemma omap_kept_none (path : Path) (df : list (gmap string Cell)) :
  Forall (fun row => kept_row float_of_str literal_eval path row = None) df ->
  omap (kept_row float_of_str literal_eval path) df = [].
Proof.
  induction 1 as [| row rest Hrow _ IH]; [reflexivity |].
  cbn [omap list_omap]. now rewrite Hrow.
Qed.

(** X15. A file that gives no record, because its size or its sheet cannot
    be read or because none of its rows is accepted, is skipped: the
    running total and the connection are left as they were and the loader
    is not called. *)
Theorem file_without_records_is_skipped (path : Path) (total_records : nat) (c : Conn) :
  no_record float_of_str literal_eval stat_size read_excel path ->
  etl_file float_of_str literal_eval stat_size read_excel to_datetime path total_records c
  = (total_records, c).
Proof.
  unfold no_record, etl_file, process_xlsx_file. intros H.
  destruct (stat_size path) as [sz |]; [| reflexivity]. cbn [mbind Result_bind].
  destruct (read_excel path) as [df |]; [| reflexivity].
  rewrite process_rows_spec. cbn [app]. now rewrite (omap_kept_none path df H).
Qed.

Lemma etl_file_records (path : Path) (total_records : nat) (c : Conn) :
  etl_file float_of_str literal_eval stat_size read_excel to_datetime path total_records c
  = match file_records float_of_str literal_eval stat_size read_excel path with
    | [] => (total_records, c)
    | df_data =>
        match load_data_to_postgres to_datetime df_data c with
        | (Ok records_loaded, c') => ((total_records + records_loaded)%nat, c')
        | (Raise _, c') => (total_records, c')
        end
    end.
Proof.
  unfold etl_file, file_records.
  now destruct (process_xlsx_file float_of_str literal_eval stat_size read_excel path)
    as [[[| row df] stats] | e].
Qed.

Lemma etl_file_keeps (path : Path) (total_records : nat) (c : Conn) :
  keeps_committed c
    (snd (etl_file float_of_str literal_eval stat_size read_excel to_datetime path
            total_records c)).
Proof.
  rewrite etl_file_records.
  destruct (file_records float_of_str literal_eval stat_size read_excel path)
    as [| row df]; [apply keeps_committed_refl |].
  unfold load_data_to_postgres.
  destruct (load_bounds to_datetime (row :: df) c) as (n & c' & [E | E] & _ & K);
    rewrite E; exact K.
Qed.

Lemma etl_loop_keeps (files : list Path) :
  forall total_records c,
    keeps_committed c
      (snd (etl_loop float_of_str literal_eval stat_size read_excel to_datetime files
              total_records c)).
Proof.
  induction files as [| path rest IH]; intros total c; [apply keeps_committed_refl |].
  cbn [etl_loop]. pose proof (etl_file_keeps path total c) as K.
  destruct (etl_file float_of_str literal_eval stat_size read_excel to_datetime path total c)
    as [total1 c1]. cbn [snd] in K.
  eapply keeps_committed_trans; [exact K | apply IH].
Qed.

(** X16. A run loses no committed row, whatever fails in it: the rows
    committed before the run are committed after it, in place, whether
    the run ends normally or raises. *)
Theorem etl_keeps_committed_rows (data_path : string) (c : Conn) :
  transaction_extends c ->
  transaction_extends
    (snd (etl float_of_str literal_eval stat_size read_excel to_datetime get_excel_files
            data_path c))
  /\ tables_extend (durable c)
       (durable (snd (etl float_of_str literal_eval stat_size read_excel to_datetime
                        get_excel_files data_path c))).
Proof.
  intros H. unfold etl. destruct (get_excel_files data_path) as [files | e].
  - pose proof (etl_loop_keeps files 0%nat c) as K.
    destruct (etl_loop float_of_str literal_eval stat_size read_excel to_datetime files
                0%nat c) as [total c']. cbn [snd] in *. exact (K H).
  - cbn [snd]. exact (keeps_committed_refl c H).
Qed.

Lemma etl_file_healthy (path : Path) (total_records : nat) (t : Tables) :
  calendar_consistent t ->
  exists t',
    etl_file float_of_str literal_eval stat_size read_excel to_datetime path total_records
      (conn_of t)
    = ((total_records
        + valid_rows to_datetime
            (file_records float_of_str literal_eval stat_size read_excel path))%nat,
       conn_of t')
    /\ tables_extend t t' /\ calendar_consistent t'
    /\ Forall (row_loaded to_datetime t')
         (file_records float_of_str literal_eval stat_size read_excel path).
Proof.
  intros Hc. rewrite etl_file_records.
  destruct (file_records float_of_str literal_eval stat_size read_excel path)
    as [| row df] eqn:Hf.
  { exists t. rewrite Nat.add_0_r. split; [reflexivity |].
    split; [apply tables_extend_refl |]. split; [exact Hc | constructor]. }
  unfold load_data_to_postgres.
  destruct (load_healthy to_datetime (row :: df) t Hc) as (t' & E & X & C & R).
  exists t'. now rewrite E.
Qed.

Lemma etl_file_loaded (path : Path) (total_records : nat) (t : Tables) :
  calendar_consistent t ->
  Forall (row_loaded to_datetime t)
    (file_records float_of_str literal_eval stat_size read_excel path) ->
  etl_file float_of_str literal_eval stat_size read_excel to_datetime path total_records
    (conn_of t)
  = ((total_records
      + valid_rows to_datetime
          (file_records float_of_str literal_eval stat_size read_excel path))%nat,
     conn_of t).
Proof.
  intros Hc Hl. rewrite etl_file_records.
  destruct (file_records float_of_str literal_eval stat_size read_excel path)
    as [| row df] eqn:Hf.
  { now rewrite Nat.add_0_r. }
  unfold load_data_to_postgres. now rewrite (load_loaded to_datetime (row :: df) t Hc Hl).
Qed.

Lemma etl_loop_healthy (files : list Path) :
  forall total_records t,
    calendar_consistent t ->
    exists t',
      etl_loop float_of_str literal_eval stat_size read_excel to_datetime files total_records
        (conn_of t)
      = ((total_records
          + sum_list ((fun path =>
                         valid_rows to_datetime
                           (file_records float_of_str literal_eval stat_size read_excel path))
                        <$> files))%nat,
         conn_of t')
      /\ tables_extend t t' /\ calendar_consistent t'
      /\ Forall (fun path =>
                   Forall (row_loaded to_datetime t')
                     (file_records float_of_str literal_eval stat_size read_excel path))
           files.
Proof.
  induction files as [| path rest IH]; intros total t Hc.
  - exists t. cbn. rewrite Nat.add_0_r. split; [reflexivity |].
    split; [apply tables_extend_refl |]. split; [exact Hc | constructor].
  - destruct (etl_file_healthy path total t Hc) as (t1 & E & X & C & R).
    destruct (IH (total + valid_rows to_datetime
                            (file_records float_of_str literal_eval stat_size read_excel
                               path))%nat t1 C) as (t' & E' & X' & C' & R').
    exists t'. cbn [etl_loop]. rewrite E, E'.
    split; [cbn; now rewrite Nat.add_assoc |].
    split; [eapply tables_extend_trans; eassumption |]. split; [exact C' |].
    constructor; [| exact R'].
    eapply Forall_impl; [exact R |]. intros row. now apply row_loaded_extend.
Qed.

Lemma etl_loop_loaded (files : list Path) (t : Tables) :
  calendar_consistent t ->
  Forall (fun path =>
            Forall (row_loaded to_datetime t)
              (file_records float_of_str literal_eval stat_size read_excel path))
    files ->
  forall total_records,
    etl_loop float_of_str literal_eval stat_size read_excel to_datetime files total_records
      (conn_of t)
    = ((total_records
        + sum_list ((fun path =>
                       valid_rows to_datetime
                         (file_records float_of_str literal_eval stat_size read_excel path))
                      <$> files))%nat,
       conn_of t).
Proof.
  intros Hc Hl. induction Hl as [| path rest Hp _ IH]; intros total.
  - cbn. now rewrite Nat.add_0_r.
  - cbn [etl_loop]. rewrite (etl_file_loaded path total t Hc Hp), IH.
    cbn. now rewrite Nat.add_assoc.
Qed.

(** X17. On a healthy connection a run over the listed files ends
    normally with, as its total, the number of accepted rows with a valid
    timestamp over all files; it leaves the connection healthy and keeps
    every earlier row in place; and running it again over the same files
    gives the same total and changes nothing. *)
Theorem etl_rerun_is_noop (data_path : string) (files : list Path) (c : Conn) :
  healthy c ->
  calendar_consistent (tables c) ->
  get_excel_files data_path = Ok files ->
  exists c',
    let total :=
      sum_list ((fun path =>
                   valid_rows to_datetime
                     (file_records float_of_str literal_eval stat_size read_excel path))
                  <$> files) in
    etl float_of_str literal_eval stat_size read_excel to_datetime get_excel_files
      data_path c = (Ok total, c')
    /\ etl float_of_str literal_eval stat_size read_excel to_datetime get_excel_files
         data_path c' = (Ok total, c')
    /\ healthy c' /\ calendar_consistent (tables c')
    /\ tables_extend (tables c) (tables c').
Proof.
  intros Hh Hc Hf. rewrite (healthy_is_conn_of c Hh) in *. set (t := tables c) in *.
  cbn [tables conn_of] in *.
  destruct (etl_loop_healthy files 0%nat t Hc) as (t' & E & X & C & R).
  exists (conn_of t'). cbn zeta. unfold etl. rewrite Hf, E.
  rewrite (etl_loop_loaded files t' C R 0%nat). cbn [Nat.add tables conn_of].
  split; [reflexivity |]. split; [reflexivity |]. split; [apply healthy_conn_of |].
  split; [exact C | exact X].
Qed.

End OrchestratorEdges.

Lemma file_without_records_is_skipped_witness :
  etl_file sample_float_of_str sample_literal_eval sample_stat_size sample_read_excel
    sample_to_datetime sample_path_absent 7 sample_faulty_conn
  = (7%nat, sample_faulty_conn).
Proof.
  apply (file_without_records_is_skipped sample_float_of_str sample_literal_eval
           sample_stat_size sample_read_excel sample_to_datetime sample_path_absent 7
           sample_faulty_conn).
  exact I.
Defined.

Lemma etl_keeps_committed_rows_witness :
  transaction_extends
    (snd (etl sample_float_of_str sample_literal_eval sample_stat_size sample_read_excel
            sample_to_datetime sample_get_excel_files "/data" sample_faulty_conn))
  /\ tables_extend (durable sample_faulty_conn)
       (durable (snd (etl sample_float_of_str sample_literal_eval sample_stat_size
                        sample_read_excel sample_to_datetime sample_get_excel_files "/data"
                        sample_faulty_conn))).
Proof.
  apply (etl_keeps_committed_rows sample_float_of_str sample_literal_eval sample_stat_size
           sample_read_excel sample_to_datetime sample_get_excel_files "/data"
           sample_faulty_conn).
  exact (tables_extend_refl empty_tables).
Defined.

Lemma etl_rerun_is_noop_witness :
  exists c',
    let total :=
      sum_list ((fun path =>
                   valid_rows sample_to_datetime
                     (file_records sample_float_of_str sample_literal_eval sample_stat_size
                        sample_read_excel path))
                  <$> [sample_path; sample_path_more]) in
    etl sample_float_of_str sample_literal_eval sample_stat_size sample_read_excel
      sample_to_datetime sample_get_excel_files "/data" (conn_of empty_tables)
    = (Ok total, c')
    /\ etl sample_float_of_str sample_literal_eval sample_stat_size sample_read_excel
         sample_to_datetime sample_get_excel_files "/data" c' = (Ok total, c')
    /\ healthy c' /\ calendar_consistent (tables c')
    /\ tables_extend (tables (conn_of empty_tables)) (tables c').
Proof.
  apply (etl_rerun_is_noop sample_float_of_str sample_literal_eval sample_stat_size
           sample_read_excel sample_to_datetime sample_get_excel_files "/data"
           [sample_path; sample_path_more] (conn_of empty_tables)).
  - apply healthy_conn_of.
  - exact empty_tables_consistent.
  - reflexivity.
Defined.

(** The run over the two sample files: three accepted rows, all with a
    valid timestamp, two of them for the same ship and minute. *)
Example sample_run_total :
  match etl sample_float_of_str sample_literal_eval sample_stat_size sample_read_excel
          sample_to_datetime sample_get_excel_files "/data" (conn_of empty_tables) with
  | (Ok total, c') => total = 3%nat /\ length (f_data (tables c')) = 2%nat
  | _ => False
  end.
Proof. vm_compute. split; reflexivity. Qed.

(** ** File discovery *)

Lemma string_compare_trans_le (a b c : string) :
  String.leb a b = true -> String.leb b c = true -> String.leb a c = true.
Proof.
  unfold String.leb. revert b c.
  induction a as [| x a IH]; intros [| y b] [| z c]; cbn; try congruence.
  unfold Ascii.compare.
  destruct (N.compare_spec (N_of_ascii x) (N_of_ascii y)) as [Exy | Lxy | Gxy];
    destruct (N.compare_spec (N_of_ascii y) (N_of_ascii z)) as [Eyz | Lyz | Gyz];
    destruct (N.compare_spec (N_of_ascii x) (N_of_ascii z)) as [Exz | Lxz | Gxz];
    try congruence; try lia; try (intros; reflexivity).
  apply IH.
Qed.

#[global] Instance path_le_total : Total path_le.
Proof. intros p q. apply String.leb_total. Qed.

#[global] Instance path_le_trans : Transitive path_le.
Proof. intros p q r. apply string_compare_trans_le. Qed.

Lemma StronglySorted_sublist {A} (R : relation A) (l1 l2 : list A) :
  l1 `sublist_of` l2 -> StronglySorted R l2 -> StronglySorted R l1.
Proof.
  induction 1 as [| x l1 l2 Hs IH | x l1 l2 Hs IH]; intros H.
  - constructor.
  - apply StronglySorted_inv in H as [H1 H2]. constructor; [now apply IH |].
    rewrite Forall_forall in *. intros y Hy. apply H2. eapply elem_of_sublist; eassumption.
  - apply StronglySorted_inv in H as [H1 _]. now apply IH.
Qed.

Lemma sorted_set_elem_of (l : list Path) (p : Path) : p ∈ sorted_set l <-> p ∈ l.
Proof. unfold sorted_set. now rewrite merge_sort_Permutation, elem_of_remove_dups. Qed.

Lemma sorted_set_NoDup (l : list Path) : NoDup (sorted_set l).
Proof. unfold sorted_set. rewrite merge_sort_Permutation. apply NoDup_remove_dups. Qed.

Lemma sorted_set_sorted (l : list Path) : StronglySorted path_le (sorted_set l).
Proof. apply StronglySorted_merge_sort; apply _. Qed.

Section DiscoveryProperties.

Variable resolve : string -> FsResult string.
Variable path_exists : string -> FsResult bool.
Variable path_is_dir : string -> FsResult bool.
Variable dir_st_size : string -> FsResult Z.
Variable os_access : string -> FsResult bool.
Variable glob_names : string -> string -> FsResult (list string).
Variable is_file : Path -> FsResult bool.
Variable st_size : Path -> FsResult Z.

Lemma file_is_valid_true (p : Path) :
  file_is_valid is_file st_size p = FsOk true <-> usable_file is_file st_size p.
Proof.
  unfold file_is_valid, usable_file. split.
  - destruct (is_file p) as [[] |]; try discriminate. cbn.
    destruct (st_size p) as [size |]; try discriminate. cbn. intros [= H].
    split; [reflexivity |]. exists size. split; [reflexivity | lia].
  - intros (-> & size & -> & H). cbn. f_equal. lia.
Qed.

Lemma elem_of_children (search_path : string) (names : list string) (p : Path) :
  p ∈ child search_path <$> names <-> parent p = search_path /\ name p ∈ names.
Proof.
  rewrite list_elem_of_fmap. split.
  - intros (n & -> & Hn). now split.
  - intros [<- Hn]. exists (name p). split; [now destruct p | exact Hn].
Qed.

Lemma glob_loop_spec (search_path : string) (file_extensions : list string) :
  forall excel_files found,
    glob_loop glob_names search_path file_extensions excel_files = FsOk found ->
    forall p, p ∈ found <-> p ∈ excel_files \/ globbed glob_names search_path file_extensions p.
Proof.
  induction file_extensions as [| extension rest IH]; intros acc found H p.
  - cbn in H. injection H as <-. split; [now left |].
    intros [Hp | (_ & ext & names & Hext & _)]; [exact Hp | now apply elem_of_nil in Hext].
  - cbn [glob_loop] in H. unfold glob in H.
    destruct (glob_names search_path ("*" +:+ extension)) as [names |] eqn:Hg; [| discriminate].
    rewrite (IH _ _ H p), elem_of_app, elem_of_children. unfold globbed. split.
    + intros [[Hp | [Hpar Hn]] | (Hpar & ext & names' & Hext & Hg' & Hn)].
      * now left.
      * right. split; [exact Hpar |]. exists extension, names.
        split; [apply list_elem_of_here | now split].
      * right. split; [exact Hpar |]. exists ext, names'.
        split; [now apply list_elem_of_further | now split].
    + intros [Hp | (Hpar & ext & names' & Hext & Hg' & Hn)]; [now left; left |].
      apply elem_of_cons in Hext as [-> | Hext].
      * left; right. rewrite Hg in Hg'. injection Hg' as <-. now split.
      * right. split; [exact Hpar |]. now exists ext, names'.
Qed.

Lemma glob_loop_raises (search_path : string) (file_extensions : list string) :
  forall excel_files e,
    glob_loop glob_names search_path file_extensions excel_files = FsRaise e ->
    exists extension,
      extension ∈ file_extensions
      /\ glob_names search_path ("*" +:+ extension) = FsRaise e.
Proof.
  induction file_extensions as [| extension rest IH]; intros acc e H; [discriminate |].
  cbn [glob_loop] in H. unfold glob in H.
  destruct (glob_names search_path ("*" +:+ extension)) as [names |] eqn:Hg.
  - destruct (IH _ _ H) as (ext & Hext & He). exists ext.
    split; [now apply list_elem_of_further | exact He].
  - injection H as <-. exists extension. split; [apply list_elem_of_here | exact Hg].
Qed.

Lemma glob_loop_returns (search_path : string) (file_extensions : list string) :
  (forall extension, extension ∈ file_extensions ->
     exists names, glob_names search_path ("*" +:+ extension) = FsOk names) ->
  forall excel_files,
    exists found, glob_loop glob_names search_path file_extensions excel_files = FsOk found.
Proof.
  induction file_extensions as [| extension rest IH]; intros H acc.
  - now exists acc.
  - cbn [glob_loop]. unfold glob.
    destruct (H extension (list_elem_of_here _ _)) as [names ->].
    apply IH. intros ext Hext. apply H. now apply list_elem_of_further.
Qed.

Lemma valid_files_loop_spec (excel_files : list Path) :
  forall valid_files out,
    valid_files_loop is_file st_size excel_files valid_files = FsOk out ->
    exists kept,
      out = valid_files ++ kept
      /\ kept `sublist_of` excel_files
      /\ forall p, p ∈ kept <-> p ∈ excel_files /\ file_is_valid is_file st_size p = FsOk true.
Proof.
  induction excel_files as [| f rest IH]; intros acc out H.
  - cbn in H. injection H as <-. exists []. rewrite app_nil_r.
    split; [reflexivity |]. split; [constructor |].
    intros p. split; [intros Hp; now apply elem_of_nil in Hp | intros [Hp _]; exact Hp].
  - cbn [valid_files_loop] in H.
    destruct (file_is_valid is_file st_size f) as [[] | e] eqn:Hf.
    + destruct (IH _ _ H) as (kept & -> & Hs & Hk). exists (f :: kept).
      rewrite <- app_assoc. split; [reflexivity |]. split; [now apply sublist_skip |].
      intros p. rewrite !elem_of_cons, Hk. split.
      * intros [-> | [Hp Hv]]; [now split; [left |] | now split; [right |]].
      * intros [[-> | Hp] Hv]; [now left | now right].
    + destruct (IH _ _ H) as (kept & -> & Hs & Hk). exists kept.
      split; [reflexivity |]. split; [now apply sublist_cons |].
      intros p. rewrite elem_of_cons, Hk. split.
      * intros [Hp Hv]. now split; [right |].
      * intros [[-> | Hp] Hv]; [congruence | now split].
    + destruct (is_OSError_class e); [| discriminate].
      destruct (IH _ _ H) as (kept & -> & Hs & Hk). exists kept.
      split; [reflexivity |]. split; [now apply sublist_cons |].
      intros p. rewrite elem_of_cons, Hk. split.
      * intros [Hp Hv]. now split; [right |].
      * intros [[-> | Hp] Hv]; [congruence | now split].
Qed.

Lemma valid_files_loop_raises (excel_files : list Path) :
  forall valid_files e,
    valid_files_loop is_file st_size excel_files valid_files = FsRaise e ->
    is_OSError_class e = false.
Proof.
  induction excel_files as [| f rest IH]; intros acc e H; [discriminate |].
  cbn [valid_files_loop] in H.
  destruct (file_is_valid is_file st_size f) as [[] | e0] eqn:Hf; try now apply IH in H.
  destruct (is_OSError_class e0) eqn:He0; [now apply IH in H | congruence].
Qed.

Lemma valid_files_loop_returns (excel_files : list Path) :
  (forall p e, file_is_valid is_file st_size p = FsRaise e -> is_OSError_class e = true) ->
  forall valid_files,
    exists out, valid_files_loop is_file st_size excel_files valid_files = FsOk out.
Proof.
  intros H. induction excel_files as [| f rest IH]; intros acc; [now exists acc |].
  cbn [valid_files_loop].
  destruct (file_is_valid is_file st_size f) as [[] | e] eqn:Hf; try apply IH.
  rewrite (H f e Hf). apply IH.
Qed.

(** What a listing that returns went through. *)
Lemma get_excel_files_returns (folder_path : string) (file_extensions : option (list string))
  (files : list Path) :
  get_excel_files resolve path_exists path_is_dir dir_st_size os_access glob_names
    is_file st_size folder_path file_extensions = FsOk files ->
  exists search_path found,
    resolve folder_path = FsOk search_path
    /\ glob_loop glob_names search_path (default DEFAULT_EXCEL_EXTENSIONS file_extensions) []
       = FsOk found
    /\ valid_files_loop is_file st_size (sorted_set found) [] = FsOk files.
Proof.
  unfold get_excel_files. cbn zeta.
  destruct (default DEFAULT_EXCEL_EXTENSIONS file_extensions) as [| ext0 exts] eqn:Hd;
    [discriminate |].
  destruct (resolve folder_path) as [search_path |]; [| discriminate].
  cbn [mbind FsResult_bind]. intros H. exists search_path.
  destruct (scan_directory _ _ _ _ _ _ _ search_path (ext0 :: exts)) as [l | e] eqn:Hscan.
  2: { destruct (is_path_error e); discriminate. }
  injection H as ->. unfold scan_directory in Hscan.
  destruct (path_exists search_path) as [[] |]; cbn [mbind FsResult_bind negb] in Hscan; try discriminate Hscan.
  destruct (path_is_dir search_path) as [[] |]; cbn [mbind FsResult_bind negb] in Hscan; try discriminate Hscan.
  2: { destruct (dir_st_size search_path); discriminate Hscan. }
  destruct (os_access search_path) as [[] |]; cbn [mbind FsResult_bind negb] in Hscan; try discriminate Hscan.
  destruct (glob_loop glob_names search_path (ext0 :: exts) []) as [found |] eqn:Hg;
    [| discriminate Hscan].
  exists found. now split.
Qed.

(** X18. The list returned by the file listing is in the order of the
    file names and holds no path twice. *)
Theorem discovered_files_are_sorted (folder_path : string)
  (file_extensions : option (list string)) (files : list Path) :
  get_excel_files resolve path_exists path_is_dir dir_st_size os_access glob_names
    is_file st_size folder_path file_extensions = FsOk files ->
  StronglySorted path_le files /\ NoDup files.
Proof.
  intros H. destruct (get_excel_files_returns _ _ _ H) as (sp & found & _ & _ & Hv).
  destruct (valid_files_loop_spec _ _ _ Hv) as (kept & -> & Hs & _). cbn [app].
  split.
  - eapply StronglySorted_sublist; [exact Hs | apply sorted_set_sorted].
  - exact (sublist_NoDup _ _ (sorted_set_NoDup _) Hs).
Qed.

(** X19. The file listing returns exactly the usable matches: a path is
    in the returned list if and only if it is a child of the resolved
    folder whose name one of the patterns matched and it is a regular file
    of positive size. *)
Theorem discovered_files_are_the_usable_matches (folder_path : string)
  (file_extensions : option (list string)) (files : list Path) :
  get_excel_files resolve path_exists path_is_dir dir_st_size os_access glob_names
    is_file st_size folder_path file_extensions = FsOk files ->
  exists search_path,
    resolve folder_path = FsOk search_path
    /\ forall p,
         p ∈ files
         <-> globbed glob_names search_path
               (default DEFAULT_EXCEL_EXTENSIONS file_extensions) p
             /\ usable_file is_file st_size p.
Proof.
  intros H. destruct (get_excel_files_returns _ _ _ H) as (sp & found & Hr & Hg & Hv).
  exists sp. split; [exact Hr |]. intros p.
  destruct (valid_files_loop_spec _ _ _ Hv) as (kept & -> & _ & Hk). cbn [app].
  rewrite Hk, sorted_set_elem_of, (glob_loop_spec _ _ _ _ Hg p), file_is_valid_true.
  split.
  - intros [[Hp | Hp] Hu]; [now apply elem_of_nil in Hp | now split].
  - intros [Hp Hu]. split; [now right | exact Hu].
Qed.

(** X20. A file that cannot be examined does not fail the listing: when
    the folder exists, is a readable directory and every glob call
    returns, and the checks of the files raise nothing but OSError, the
    listing returns a list. *)
Theorem unreadable_files_do_not_fail_discovery (folder_path search_path : string)
  (file_extensions : option (list string)) :
  default DEFAULT_EXCEL_EXTENSIONS file_extensions <> [] ->
  resolve folder_path = FsOk search_path ->
  path_exists search_path = FsOk true ->
  path_is_dir search_path = FsOk true ->
  os_access search_path = FsOk true ->
  (forall extension,
     extension ∈ default DEFAULT_EXCEL_EXTENSIONS file_extensions ->
     exists names, glob_names search_path ("*" +:+ extension) = FsOk names) ->
  (forall p e, file_is_valid is_file st_size p = FsRaise e -> is_OSError_class e = true) ->
  exists files,
    get_excel_files resolve path_exists path_is_dir dir_st_size os_access glob_names
      is_file st_size folder_path file_extensions = FsOk files.
Proof.
  intros Hne Hr He Hd Ha Hg Hf. unfold get_excel_files, scan_directory. cbn zeta.
  destruct (default DEFAULT_EXCEL_EXTENSIONS file_extensions) as [| ext0 exts] eqn:Hd';
    [congruence |].
  rewrite Hr. cbn [mbind FsResult_bind]. rewrite He. cbn [mbind FsResult_bind negb].
  rewrite Hd. cbn [mbind FsResult_bind negb]. rewrite Ha. cbn [mbind FsResult_bind negb].
  destruct (glob_loop_returns search_path (ext0 :: exts) Hg []) as [found ->].
  destruct (valid_files_loop_returns (sorted_set found) Hf []) as [out ->].
  now exists out.
Qed.

(** X21. What the file listing raises once the folder is resolved is a
    ValueError for an empty list of extensions, or a RuntimeError, or one
    of FileNotFoundError, NotADirectoryError and PermissionError; and
    one of these three always comes from a check of the directory or from
    a glob call, never from the check of a file. *)
Theorem discovery_error_classes (folder_path search_path : string)
  (file_extensions : option (list string)) (e : fs_exn) :
  resolve folder_path = FsOk search_path ->
  get_excel_files resolve path_exists path_is_dir dir_st_size os_access glob_names
    is_file st_size folder_path file_extensions = FsRaise e ->
  (e = FsValueError /\ file_extensions = Some [])
  \/ e = FsRuntimeError
  \/ (is_path_error e = true
      /\ directory_error path_exists path_is_dir dir_st_size os_access glob_names
           search_path (default DEFAULT_EXCEL_EXTENSIONS file_extensions) e).
Proof.
  intros Hr. unfold get_excel_files. cbn zeta.
  destruct (default DEFAULT_EXCEL_EXTENSIONS file_extensions) as [| ext0 exts] eqn:Hd.
  { intros [= <-]. left. split; [reflexivity |].
    destruct file_extensions as [[|] |]; cbn in Hd; [reflexivity | discriminate Hd ..]. }
  rewrite Hr. cbn [mbind FsResult_bind].
  destruct (scan_directory _ _ _ _ _ _ _ search_path (ext0 :: exts)) as [l | e0] eqn:Hscan;
    [discriminate |].
  destruct (is_path_error e0) eqn:Hpe; intros [= <-]; [| now right; left].
  right; right. split; [exact Hpe |]. unfold directory_error.
  unfold scan_directory in Hscan.
  destruct (path_exists search_path) as [[] | e1]; cbn [mbind FsResult_bind negb] in Hscan;
    [| injection Hscan as <-; right; left; now split | injection Hscan as <-; now left].
  destruct (path_is_dir search_path) as [[] | e1]; cbn [mbind FsResult_bind negb] in Hscan.
  - destruct (os_access search_path) as [[] | e1]; cbn [mbind FsResult_bind negb] in Hscan.
    + destruct (glob_loop glob_names search_path (ext0 :: exts) []) as [found |] eqn:Hg.
      * apply valid_files_loop_raises in Hscan. destruct e0; discriminate.
      * injection Hscan as <-. apply glob_loop_raises in Hg.
        do 6 right. exact Hg.
    + injection Hscan as <-. do 5 right. left. now split.
    + injection Hscan as <-. do 4 right. now left.
  - do 3 right. left. split; [reflexivity |].
    destruct (dir_st_size search_path) as [z | e1]; cbn [mbind FsResult_bind negb] in Hscan; injection Hscan as <-;
      [now right | now left].
  - injection Hscan as <-. do 2 right. now left.
Qed.

End DiscoveryProperties.

Lemma sample_discovery :
  get_excel_files sample_resolve sample_path_exists sample_path_is_dir sample_dir_st_size
    sample_os_access sample_glob_names sample_is_file sample_st_size "/data" None
  = FsOk sample_discovered.
Proof. vm_compute. reflexivity. Qed.

Lemma discovered_files_are_sorted_witness :
  StronglySorted path_le sample_discovered /\ NoDup sample_discovered.
Proof.
  apply (discovered_files_are_sorted sample_resolve sample_path_exists sample_path_is_dir
           sample_dir_st_size sample_os_access sample_glob_names sample_is_file
           sample_st_size "/data" None sample_discovered).
  exact sample_discovery.
Defined.

Lemma discovered_files_are_the_usable_matches_witness :
  exists search_path,
    sample_resolve "/data" = FsOk search_path
    /\ forall p,
         p ∈ sample_discovered
         <-> globbed sample_glob_names search_path
               (default DEFAULT_EXCEL_EXTENSIONS None) p
             /\ usable_file sample_is_file sample_st_size p.
Proof.
  apply (discovered_files_are_the_usable_matches sample_resolve sample_path_exists
           sample_path_is_dir sample_dir_st_size sample_os_access sample_glob_names
           sample_is_file sample_st_size "/data" None sample_discovered).
  exact sample_discovery.
Defined.

Lemma unreadable_files_do_not_fail_discovery_witness :
  exists files,
    get_excel_files sample_resolve sample_path_exists sample_path_is_dir sample_dir_st_size
      sample_os_access sample_glob_names sample_is_file sample_st_size "/data" None
    = FsOk files.
Proof.
  apply (unreadable_files_do_not_fail_discovery sample_resolve sample_path_exists
           sample_path_is_dir sample_dir_st_size sample_os_access sample_glob_names
           sample_is_file sample_st_size "/data" "/data" None).
  - discriminate.
  - reflexivity.
  - reflexivity.
  - reflexivity.
  - reflexivity.
  - intros extension _. unfold sample_glob_names.
    destruct (String.eqb _ "*.xlsx"); [now eexists |].
    destruct (String.eqb _ "*.xls"); now eexists.
  - intros p e. unfold file_is_valid, sample_is_file, sample_st_size. cbn.
    destruct (negb _); [| discriminate].
    destruct (String.eqb (name p) "empty.xlsx"); [discriminate |].
    destruct (String.eqb (name p) "locked.xls"); [| discriminate].
    now intros [= <-].
Defined.

Lemma discovery_error_classes_witness :
  (NotADirectoryError = FsValueError /\ None = Some ([] : list string))
  \/ NotADirectoryError = FsRuntimeError
  \/ (is_path_error NotADirectoryError = true
      /\ directory_error sample_path_exists sample_path_is_dir sample_dir_st_size
           sample_os_access sample_glob_names "/data/readme.txt"
           (default DEFAULT_EXCEL_EXTENSIONS None) NotADirectoryError).
Proof.
  apply (discovery_error_classes sample_resolve sample_path_exists sample_path_is_dir
           sample_dir_st_size sample_os_access sample_glob_names sample_is_file
           sample_st_size "/data/readme.txt" "/data/readme.txt" None NotADirectoryError).
  - reflexivity.
  - vm_compute. reflexivity.
Defined.

(** ** Storage on a reliable connection *)

Lemma consume_fault_reliable (c : Conn) : reliable c -> consume_fault c = (false, c).
Proof. unfold reliable, consume_fault. now intros ->. Qed.

Lemma conn_cursor_reliable (c : Conn) : reliable c -> conn_cursor c = (Ok tt, c).
Proof. intros H. unfold conn_cursor. now rewrite (consume_fault_reliable c H). Qed.

Lemma conn_rollback_reliable (c : Conn) :
  reliable c -> conn_rollback c = (Ok tt, conn_of (durable c)).
Proof.
  intros H. unfold conn_rollback. rewrite (consume_fault_reliable c H).
  unfold conn_of. now rewrite H.
Qed.

Lemma try_rollback_reliable (c : Conn) : reliable c -> try_rollback c = conn_of (durable c).
Proof. intros H. unfold try_rollback. now rewrite (conn_rollback_reliable c H). Qed.

Lemma conn_commit_reliable (c : Conn) :
  reliable c -> exists c', conn_commit c = (Ok tt, c') /\ reliable c'.
Proof.
  intros H. unfold conn_commit. rewrite (consume_fault_reliable c H).
  destruct (aborted c); eexists; (split; [reflexivity | exact H]).
Qed.

Lemma cursor_execute_reliable {A} (stmt : Tables -> Result (A * Tables)) (c : Conn) :
  reliable c -> reliable (snd (cursor_execute stmt c)).
Proof.
  intros H. unfold cursor_execute. rewrite (consume_fault_reliable c H).
  destruct (aborted c); [exact H |]. now destruct (stmt (tables c)) as [[a t] | e].
Qed.

Lemma stays_reliable_ret {A} (a : A) : stays_reliable (mret a).
Proof. now intros c H. Qed.

Lemma stays_reliable_bind {A B} (m : DB A) (k : A -> DB B) :
  stays_reliable m -> (forall a, stays_reliable (k a)) -> stays_reliable (m ≫= k).
Proof.
  intros Hm Hk c H. specialize (Hm c H). unfold mbind, DB_bind.
  destruct (m c) as [[a | e] c1]; cbn [snd] in *; [now apply Hk | exact Hm].
Qed.

Lemma stays_reliable_cursor_execute {A} (stmt : Tables -> Result (A * Tables)) :
  stays_reliable (cursor_execute stmt).
Proof. intros c. apply cursor_execute_reliable. Qed.

Lemma stays_reliable_conn_commit : stays_reliable conn_commit.
Proof. intros c H. now destruct (conn_commit_reliable c H) as (c' & -> & H'). Qed.

Lemma stays_reliable_get_db_cursor {A} (body : DB A) :
  stays_reliable body -> stays_reliable (get_db_cursor body).
Proof.
  intros Hb c H. unfold get_db_cursor. rewrite (conn_cursor_reliable c H).
  specialize (Hb c H). destruct (body c) as [[a | e] c1]; cbn [snd] in *; [exact Hb |].
  now rewrite (try_rollback_reliable c1 Hb).
Qed.

Lemma stays_reliable_get_or_create_ship_id (ship_id : string) :
  stays_reliable (get_or_create_ship_id ship_id).
Proof.
  apply stays_reliable_get_db_cursor, stays_reliable_bind.
  - apply stays_reliable_cursor_execute.
  - intros result. destruct (head result); [apply stays_reliable_ret |].
    apply stays_reliable_bind; [apply stays_reliable_cursor_execute |].
    intros _. apply stays_reliable_bind; [apply stays_reliable_conn_commit |].
    intros _. apply stays_reliable_ret.
Qed.

Lemma stays_reliable_get_or_create_datetime_id (ts : datetime) :
  stays_reliable (get_or_create_datetime_id ts).
Proof.
  apply stays_reliable_get_db_cursor, stays_reliable_bind.
  - apply stays_reliable_cursor_execute.
  - intros result. destruct (head result); [apply stays_reliable_ret |].
    apply stays_reliable_bind; [apply stays_reliable_cursor_execute |].
    intros _. apply stays_reliable_bind; [apply stays_reliable_conn_commit |].
    intros _. apply stays_reliable_ret.
Qed.

Lemma guarded_insert_reliable (bulk_data : list FactRow) (c : Conn) :
  reliable c ->
  exists inserted c', guarded_insert bulk_data c = (Ok inserted, c') /\ reliable c'.
Proof.
  intros H. unfold guarded_insert, get_db_cursor. rewrite (conn_cursor_reliable c H).
  pose proof (cursor_execute_reliable (execute_values bulk_data) c H) as H1.
  destruct (cursor_execute (execute_values bulk_data) c) as [[a | e] c1]; cbn [snd] in H1.
  - now exists true, c1.
  - exists false, c1. split; [now destruct (is_IntegrityError e) | exact H1].
Qed.

(** A failed bulk insert, swallowed by one of the two handlers, leaves the
    transaction aborted: nothing rolls it back. *)
Lemma guarded_insert_false_aborted (bulk_data : list FactRow) (c c' : Conn) :
  guarded_insert bulk_data c = (Ok false, c') -> aborted c' = true.
Proof.
  unfold guarded_insert, get_db_cursor.
  destruct (conn_cursor c) as [[[] | e] c1]; [| discriminate].
  unfold cursor_execute. destruct (consume_fault c1) as [[] c2].
  { cbn. now intros [= <-]. }
  destruct (aborted c2) eqn:Ha.
  { cbn. now intros [= <-]. }
  unfold execute_values.
  destruct (insert_facts bulk_data (tables c2)) as [t |]; cbn; [discriminate |].
  destruct (is_IntegrityError _); now intros [= <-].
Qed.

(** ** Bulk Loader on a reliable connection *)

Section LoaderReliable.

Variable to_datetime : string -> Result (option datetime).

Lemma stays_reliable_prepare_row (row : ProcessedRow) :
  stays_reliable (prepare_row to_datetime row).
Proof.
  intros c H. unfold prepare_row.
  destruct (to_datetime (datetime_str row)) as [[ts |] | e]; try exact H.
  apply (stays_reliable_bind (get_or_create_ship_id (id_ship row))); [| | exact H].
  - apply stays_reliable_get_or_create_ship_id.
  - intros ship_id. apply stays_reliable_bind; [apply stays_reliable_get_or_create_datetime_id |].
    intros k. apply stays_reliable_ret.
Qed.

Lemma stays_reliable_prepare_bulk_loop (rows : list ProcessedRow) :
  forall acc, stays_reliable (prepare_bulk_loop to_datetime rows acc).
Proof.
  induction rows as [| row rest IH]; intros acc c H; [exact H |].
  cbn [prepare_bulk_loop]. pose proof (stays_reliable_prepare_row row c H) as H1.
  destruct (prepare_row to_datetime row c) as [[[r |] | e] c1]; cbn [snd] in H1;
    now apply IH.
Qed.

Lemma load_batch_reliable (batch : list ProcessedRow) (n : nat) (c : Conn) :
  reliable c ->
  exists n' c', load_batch to_datetime batch n c = (Ok tt, n', c') /\ reliable c'.
Proof.
  intros H. unfold load_batch, prepare_bulk_data.
  pose proof (stays_reliable_prepare_bulk_loop batch [] c H) as H1.
  destruct (prepare_bulk_loop_returns to_datetime batch [] c) as (recs & kept & c1 & E & _).
  cbn [app] in E. rewrite E in *. cbn [snd] in H1.
  destruct recs as [| r recs]; [now exists n, c1 |].
  destruct (guarded_insert_reliable (r :: recs) c1 H1) as ([] & c2 & -> & H2).
  - destruct (conn_commit_reliable c2 H2) as (c3 & -> & H3). now eexists _, c3.
  - now exists n, c2.
Qed.

Lemma load_loop_reliable (df : list ProcessedRow) (starts : list nat) :
  forall n c,
    reliable c ->
    exists n' c', load_loop to_datetime starts df n c = (Ok tt, n', c') /\ reliable c'.
Proof.
  induction starts as [| s rest IH]; intros n c H; [now exists n, c |].
  cbn [load_loop]. cbn zeta.
  destruct (load_batch_reliable (iloc s (Nat.min (s + batch_size) (length df)) df) n c H)
    as (n1 & c1 & -> & H1).
  now apply IH.
Qed.

(** X22. On a connection no call of which fails by itself the loader never
    raises, whatever the rows are and whatever state the transaction is in
    (aborted, or with uncommitted rows): every failure of a statement is
    swallowed on the way, and the connection stays reliable. *)
Theorem reliable_connection_never_raises (processed_df : list ProcessedRow) (c : Conn) :
  reliable c ->
  exists records_loaded c',
    load_data_to_postgres_bulk to_datetime processed_df c = (Ok records_loaded, c')
    /\ reliable c'.
Proof.
  intros H. unfold load_data_to_postgres_bulk.
  destruct processed_df as [| row0 rest] eqn:Hdf; [now exists 0%nat, c |].
  rewrite <- Hdf.
  destruct (load_loop_reliable processed_df (py_range (length processed_df) batch_size)
              0%nat c H) as (n & c' & -> & H').
  now exists n, c'.
Qed.

(** On an aborted transaction the first statement of the row raises and
    the cursor's handler rolls back. *)
Lemma prepare_row_aborted (row : ProcessedRow) (c : Conn) :
  reliable c -> aborted c = true ->
  valid_timestamp to_datetime row = true ->
  prepare_row to_datetime row c = (Raise InFailedSqlTransaction, conn_of (durable c)).
Proof.
  intros H Ha Hv. unfold prepare_row, valid_timestamp in *.
  destruct (to_datetime (datetime_str row)) as [[ts |] | e]; try discriminate.
  unfold mbind at 1, DB_bind at 1.
  unfold get_or_create_ship_id, get_db_cursor. rewrite (conn_cursor_reliable c H).
  unfold mbind at 1, DB_bind at 1, cursor_execute at 1.
  rewrite (consume_fault_reliable c H), Ha.
  now rewrite (try_rollback_reliable c H).
Qed.

(** X23. A bulk insert that fails costs the next row. When the statement
    fails and a handler of the batch swallows the failure, nothing rolls
    the transaction back: it stays aborted. The first row with a valid
    timestamp prepared after that raises on its first statement, the
    cursor's handler rolls back, and the row is skipped; preparation goes
    on with the remaining rows from the rolled-back state. *)
Theorem failed_insert_costs_the_next_row (bulk_data : list FactRow) (c c' : Conn)
  (row : ProcessedRow) (rest : list ProcessedRow) :
  guarded_insert bulk_data c = (Ok false, c') ->
  reliable c' ->
  valid_timestamp to_datetime row = true ->
  aborted c' = true
  /\ prepare_row to_datetime row c' = (Raise InFailedSqlTransaction, conn_of (durable c'))
  /\ prepare_bulk_data to_datetime (row :: rest) c'
     = prepare_bulk_data to_datetime rest (conn_of (durable c')).
Proof.
  intros Hg Hr Hv. pose proof (guarded_insert_false_aborted _ _ _ Hg) as Ha.
  pose proof (prepare_row_aborted row c' Hr Ha Hv) as Hp.
  split; [exact Ha |]. split; [exact Hp |].
  unfold prepare_bulk_data. cbn [prepare_bulk_loop]. now rewrite Hp.
Qed.

End LoaderReliable.

Lemma reliable_connection_never_raises_witness :
  exists records_loaded c',
    load_data_to_postgres_bulk sample_to_datetime sample_df sample_aborted_conn
    = (Ok records_loaded, c')
    /\ reliable c'.
Proof.
  apply (reliable_connection_never_raises sample_to_datetime sample_df sample_aborted_conn).
  reflexivity.
Defined.

Lemma failed_insert_costs_the_next_row_witness :
  aborted
    {| tables := empty_tables; durable := empty_tables; aborted := true; faults := [] |}
  = true
  /\ prepare_row sample_to_datetime sample_processed_row
       {| tables := empty_tables; durable := empty_tables; aborted := true; faults := [] |}
     = (Raise InFailedSqlTransaction, conn_of empty_tables)
  /\ prepare_bulk_data sample_to_datetime [sample_processed_row; sample_processed_row]
       {| tables := empty_tables; durable := empty_tables; aborted := true; faults := [] |}
     = prepare_bulk_data sample_to_datetime [sample_processed_row] (conn_of empty_tables).
Proof.
  apply (failed_insert_costs_the_next_row sample_to_datetime [] sample_failing_insert_conn
           {| tables := empty_tables; durable := empty_tables; aborted := true; faults := [] |}
           sample_processed_row [sample_processed_row]).
  - reflexivity.
  - reflexivity.
  - reflexivity.
Defined.

(** The aborted transaction in a load: of two rows of one ship and minute
    the first is skipped and the second is loaded. *)
Example sample_load_on_aborted_transaction :
  match load_data_to_postgres_bulk sample_to_datetime sample_df sample_aborted_conn with
  | (Ok n, c') =>
      n = 1%nat
      /\ f_original_datetime <$> f_data (tables c') = ["2022-01-01 10:30:59"]
  | _ => False
  end.
Proof. vm_compute. split; reflexivity. Qed.

(** ** Dimension Resolver: what a returned key points at *)

Lemma consume_fault_tables (c : Conn) :
  tables (snd (consume_fault c)) = tables c
  /\ durable (snd (consume_fault c)) = durable c
  /\ aborted (snd (consume_fault c)) = aborted c.
Proof. unfold consume_fault. now destruct (faults c). Qed.

Lemma conn_cursor_Ok (c c' : Conn) :
  conn_cursor c = (Ok tt, c') -> tables c' = tables c /\ aborted c' = aborted c.
Proof.
  unfold conn_cursor. pose proof (consume_fault_tables c) as (T & _ & A).
  destruct (consume_fault c) as [[] c1]; [discriminate |]. cbn [snd] in *.
  now intros [= <-].
Qed.

Lemma cursor_execute_Ok {A} (stmt : Tables -> Result (A * Tables)) (c c' : Conn) (a : A) :
  cursor_execute stmt c = (Ok a, c') ->
  stmt (tables c) = Ok (a, tables c') /\ aborted c' = false.
Proof.
  unfold cursor_execute. pose proof (consume_fault_tables c) as (T & _ & _).
  destruct (consume_fault c) as [[] c1]; [discriminate |]. cbn [snd] in *.
  destruct (aborted c1); [discriminate |]. rewrite T.
  destruct (stmt (tables c)) as [[a' t'] | e]; [| discriminate].
  now intros [= <- <-].
Qed.

Lemma conn_commit_Ok (c c' : Conn) :
  conn_commit c = (Ok tt, c') -> aborted c = false -> tables c' = tables c.
Proof.
  unfold conn_commit. pose proof (consume_fault_tables c) as (T & _ & A).
  destruct (consume_fault c) as [[] c1]; [discriminate |]. cbn [snd] in *.
  intros H Ha. rewrite Ha in A. rewrite A in H. now injection H as <-.
Qed.

(** A ship key that is returned names a row of the ship table. *)
Lemma get_or_create_ship_id_present (ship_id found : string) (c c' : Conn) :
  get_or_create_ship_id ship_id c = (Ok found, c') ->
  found = ship_id /\ ship_id ∈ d_ship (tables c').
Proof.
  unfold get_or_create_ship_id, get_db_cursor. intros H.
  destruct (conn_cursor c) as [[[] | e] c1] eqn:E0; [| discriminate].
  unfold mbind, DB_bind in H.
  destruct (cursor_execute (select_ship ship_id) c1) as [[result | e] c2] eqn:E1;
    [| discriminate].
  apply cursor_execute_Ok in E1 as [E1 _]. unfold select_ship in E1.
  injection E1 as <- E1.
  destruct (head _) as [s |] eqn:Hh.
  - cbn in H. injection H as <- <-.
    apply head_Some_elem_of, list_elem_of_filter in Hh as [-> Hin].
    split; [reflexivity |]. now rewrite <- E1.
  - destruct (cursor_execute (insert_ship ship_id) c2) as [[[] | e] c3] eqn:E2;
      [| discriminate].
    apply cursor_execute_Ok in E2 as [E2 A3]. unfold insert_ship in E2.
    case_bool_decide; [discriminate |]. injection E2 as E2.
    destruct (conn_commit c3) as [[[] | e] c4] eqn:E3; [| discriminate].
    apply conn_commit_Ok in E3; [| exact A3].
    cbn in H. injection H as <- <-. split; [reflexivity |].
    rewrite E3, <- E2. cbn. apply elem_of_app. right. apply list_elem_of_here.
Qed.

(** A calendar key that is returned is the key of a calendar row of the
    timestamp's minute, and the call took nothing from the tables. *)
Lemma get_or_create_datetime_id_present (ts found : datetime) (c c' : Conn) :
  get_or_create_datetime_id ts c = (Ok found, c') ->
  tables_extend (tables c) (tables c')
  /\ exists cal,
       cal ∈ d_calendar (tables c') /\ datetime_id cal = found /\ matches_minute ts cal.
Proof.
  unfold get_or_create_datetime_id, get_db_cursor. intros H.
  destruct (conn_cursor c) as [[[] | e] c1] eqn:E0; [| discriminate].
  apply conn_cursor_Ok in E0 as [T1 _].
  unfold mbind, DB_bind in H.
  destruct (cursor_execute (select_calendar ts) c1) as [[result | e] c2] eqn:E1;
    [| discriminate].
  apply cursor_execute_Ok in E1 as [E1 _]. unfold select_calendar in E1.
  injection E1 as <- E1.
  destruct (head _) as [k |] eqn:Hh.
  - cbn in H. injection H as <- <-.
    apply head_Some_elem_of, list_elem_of_fmap in Hh as (cal & -> & Hin).
    apply list_elem_of_filter in Hin as [Hm Hin].
    split; [rewrite <- E1, T1; apply tables_extend_refl |].
    exists cal. rewrite <- E1. now split.
  - destruct (cursor_execute (insert_calendar (new_calendar_row ts)) c2)
      as [[[] | e] c3] eqn:E2; [| discriminate].
    apply cursor_execute_Ok in E2 as [E2 A3]. unfold insert_calendar in E2.
    case_bool_decide; [discriminate |]. injection E2 as E2.
    destruct (conn_commit c3) as [[[] | e] c4] eqn:E3; [| discriminate].
    apply conn_commit_Ok in E3; [| exact A3].
    cbn in H. injection H as <- <-. rewrite E3, <- E2, <- E1, T1. split.
    + repeat split; cbn; [reflexivity | now apply prefix_app_r | reflexivity].
    + exists (new_calendar_row ts). cbn. split; [| split].
      * apply elem_of_app. right. apply list_elem_of_here.
      * reflexivity.
      * apply new_calendar_row_consistent.
Qed.

Section ResolverEdges.

Variable to_datetime : string -> Result (option datetime).

(** X24. Whatever the connection does, a record that is prepared for a row
    points at rows that exist: its ship key is the row's ship identifier
    and is in the ship table, and its calendar key is the key of a
    calendar row of the minute of the row's timestamp. *)
Theorem prepared_record_keys_exist (row : ProcessedRow) (r : FactRow) (c c' : Conn) :
  prepare_row to_datetime row c = (Ok (Some r), c') ->
  f_ship_id r = id_ship row
  /\ keys_exist (tables c') r
  /\ exists timestamp cal,
       to_datetime (datetime_str row) = Ok (Some timestamp)
       /\ cal ∈ d_calendar (tables c')
       /\ datetime_id cal = f_datetime_id r
       /\ matches_minute timestamp cal.
Proof.
  unfold prepare_row.
  destruct (to_datetime (datetime_str row)) as [[ts |] | e]; try discriminate.
  unfold mbind, DB_bind.
  destruct (get_or_create_ship_id (id_ship row) c) as [[s | e] c1] eqn:E1; [| discriminate].
  apply get_or_create_ship_id_present in E1 as [-> Hs].
  destruct (get_or_create_datetime_id ts c1) as [[k | e] c2] eqn:E2; [| discriminate].
  apply get_or_create_datetime_id_present in E2 as [(X & _ & _) (cal & Hin & Hk & Hm)].
  cbn. intros [= <- <-]. cbn [f_ship_id f_datetime_id bulk_record].
  split; [reflexivity |]. split.
  - split; cbn [f_ship_id f_datetime_id bulk_record].
    + destruct X as [l ->]. apply elem_of_app. now left.
    + apply list_elem_of_fmap. now exists cal.
  - now exists ts, cal.
Qed.

End ResolverEdges.

Lemma prepared_record_keys_exist_witness :
  f_ship_id (bulk_record sample_processed_row "SHIP-1" sample_timestamp)
  = id_ship sample_processed_row
  /\ keys_exist
       (tables (conn_of (resolve_calendar sample_timestamp
                           (resolve_ship "SHIP-1" empty_tables))))
       (bulk_record sample_processed_row "SHIP-1" sample_timestamp)
  /\ exists timestamp cal,
       sample_to_datetime (datetime_str sample_processed_row) = Ok (Some timestamp)
       /\ cal ∈ d_calendar
                  (tables (conn_of (resolve_calendar sample_timestamp
                                      (resolve_ship "SHIP-1" empty_tables))))
       /\ datetime_id cal
          = f_datetime_id (bulk_record sample_processed_row "SHIP-1" sample_timestamp)
       /\ matches_minute timestamp cal.
Proof.
  apply (prepared_record_keys_exist sample_to_datetime sample_processed_row
           (bulk_record sample_processed_row "SHIP-1" sample_timestamp)
           (conn_of empty_tables)
           (conn_of (resolve_calendar sample_timestamp (resolve_ship "SHIP-1" empty_tables)))).
  vm_compute. reflexivity.
Defined.

(** ** Field Validator: validating again *)

Lemma py_round_Q_idempotent (x : Q) (p : Z) :
  (0 <= p)%Z -> py_round_Q (py_round_Q x p) p = py_round_Q x p.
Proof.
  intros Hp. unfold py_round_Q. apply Z.leb_le in Hp. rewrite Hp. f_equal.
  apply round_half_even_on_integer.
  unfold Qeq, Qmult, inject_Z. cbn [Qnum Qden]. lia.
Qed.

Section ValidatorRoundTrip.

Variable float_of_str : string -> option pyfloat.
Variable literal_eval : string -> Result PyObj.

Lemma no_huge_int_floats (m : gmap string pyfloat) : no_huge_int (VFloat <$> m).
Proof.
  intros k z H. rewrite lookup_fmap in H.
  destruct (m !! k); cbn in H; discriminate.
Qed.

Lemma validate_sensor_data_again (d : PyObj) (m : gmap string pyfloat) :
  validate_sensor_data float_of_str d = Ok m ->
  validate_sensor_data float_of_str (ODict (VFloat <$> m)) = Ok m.
Proof.
  intros Hv.
  destruct (validate_sensor_data_returns float_of_str (VFloat <$> m) (no_huge_int_floats m))
    as [m2 Hv2].
  rewrite Hv2. f_equal. apply map_eq. intros k.
  destruct (m !! k) as [v |] eqn:Hk.
  - destruct (validate_sensor_data_justified float_of_str d m Hv k v Hk)
      as (tgt & lo & hi & p & raw & x & Hin & _ & _ & Hlo & Hhi & ->).
    destruct (rule_in_table_on_grid _ _ _ _ _ Hin) as (Hp0 & Glo & Ghi).
    destruct (py_round_Q_between lo hi x p Hp0 Glo Ghi Hlo Hhi) as [R1 R2].
    unfold validate_sensor_data in Hv2. cbn [mbind Result_bind] in Hv2.
    destruct (validate_loop float_of_str (ODict (VFloat <$> m)) validation_rules (∅, 0%nat))
      as [st |] eqn:Hloop; [| discriminate].
    injection Hv2 as <-.
    rewrite (validate_loop_keeps float_of_str (VFloat <$> m) k tgt lo hi p
               (VFloat (FFin (py_round_Q x p))) (py_round_Q x p) validation_rules
               ltac:(now rewrite lookup_fmap, Hk) eq_refl eq_refl R1 R2
               _ _ NoDup_source_keys Hin Hloop).
    now rewrite py_round_Q_idempotent.
  - destruct (m2 !! k) as [v |] eqn:Hk2; [exfalso | reflexivity].
    destruct (validate_sensor_data_justified float_of_str _ m2 Hv2 k v Hk2)
      as (tgt & lo & hi & p & raw & x & _ & Hg & _).
    cbn in Hg. rewrite lookup_fmap, Hk in Hg. discriminate.
Qed.

(** X25. Parsing is a projection: the mapping the parser returns for any
    argument, passed back to the parser as a dict, is returned unchanged.
    Every value it holds is in range and already rounded, so validating it
    again keeps each entry as it is and adds none. *)
Theorem parsing_a_parsed_record_changes_nothing (data_str : DataArg)
  (m : gmap string pyfloat) :
  parse_data_column float_of_str literal_eval data_str = Ok m ->
  validate_sensor_data float_of_str (ODict (VFloat <$> m)) = Ok m
  /\ parse_data_column float_of_str literal_eval (ADict (VFloat <$> m)) = Ok m.
Proof.
  intros Hp.
  assert (Hv : validate_sensor_data float_of_str (ODict (VFloat <$> m)) = Ok m).
  { destruct (decide (m = ∅)) as [-> | Hne].
    - rewrite fmap_empty. reflexivity.
    - destruct (parse_data_column_validated float_of_str literal_eval _ _ Hp Hne)
        as (parsed & Hparsed).
      exact (validate_sensor_data_again parsed m Hparsed). }
  split; [exact Hv |].
  unfold parse_data_column, parse_try. rewrite Hv. cbn [mbind Result_bind].
  destruct (size m =? 0)%nat eqn:Hs; [| reflexivity].
  apply Nat.eqb_eq, map_size_empty_iff in Hs. now subst.
Qed.

End ValidatorRoundTrip.

Lemma parsing_a_parsed_record_changes_nothing_witness :
  validate_sensor_data sample_float_of_str (ODict (VFloat <$> sample_validated))
  = Ok sample_validated
  /\ parse_data_column sample_float_of_str sample_literal_eval
       (ADict (VFloat <$> sample_validated)) = Ok sample_validated.
Proof.
  apply (parsing_a_parsed_record_changes_nothing sample_float_of_str sample_literal_eval
           (AStr sample_data_text) sample_validated).
  exact sample_text_parsed.
Defined.
